(** * PO / GRN / MRN extractor: a shallow embedding of [app.py]

    The script reads three PDFs, asks a language model for a JSON record of
    each, merges the three records row by row and exports a spreadsheet.
    This file embeds the parts of the script that carry logic:

    - [extract_pdf_text]           (app.py, lines 40-47)
    - [extract_structured_data]    (lines 50-164): schema and instruction
      selection, prompt construction, brace slicing and JSON decoding
    - the body of the "Process PDFs" button (lines 173-249): upload guard,
      row seeding, GRN and MRN overlays, data frame and spreadsheet export.

    Python values returned by [json.loads] are dynamically typed, so the
    embedding keeps them as a [json] tree and writes out which exception
    each operation raises on a value of the wrong shape.  Python strings
    are modelled by [string], a sequence of bytes holding the UTF-8
    encoding; the two brace characters the script searches for are ASCII,
    so searching and slicing bytes cuts the text at the same places. *)

From Stdlib Require Import ZArith Lia Ascii String DecimalString.
From stdpp Require Import base option list strings.

Set Warnings "-register-all".

Local Open Scope stdpp_scope.

(** ** Python exceptions and fallible computations *)

Inductive pyerr : Type :=
  | KeyError (key : string)
  | TypeError
  | AttributeError
  | IndexError
  | ValueError
  | JSONDecodeError
  | RecursionError
  | ServiceError
  | LibraryError (name : string)
  | StopException.

Inductive result (A : Type) : Type :=
  | Ok (a : A)
  | Raise (e : pyerr).
Arguments Ok {A} a.
Arguments Raise {A} e.

#[global] Instance result_ret : MRet result := fun A a => Ok a.
#[global] Instance result_bind : MBind result := fun A B f m =>
  match m with
  | Ok a => f a
  | Raise e => Raise e
  end.

(** ** Floats

    Python's [float] is the IEEE 754 binary64 format, and [float(text)]
    is the float nearest to the decimal the text writes. *)

(** A binary64 float: not-a-number, an infinity, or [(-1)^neg * m * 2^e]
    with [0 <= m < 2^53] and [-1074 <= e <= 971], where [m >= 2^52] unless
    [e = -1074]; every finite float has exactly one such form. *)
Inductive float64 : Type :=
  | FNaN
  | FInf (neg : bool)
  | FFinite (neg : bool) (m e : Z).

(** The integer nearest to [p / q], the even one of two equally near. *)
Definition round_ratio (p q : Z) : Z :=
  let d := (p / q)%Z in
  let r := (p mod q)%Z in
  if (2 * r <? q)%Z then d
  else if (q <? 2 * r)%Z then (d + 1)%Z
  else if Z.even d then d else (d + 1)%Z.

(** The float nearest to [p / q] for positive [p] and [q], ties to even,
    as IEEE 754 rounds. *)
Definition float_of_ratio (neg : bool) (p q : Z) : float64 :=
  let l := (Z.log2 p - Z.log2 q)%Z in
  let l := if (l <? 0)%Z
           then (if (p * 2 ^ (- l) <? q)%Z then l - 1 else l)%Z
           else (if (p <? q * 2 ^ l)%Z then l - 1 else l)%Z in
  let e := Z.max (l - 52) (-1074) in
  let m := if (e <? 0)%Z then round_ratio (p * 2 ^ (- e)) q
           else round_ratio p (q * 2 ^ e) in
  let '(m, e) := if (m =? 2 ^ 53)%Z then (2 ^ 52, e + 1)%Z else (m, e) in
  if (971 <? e)%Z then FInf neg else FFinite neg m e.

(** The float nearest to [m10 * 10^e10], for [m10 >= 0]. *)
Definition float_of_decimal (neg : bool) (m10 e10 : Z) : float64 :=
  if (m10 =? 0)%Z then FFinite neg 0 (-1074)
  else if (400 <? e10)%Z then FInf neg
  else if (e10 + (Z.log2 m10 + 1) / 3 + 1 <? -400)%Z then FFinite neg 0 (-1074)
  else if (e10 <? 0)%Z then float_of_ratio neg m10 (10 ^ (- e10))
  else float_of_ratio neg (m10 * 10 ^ e10) 1.

(** ** JSON values, as [json.loads] builds them *)

Inductive json : Type :=
  | JNull
  | JBool (b : bool)
  | JInt (z : Z)
  | JFloat (x : float64)
  | JStr (s : string)
  | JList (l : list json)
  | JObject (d : list (string * json)).

(** ** Python dictionaries with string keys

    A [dict] keeps its keys in insertion order; assigning to a key that is
    already present keeps the key where it is and replaces the value. *)

Definition dict : Type := list (string * json).

Fixpoint dict_get (d : dict) (k : string) : option json :=
  match d with
  | [] => None
  | (k', v) :: d' => if String.eqb k' k then Some v else dict_get d' k
  end.

(** [d[k] = v] *)
Fixpoint dict_set (d : dict) (k : string) (v : json) : dict :=
  match d with
  | [] => [(k, v)]
  | (k', v') :: d' =>
      if String.eqb k' k then (k', v) :: d' else (k', v') :: dict_set d' k v
  end.

(** [d.update(e)], which is also what [{**d, **e}] does to the dictionary
    under construction. *)
Definition dict_update (d e : dict) : dict :=
  fold_left (fun acc kv => dict_set acc kv.1 kv.2) e d.

Definition dict_keys (d : dict) : list string := map fst d.

(** [d.get(k, default)] *)
Definition dict_get_default (d : dict) (k : string) (default : json) : json :=
  match dict_get d k with
  | Some v => v
  | None => default
  end.

(** ** Dynamic operations on JSON values *)

(** [v[k]] with a string [k]: only a dictionary accepts a string subscript. *)
Definition subscript (v : json) (k : string) : result json :=
  match v with
  | JObject d =>
      match dict_get d k with
      | Some x => Ok x
      | None => Raise (KeyError k)
      end
  | _ => Raise TypeError
  end.

(** The one-character strings a string is iterated into, one per byte of
    the model; the script only ever counts them and rejects each of them as
    an item. *)
Fixpoint chars (s : string) : list json :=
  match s with
  | EmptyString => []
  | String c s' => JStr (String c EmptyString) :: chars s'
  end.

(** [iter(v)]: a list yields its elements, a dictionary its keys, a string
    its characters; the other values are not iterable. *)
Definition py_iter (v : json) : result (list json) :=
  match v with
  | JList l => Ok l
  | JObject d => Ok (map JStr (dict_keys d))
  | JStr s => Ok (chars s)
  | _ => Raise TypeError
  end.

(** [**v] inside a dictionary display: [v] must be a mapping. *)
Definition as_mapping (v : json) : result dict :=
  match v with
  | JObject d => Ok d
  | _ => Raise TypeError
  end.

(** [v.get(k, default)]: only a dictionary has a [get] method. *)
Definition method_get (v : json) (k : string) (default : json) : result json :=
  match v with
  | JObject d => Ok (dict_get_default d k default)
  | _ => Raise AttributeError
  end.

(** ** The script's mutable state

    [M S A] is a computation that reads and writes a state [S] and either
    returns an [A] or raises.  The state is returned in both cases: what
    Python has mutated before an exception stays mutated. *)

Definition M (S A : Type) : Type := S → result A * S.

#[global] Instance M_ret {S} : MRet (M S) := fun A a s => (Ok a, s).
#[global] Instance M_bind {S} : MBind (M S) := fun A B f m s =>
  match m s with
  | (Ok a, s') => f a s'
  | (Raise e, s') => (Raise e, s')
  end.

Definition lift {S A} (r : result A) : M S A := fun s => (r, s).
Definition get_state {S} : M S S := fun s => (Ok s, s).
Definition put_state {S} (s : S) : M S () := fun _ => (Ok (), s).

(** [for x in l: body(x)] *)
Fixpoint for_each {S A} (body : A → M S ()) (l : list A) : M S () :=
  match l with
  | [] => mret ()
  | x :: l' => body x ;; for_each body l'
  end.

Fixpoint enumerate_from {A} (i : nat) (l : list A) : list (nat * A) :=
  match l with
  | [] => []
  | x :: l' => (i, x) :: enumerate_from (S i) l'
  end.

(** [enumerate(l)] *)
Definition enumerate {A} (l : list A) : list (nat * A) := enumerate_from 0 l.

(** ** Merge engine (app.py, lines 197-231)

    The state is the list [rows].  Every row is a dictionary of its own,
    built by a dictionary display, and the values stored in it are never
    mutated afterwards, so a list of dictionaries updated by position has
    the same behaviour as Python's list of references. *)

Abbreviation rows_t := (list dict).

(** [rows.append(r)] *)
Definition append_row (r : dict) : M rows_t () :=
  fun rows => (Ok (), rows ++ [r]).

(** [rows[i][k] = v] *)
Definition set_field (i : nat) (k : string) (v : json) : M rows_t () :=
  fun rows =>
    match rows !! i with
    | Some r => (Ok (), <[i := dict_set r k v]> rows)
    | None => (Raise IndexError, rows)
    end.

(** The dictionary display of lines 202-211 once [header] and [item] are
    known to be dictionaries: the keys of [h], then those of [it], then the
    six placeholders, each assignment as [dict_set] makes it. *)
Definition merged_row_dict (h it : dict) : dict :=
  let d := dict_update [] h in
  let d := dict_update d it in
  let d := dict_set d "GRN no" (JStr "") in
  let d := dict_set d "GRN Date" (JStr "") in
  let d := dict_set d "Delivered Qty" (JStr "") in
  let d := dict_set d "Remarks" (JStr "") in
  let d := dict_set d "MRN no" (JStr "") in
  let d := dict_set d "Rejected Amount" (JStr "") in
  d.

(** [{**header, **item, "GRN no": "", ..., "Rejected Amount": ""}] *)
Definition merged_row (header item : json) : result dict :=
  h ← as_mapping header;
  it ← as_mapping item;
  mret (merged_row_dict h it).

(** Lines 197-211. *)
Definition seed_rows (po_data : json) : M rows_t () :=
  header ← lift (subscript po_data "header");
  po_items ← lift (subscript po_data "items");
  put_state [];;
  items ← lift (py_iter po_items);
  for_each (fun item => r ← lift (merged_row header item); append_row r) items.

(** Body of the loop of lines 217-222. *)
Definition grn_body (grn_data : json) (ix : nat * json) : M rows_t () :=
  let '(i, item) := ix in
  rows ← get_state;
  if bool_decide (i < length rows)%nat then
    h ← lift (subscript grn_data "header");
    v ← lift (subscript h "GRN no");
    set_field i "GRN no" v;;
    h ← lift (subscript grn_data "header");
    v ← lift (subscript h "GRN Date");
    set_field i "GRN Date" v;;
    v ← lift (method_get item "Delivered Qty" (JStr ""));
    set_field i "Delivered Qty" v;;
    v ← lift (method_get item "Remarks" (JStr ""));
    set_field i "Remarks" v
  else mret ().

(** Lines 217-222. *)
Definition overlay_grn (grn_data : json) : M rows_t () :=
  grn_items ← lift (subscript grn_data "items");
  items ← lift (py_iter grn_items);
  for_each (grn_body grn_data) (enumerate items).

(** Body of the loop of lines 228-231. *)
Definition mrn_body (mrn_data : json) (ix : nat * json) : M rows_t () :=
  let '(i, item) := ix in
  rows ← get_state;
  if bool_decide (i < length rows)%nat then
    h ← lift (subscript mrn_data "header");
    v ← lift (subscript h "MRN no");
    set_field i "MRN no" v;;
    v ← lift (method_get item "Rejected Amount" (JStr ""));
    set_field i "Rejected Amount" v
  else mret ().

(** Lines 228-231. *)
Definition overlay_mrn (mrn_data : json) : M rows_t () :=
  mrn_items ← lift (subscript mrn_data "items");
  items ← lift (py_iter mrn_items);
  for_each (mrn_body mrn_data) (enumerate items).

(** The merge engine on three decoded extraction results, started on any
    previous content of [rows]. *)
Definition merge (po_data grn_data mrn_data : json) : M rows_t () :=
  seed_rows po_data;;
  overlay_grn grn_data;;
  overlay_mrn mrn_data.

Definition run_merge (po_data grn_data mrn_data : json) : result () * rows_t :=
  merge po_data grn_data mrn_data [].

(** ** Text utilities *)

Definition nl : string := String "010" "".
Definition dquote : string := String "034" "".

(** [s.find(c)] for a one-character [c]: lowest index, or -1. *)
Fixpoint find_from (c : ascii) (s : string) (i : Z) : Z :=
  match s with
  | EmptyString => (-1)%Z
  | String c' s' => if Ascii.eqb c' c then i else find_from c s' (i + 1)%Z
  end.
Definition find (s : string) (c : ascii) : Z := find_from c s 0%Z.

(** [s.rfind(c)] for a one-character [c]: highest index, or -1. *)
Fixpoint rfind_from (c : ascii) (s : string) (i last : Z) : Z :=
  match s with
  | EmptyString => last
  | String c' s' =>
      rfind_from c s' (i + 1)%Z (if Ascii.eqb c' c then i else last)
  end.
Definition rfind (s : string) (c : ascii) : Z := rfind_from c s 0%Z (-1)%Z.

(** How a slice bound is brought into [0, len]: a negative bound counts
    from the end. *)
Definition clamp_index (len i : Z) : Z :=
  if (i <? 0)%Z then Z.max 0 (len + i) else Z.min i len.

(** [s[start:stop]] *)
Definition py_slice (s : string) (start stop : Z) : string :=
  let len := Z.of_nat (String.length s) in
  let lo := clamp_index len start in
  let hi := clamp_index len stop in
  if (lo <? hi)%Z then String.substring (Z.to_nat lo) (Z.to_nat (hi - lo)) s
  else "".

(** [needle in s] for a one-character needle. *)
Fixpoint has_char (c : ascii) (s : string) : bool :=
  match s with
  | EmptyString => false
  | String c' s' => Ascii.eqb c' c || has_char c s'
  end.

Fixpoint is_prefix (p s : string) : bool :=
  match p, s with
  | EmptyString, _ => true
  | String a p', String b s' => Ascii.eqb a b && is_prefix p' s'
  | String _ _, EmptyString => false
  end.

(** [needle in s] *)
Fixpoint contains (needle s : string) : bool :=
  is_prefix needle s ||
  match s with
  | EmptyString => false
  | String _ s' => contains needle s'
  end.

Definition Substring (needle s : string) : Prop :=
  ∃ pre post, s = pre +:+ needle +:+ post.

Definition join_lines (ls : list string) : string :=
  fold_right (fun l acc => l +:+ nl +:+ acc) "" ls.

(** ** [json.loads]

    The decoder of Python's standard library, modelled from its grammar:
    RFC 8259 values, the constants [NaN], [Infinity] and [-Infinity],
    strict strings (no raw control character), the last value winning for
    a repeated key.

    Two limits of the interpreter reach the decoder.  An integer
    literal of more digits than [sys.get_int_max_str_digits()] raises
    [ValueError] where the scanner meets it, so also in a text that is
    malformed further on; 0 means no limit.  And the decoder raises
    [RecursionError] when it runs out of the recursion the interpreter
    has left: every object or array it enters takes a level, and so do
    other calls it makes (looking up one of the three constants, building
    a decoding error).  On which texts that happens depends on the
    recursion limit, on how deep the call stack is where [json.loads] is
    called and on the version of CPython: [recursion_exhausted] says for
    every text whether it does.

    The recursion of the model itself is bounded by [fuel]; running out
    of it is reported apart from every error of Python, and
    [decode_fuel_enough] below shows that it does not happen. *)

Record py_limits : Type := {
  recursion_exhausted : string → bool;
  int_max_str_digits : nat
}.

Inductive pres (A : Type) : Type :=
  | POk (a : A) (rest : string)
  | PErr
  | PFuel
  | PRaise (e : pyerr).
Arguments POk {A} a rest.
Arguments PErr {A}.
Arguments PFuel {A}.
Arguments PRaise {A} e.

Definition pmap {A B} (f : A → B) (r : pres A) : pres B :=
  match r with
  | POk a rest => POk (f a) rest
  | PErr => PErr
  | PFuel => PFuel
  | PRaise e => PRaise e
  end.

Definition is_ws (c : ascii) : bool :=
  match c with
  | " "%char | "009"%char | "010"%char | "013"%char => true
  | _ => false
  end.

Fixpoint skip_ws (s : string) : string :=
  match s with
  | EmptyString => ""
  | String c s' => if is_ws c then skip_ws s' else s
  end.

Definition is_digit (c : ascii) : bool :=
  let n := N_of_ascii c in (48 <=? n)%N && (n <=? 57)%N.

Definition hex_val (c : ascii) : option N :=
  let n := N_of_ascii c in
  if (48 <=? n)%N && (n <=? 57)%N then Some (n - 48)%N
  else if (97 <=? n)%N && (n <=? 102)%N then Some (n - 87)%N
  else if (65 <=? n)%N && (n <=? 70)%N then Some (n - 55)%N
  else None.

Definition hex4 (a b c d : ascii) : option N :=
  x ← hex_val a; y ← hex_val b; z ← hex_val c; w ← hex_val d;
  Some (((x * 16 + y) * 16 + z) * 16 + w)%N.

(** What a string literal is made of: a character copied from the input,
    or the 16-bit unit of a [\uXXXX] escape. *)
Inductive cunit : Type :=
  | UByte (c : ascii)
  | U16 (n : N).

Definition byte_of_N (n : N) : ascii := ascii_of_N n.

(** UTF-8 encoding of a code point; a lone surrogate is encoded like any
    other three-byte code point. *)
Definition utf8_encode (cp : N) : string :=
  if (cp <? 128)%N then String (byte_of_N cp) ""
  else if (cp <? 2048)%N then
    String (byte_of_N (192 + cp / 64))
      (String (byte_of_N (128 + cp mod 64)) "")
  else if (cp <? 65536)%N then
    String (byte_of_N (224 + cp / 4096))
      (String (byte_of_N (128 + (cp / 64) mod 64))
         (String (byte_of_N (128 + cp mod 64)) ""))
  else
    String (byte_of_N (240 + cp / 262144))
      (String (byte_of_N (128 + (cp / 4096) mod 64))
         (String (byte_of_N (128 + (cp / 64) mod 64))
            (String (byte_of_N (128 + cp mod 64)) ""))).

Definition is_high_surrogate (n : N) : bool := (55296 <=? n)%N && (n <=? 56319)%N.
Definition is_low_surrogate (n : N) : bool := (56320 <=? n)%N && (n <=? 57343)%N.

(** Two adjacent escapes forming a surrogate pair give one code point. *)
Fixpoint units_to_string (us : list cunit) : string :=
  match us with
  | [] => ""
  | UByte c :: r => String c (units_to_string r)
  | U16 hi :: r =>
      match r with
      | U16 lo :: r' =>
          if is_high_surrogate hi && is_low_surrogate lo
          then utf8_encode (65536 + (hi - 55296) * 1024 + (lo - 56320))%N
                 +:+ units_to_string r'
          else utf8_encode hi +:+ units_to_string r
      | _ => utf8_encode hi +:+ units_to_string r
      end
  end.

Definition pcons {A} (a : A) (r : pres (list A)) : pres (list A) :=
  pmap (cons a) r.

(** The character a one-letter escape stands for. *)
Definition escape_char (e : ascii) : option ascii :=
  match e with
  | "034"%char | "\"%char | "/"%char => Some e
  | "b"%char => Some "008"%char
  | "f"%char => Some "012"%char
  | "n"%char => Some "010"%char
  | "r"%char => Some "013"%char
  | "t"%char => Some "009"%char
  | _ => None
  end.

(** The body of a string literal, after its opening quote. *)
Fixpoint scan_units (s : string) : pres (list cunit) :=
  match s with
  | EmptyString => PErr
  | String c s' =>
      if Ascii.eqb c "034" then POk [] s'
      else if Ascii.eqb c "\" then
        match s' with
        | EmptyString => PErr
        | String e s'' =>
            if Ascii.eqb e "u" then
              match s'' with
              | String h1 (String h2 (String h3 (String h4 rest))) =>
                  match hex4 h1 h2 h3 h4 with
                  | Some n => pcons (U16 n) (scan_units rest)
                  | None => PErr
                  end
              | _ => PErr
              end
            else
              match escape_char e with
              | Some b => pcons (UByte b) (scan_units s'')
              | None => PErr
              end
        end
      else if (N_of_ascii c <? 32)%N then PErr
      else pcons (UByte c) (scan_units s')
  end.

Definition scanstring (s : string) : pres string :=
  pmap units_to_string (scan_units s).

(** The longest prefix of digits, and what follows it. *)
Fixpoint span_digits (s : string) : string * string :=
  match s with
  | String c s' =>
      if is_digit c then
        let '(ds, rest) := span_digits s' in (String c ds, rest)
      else ("", s)
  | EmptyString => ("", "")
  end.

Fixpoint digits_value (ds : string) (acc : N) : N :=
  match ds with
  | EmptyString => acc
  | String c ds' => digits_value ds' (acc * 10 + (N_of_ascii c - 48))%N
  end.

Definition scan_sign (s : string) : bool * string :=
  match s with
  | String c s' => if Ascii.eqb c "-" then (true, s') else (false, s)
  | EmptyString => (false, s)
  end.

(** A single zero, or a non-zero digit and any digits. *)
Definition scan_int (s : string) : option (string * string) :=
  match s with
  | String c s' =>
      if is_digit c then
        if Ascii.eqb c "0" then Some (String c "", s')
        else let '(ds, r) := span_digits s' in Some (String c ds, r)
      else None
  | EmptyString => None
  end.

(** Optionally a dot and at least one digit. *)
Definition scan_frac (s : string) : string * string :=
  match s with
  | String c t =>
      if Ascii.eqb c "." then
        let '(ds, r) := span_digits t in
        match ds with
        | EmptyString => ("", s)
        | _ => ("." +:+ ds, r)
        end
      else ("", s)
  | EmptyString => ("", s)
  end.

(** Optionally [e] or [E], an optional sign and at least one digit. *)
Definition scan_exp (s : string) : string * string :=
  match s with
  | String e t =>
      if Ascii.eqb e "e" || Ascii.eqb e "E" then
        let '(sign, t') :=
          match t with
          | String g u =>
              if Ascii.eqb g "+" || Ascii.eqb g "-" then (String g "", u)
              else ("", t)
          | EmptyString => ("", t)
          end in
        let '(ds, r) := span_digits t' in
        match ds with
        | EmptyString => ("", s)
        | _ => (String e "" +:+ sign +:+ ds, r)
        end
      else ("", s)
  | EmptyString => ("", s)
  end.

(** The digits of a fraction [.ddd], and the value of an exponent
    [e+dd], [e-dd] or [edd]; nothing stands for no fraction and for the
    exponent 0. *)
Definition frac_digits (frac : string) : string :=
  match frac with
  | String _ ds => ds
  | EmptyString => ""
  end.

Definition exp_value (exp : string) : Z :=
  match exp with
  | String _ (String g ds) =>
      if Ascii.eqb g "-" then (- Z.of_N (digits_value ds 0))%Z
      else if Ascii.eqb g "+" then Z.of_N (digits_value ds 0)
      else Z.of_N (digits_value (String g ds) 0)
  | _ => 0%Z
  end.

(** [int(digits)] under the limit on the digits of an integer. *)
Definition over_digit_limit (lim : py_limits) (digits : string) : bool :=
  match int_max_str_digits lim with
  | O => false
  | S _ => bool_decide (int_max_str_digits lim < String.length digits)%nat
  end.

(** A number, matched as a prefix: sign, integer part, fraction,
    exponent.  With neither fraction nor exponent it is an integer,
    otherwise the float nearest to what is written.  [None] when the
    text does not start with a number. *)
Definition scan_number (lim : py_limits) (s : string) : option (pres json) :=
  let '(neg, s1) := scan_sign s in
  match scan_int s1 with
  | None => None
  | Some (int_digits, r1) =>
      let '(frac, r2) := scan_frac r1 in
      let '(exp, r3) := scan_exp r2 in
      match frac, exp with
      | EmptyString, EmptyString =>
          if over_digit_limit lim int_digits then Some (PRaise ValueError)
          else
            let n := Z.of_N (digits_value int_digits 0) in
            Some (POk (JInt (if neg then (- n)%Z else n)) r3)
      | _, _ =>
          let ds := frac_digits frac in
          let m10 := Z.of_N (digits_value (int_digits +:+ ds) 0) in
          let e10 := (exp_value exp - Z.of_nat (String.length ds))%Z in
          Some (POk (JFloat (float_of_decimal neg m10 e10)) r3)
      end
  end.

Fixpoint strip_prefix (p s : string) : option string :=
  match p, s with
  | EmptyString, _ => Some s
  | String a p', String b s' => if Ascii.eqb a b then strip_prefix p' s' else None
  | String _ _, EmptyString => None
  end.

(** The scanner's cases that enter no object or array: literals, numbers
    and constants, in the order the scanner tries them. *)
Definition scan_atom (lim : py_limits) (s : string) : pres json :=
  match strip_prefix "null" s with
  | Some r => POk JNull r
  | None =>
  match strip_prefix "true" s with
  | Some r => POk (JBool true) r
  | None =>
  match strip_prefix "false" s with
  | Some r => POk (JBool false) r
  | None =>
  match scan_number lim s with
  | Some r => r
  | None =>
  match strip_prefix "NaN" s with
  | Some r => POk (JFloat FNaN) r
  | None =>
  match strip_prefix "Infinity" s with
  | Some r => POk (JFloat (FInf false)) r
  | None =>
  match strip_prefix "-Infinity" s with
  | Some r => POk (JFloat (FInf true)) r
  | None => PErr
  end end end end end end end.

Fixpoint scan_once (lim : py_limits) (fuel : nat) (s : string) : pres json :=
  match fuel with
  | O => PFuel
  | S fuel' =>
      match s with
      | EmptyString => PErr
      | String c s' =>
          if Ascii.eqb c "034" then pmap JStr (scanstring s')
          else if Ascii.eqb c "{" then
            match skip_ws s' with
            | EmptyString => PErr
            | String c1 r =>
                if Ascii.eqb c1 "}" then POk (JObject []) r
                else if Ascii.eqb c1 "034"
                then pmap JObject (scan_members lim fuel' r [])
                else PErr
            end
          else if Ascii.eqb c "[" then
            match skip_ws s' with
            | EmptyString => PErr
            | String c1 r =>
                if Ascii.eqb c1 "]" then POk (JList []) r
                else pmap JList (scan_elements lim fuel' (String c1 r))
            end
          else scan_atom lim s
      end
  end

(** Members of an object; [s] starts after the opening quote of a key. *)
with scan_members (lim : py_limits) (fuel : nat) (s : string) (acc : dict)
  : pres dict :=
  match fuel with
  | O => PFuel
  | S fuel' =>
      match scanstring s with
      | POk key r1 =>
          match skip_ws r1 with
          | EmptyString => PErr
          | String c2 r2 =>
              if Ascii.eqb c2 ":" then
                match scan_once lim fuel' (skip_ws r2) with
                | POk value r3 =>
                    let acc' := dict_set acc key value in
                    match skip_ws r3 with
                    | EmptyString => PErr
                    | String c4 r4 =>
                        if Ascii.eqb c4 "}" then POk acc' r4
                        else if Ascii.eqb c4 "," then
                          match skip_ws r4 with
                          | EmptyString => PErr
                          | String c5 r5 =>
                              if Ascii.eqb c5 "034"
                              then scan_members lim fuel' r5 acc'
                              else PErr
                          end
                        else PErr
                    end
                | PErr => PErr
                | PFuel => PFuel
                | PRaise e => PRaise e
                end
              else PErr
          end
      | PErr => PErr
      | PFuel => PFuel
      | PRaise e => PRaise e
      end
  end

(** Elements of an array; [s] starts at the first character of a value. *)
with scan_elements (lim : py_limits) (fuel : nat) (s : string)
  : pres (list json) :=
  match fuel with
  | O => PFuel
  | S fuel' =>
      match scan_once lim fuel' s with
      | POk value r1 =>
          match skip_ws r1 with
          | EmptyString => PErr
          | String c2 r2 =>
              if Ascii.eqb c2 "]" then POk [value] r2
              else if Ascii.eqb c2 "," then
                pcons value (scan_elements lim fuel' (skip_ws r2))
              else PErr
          end
      | PErr => PErr
      | PFuel => PFuel
      | PRaise e => PRaise e
      end
  end.

(** Every call of the scanner spends one unit of fuel, and two calls in a
    row consume at least one character. *)
Definition loads_fuel (s : string) : nat := 2 * String.length s + 2.

Inductive loads_outcome : Type :=
  | Decoded (v : json)
  | DecodeError
  | Raised (e : pyerr)
  | OutOfFuel.

Definition decode (lim : py_limits) (s : string) : loads_outcome :=
  match scan_once lim (loads_fuel s) (skip_ws s) with
  | POk v rest =>
      match skip_ws rest with
      | EmptyString => Decoded v
      | _ => DecodeError
      end
  | PErr => DecodeError
  | PFuel => OutOfFuel
  | PRaise e => Raised e
  end.

(** [json.loads(s)] under the limits [lim] of the interpreter. *)
Definition json_loads (lim : py_limits) (s : string) : result json :=
  if recursion_exhausted lim s then Raise RecursionError
  else
    match decode lim s with
    | Decoded v => Ok v
    | DecodeError => Raise JSONDecodeError
    | Raised e => Raise e
    | OutOfFuel => Raise RecursionError
    end.

(** ** [json.dumps(v, indent=n)]

    Strings are written with [ensure_ascii]: everything outside the
    printable ASCII range becomes an escape.  A float is written as
    [float.__repr__] writes it: the shortest decimal that reads back as
    the same float.  The script applies [json.dumps] to its three schemas
    only. *)

Definition hex_digit (n : N) : ascii :=
  if (n <? 10)%N then ascii_of_N (48 + n) else ascii_of_N (87 + n).

Definition escape_unit (n : N) : string :=
  "\u" +:+ String (hex_digit (n / 4096))
            (String (hex_digit ((n / 256) mod 16))
               (String (hex_digit ((n / 16) mod 16))
                  (String (hex_digit (n mod 16)) ""))).

Definition escape_code_point (cp : N) : string :=
  match cp with
  | 34%N => "\" +:+ dquote
  | 92%N => "\\"
  | 8%N => "\b"
  | 12%N => "\f"
  | 10%N => "\n"
  | 13%N => "\r"
  | 9%N => "\t"
  | _ =>
      if (32 <=? cp)%N && (cp <=? 126)%N then String (ascii_of_N cp) ""
      else if (cp <? 65536)%N then escape_unit cp
      else
        let v := (cp - 65536)%N in
        escape_unit (55296 + v / 1024) +:+ escape_unit (56320 + v mod 1024)
  end.

Definition is_continuation (c : ascii) : bool :=
  let b := N_of_ascii c in (128 <=? b)%N && (b <? 192)%N.

Definition low6 (c : ascii) : N := (N_of_ascii c - 128)%N.

(** The code points of a UTF-8 text; a byte that starts no well-formed
    sequence (none occurs in the encoding of a Python string) is passed on
    as it is. *)
Fixpoint utf8_decode (s : string) : list N :=
  match s with
  | EmptyString => []
  | String c s' =>
      let b := N_of_ascii c in
      let single := b :: utf8_decode s' in
      if (b <? 192)%N then single
      else if (b <? 224)%N then
        match s' with
        | String c1 r =>
            if is_continuation c1
            then ((b - 192) * 64 + low6 c1)%N :: utf8_decode r
            else single
        | _ => single
        end
      else if (b <? 240)%N then
        match s' with
        | String c1 (String c2 r) =>
            if is_continuation c1 && is_continuation c2
            then (((b - 224) * 64 + low6 c1) * 64 + low6 c2)%N :: utf8_decode r
            else single
        | _ => single
        end
      else
        match s' with
        | String c1 (String c2 (String c3 r)) =>
            if is_continuation c1 && is_continuation c2 && is_continuation c3
            then ((((b - 240) * 64 + low6 c1) * 64 + low6 c2) * 64 + low6 c3)%N
                   :: utf8_decode r
            else single
        | _ => single
        end
  end.

Definition encode_string (s : string) : string :=
  dquote +:+ String.concat "" (map escape_code_point (utf8_decode s)) +:+ dquote.

Definition string_of_Z (z : Z) : string :=
  DecimalString.NilZero.string_of_int (Z.to_int z).

(** [v >= 10^k] for [v = m * 2^e]. *)
Definition at_least_pow10 (m e k : Z) : bool :=
  let p := if (e <? 0)%Z then m else (m * 2 ^ e)%Z in
  let q := if (e <? 0)%Z then (2 ^ (- e))%Z else 1%Z in
  if (k <? 0)%Z then (q <=? p * 10 ^ (- k))%Z else (q * 10 ^ k <=? p)%Z.

(** The [k] with [10^k <= m * 2^e < 10^(k+1)], for [m > 0]. *)
Definition decimal_exponent (m e : Z) : Z :=
  let k := (((Z.log2 m + e) * 30103) / 100000)%Z in
  let k := if at_least_pow10 m e k then k else (k - 1)%Z in
  let k := if at_least_pow10 m e k then k else (k - 1)%Z in
  let k := if at_least_pow10 m e (k + 1) then (k + 1)%Z else k in
  if at_least_pow10 m e (k + 1) then (k + 1)%Z else k.

(** The decimal of [n] significant digits nearest to [m * 2^e]: its
    digits as a number and the exponent [k] of its first digit. *)
Definition nearest_decimal (m e : Z) (n : Z) : Z * Z :=
  let k := decimal_exponent m e in
  let s := (k - n + 1)%Z in
  let p := if (e <? 0)%Z then m else (m * 2 ^ e)%Z in
  let q := if (e <? 0)%Z then (2 ^ (- e))%Z else 1%Z in
  let d := if (s <? 0)%Z then round_ratio (p * 10 ^ (- s)) q
           else round_ratio p (q * 10 ^ s) in
  if (d =? 10 ^ n)%Z then (10 ^ (n - 1), k + 1)%Z else (d, k).

(** The shortest decimal that reads back as the float, found by trying
    1, 2, ... digits; 17 always suffice. *)
Fixpoint shortest_from (m e : Z) (n : Z) (tries : nat) : Z * Z * Z :=
  let '(d, k) := nearest_decimal m e n in
  match tries with
  | O => (d, k, n)
  | S tries' =>
      match float_of_decimal false d (k - n + 1) with
      | FFinite _ m' e' =>
          if (m' =? m)%Z && (e' =? e)%Z then (d, k, n)
          else shortest_from m e (n + 1) tries'
      | _ => shortest_from m e (n + 1) tries'
      end
  end.

Definition shortest_decimal (m e : Z) : Z * Z * Z := shortest_from m e 1 16.

Fixpoint zeros (n : nat) : string :=
  match n with
  | O => ""
  | S n' => String "0" (zeros n')
  end.

Fixpoint take_string (n : nat) (s : string) : string :=
  match n, s with
  | S n', String c s' => String c (take_string n' s')
  | _, _ => ""
  end.

Fixpoint drop_string (n : nat) (s : string) : string :=
  match n, s with
  | S n', String _ s' => drop_string n' s'
  | _, _ => s
  end.

(** [repr(x)] of a positive finite float given by its shortest digits
    [ds] (no trailing zero) and the exponent [k] of the first digit. *)
Definition repr_digits (ds : string) (k : Z) : string :=
  let n := String.length ds in
  if (k <? -4)%Z || (16 <=? k)%Z then
    let mant := match ds with
                | String c "" => String c ""
                | String c rest => String c ("." +:+ rest)
                | EmptyString => ""
                end in
    let a := Z.abs k in
    mant +:+ "e" +:+ (if (k <? 0)%Z then "-" else "+")
         +:+ (if (a <? 10)%Z then "0" else "") +:+ string_of_Z a
  else if (k <? 0)%Z then
    "0." +:+ zeros (Z.to_nat (- k - 1)) +:+ ds
  else if (Z.of_nat n <=? k + 1)%Z then
    ds +:+ zeros (Z.to_nat (k + 1 - Z.of_nat n)) +:+ ".0"
  else
    take_string (Z.to_nat (k + 1)) ds +:+ "." +:+ drop_string (Z.to_nat (k + 1)) ds.

Fixpoint strip_zeros (d : Z) (fuel : nat) : Z :=
  match fuel with
  | O => d
  | S fuel' => if (d mod 10 =? 0)%Z then strip_zeros (d / 10) fuel' else d
  end.

(** [float.__repr__], with [json.dumps]'s names for the three values JSON
    has no literal for. *)
Definition float_repr (x : float64) : string :=
  match x with
  | FNaN => "NaN"
  | FInf false => "Infinity"
  | FInf true => "-Infinity"
  | FFinite neg m e =>
      (if neg then "-" else "") +:+
      (if (m =? 0)%Z then "0.0"
       else
         let '(d, k, _) := shortest_decimal m e in
         repr_digits (string_of_Z (strip_zeros d 17)) k)
  end.

Fixpoint spaces (n : nat) : string :=
  match n with
  | O => ""
  | S n' => String " " (spaces n')
  end.

Definition newline_indent (indent level : nat) : string :=
  nl +:+ spaces (indent * level).

Fixpoint dumps_at (indent level : nat) (v : json) : string :=
  match v with
  | JNull => "null"
  | JBool true => "true"
  | JBool false => "false"
  | JInt z => string_of_Z z
  | JFloat x => float_repr x
  | JStr s => encode_string s
  | JList [] => "[]"
  | JList l =>
      "[" +:+ newline_indent indent (S level)
        +:+ String.concat ("," +:+ newline_indent indent (S level))
              (map (dumps_at indent (S level)) l)
        +:+ newline_indent indent level +:+ "]"
  | JObject [] => "{}"
  | JObject d =>
      "{" +:+ newline_indent indent (S level)
        +:+ String.concat ("," +:+ newline_indent indent (S level))
              (map (fun '(k, x) =>
                      encode_string k +:+ ": " +:+ dumps_at indent (S level) x) d)
        +:+ newline_indent indent level +:+ "}"
  end.

Definition json_dumps (v : json) (indent : nat) : string := dumps_at indent 0 v.

(** ** Schemas and instructions (app.py, lines 52-127) *)

Definition po_schema : json :=
  JObject
    [("header", JObject
        [("CHAIN", JStr ""); ("SITE", JStr ""); ("STATE", JStr "");
         ("Vendor Code", JStr ""); ("vendor name", JStr "");
         ("po no", JStr ""); ("po date", JStr "");
         ("DELIVERY DATE", JStr "")]);
     ("items", JList
        [JObject
           [("Material Description", JStr ""); ("Quantity", JStr "");
            ("total pcs", JStr ""); ("Base Cost", JStr "");
            ("Total Base Value", JStr "")]])].

Definition po_instructions : string :=
  nl +:+ join_lines
    ["- Extract item-wise data exactly as visible";
     "- CHAIN is the company name written at the top";
     "- Base Cost MUST come only from the column labeled "
       +:+ dquote +:+ "Base Cost" +:+ dquote;
     "- Do NOT use MRP"].

Definition grn_schema : json :=
  JObject
    [("header", JObject [("GRN no", JStr ""); ("GRN Date", JStr "")]);
     ("items", JList
        [JObject [("Delivered Qty", JStr ""); ("Remarks", JStr "")]])].

Definition grn_instructions : string :=
  nl +:+ join_lines
    ["VERY IMPORTANT – FOLLOW EXACTLY:";
     "";
     "1. Delivered Qty MUST be taken from the column labeled "
       +:+ dquote +:+ "Accepted Qty / MRP" +:+ dquote;
     "2. This column has TWO values:";
     "   - TOP value = Accepted Quantity → USE THIS AS Delivered Qty";
     "   - BOTTOM value = MRP → IGNORE THIS COMPLETELY";
     "3. Remarks MUST be taken from the column labeled:";
     "   " +:+ dquote +:+ "Reason - Short Description" +:+ dquote;
     "4. Extract ONE item per table row";
     "5. Do NOT use Challan Qty";
     "6. Do NOT use Received Qty";
     "7. Do NOT use totals"].

Definition mrn_schema : json :=
  JObject
    [("header", JObject [("MRN no", JStr "")]);
     ("items", JList [JObject [("Rejected Amount", JStr "")]])].

Definition mrn_instructions : string :=
  nl +:+ join_lines
    ["- Extract Rejected Amount from MRN item table";
     "- Use the Total Amount for the rejected material";
     "- Do NOT infer or calculate values"].

(** The [if] / [elif] / [else] of lines 52-127. *)
Definition select_schema (pdf_type : string) : json * string :=
  if String.eqb pdf_type "PO" then (po_schema, po_instructions)
  else if String.eqb pdf_type "GRN" then (grn_schema, grn_instructions)
  else (mrn_schema, mrn_instructions).

(** ** Prompt (lines 129-144) *)

Definition role_statement (pdf_type : string) : string :=
  "You are an expert at reading Indian " +:+ pdf_type +:+ " PDFs.".

Definition delimited_text (pdf_text : string) : string :=
  "<<<" +:+ nl +:+ pdf_text +:+ nl +:+ ">>>".

Definition build_prompt (pdf_text pdf_type : string) : string :=
  let '(schema, instructions) := select_schema pdf_type in
  nl +:+ role_statement pdf_type +:+ nl
  +:+ nl
  +:+ instructions +:+ nl
  +:+ nl
  +:+ "Extract data EXACTLY as per the schema." +:+ nl
  +:+ "Return STRICT JSON ONLY." +:+ nl
  +:+ nl
  +:+ "Schema:" +:+ nl
  +:+ json_dumps schema 2 +:+ nl
  +:+ nl
  +:+ "PDF Text:" +:+ nl
  +:+ delimited_text pdf_text +:+ nl.

(** The field names a schema spells out: the keys of its header and of
    each of its item templates. *)
Definition object_keys (v : json) : list string :=
  match v with
  | JObject d => dict_keys d
  | _ => []
  end.

Definition schema_fields (schema : json) : list string :=
  match schema with
  | JObject d =>
      from_option object_keys [] (dict_get d "header")
      ++ match dict_get d "items" with
         | Some (JList l) => concat (map object_keys l)
         | _ => []
         end
  | _ => []
  end.

(** ** Response parser (lines 161-164) *)

Definition brace_slice (raw : string) : string :=
  let start := find raw "{" in
  let end_ := (rfind raw "}" + 1)%Z in
  py_slice raw start end_.

Definition parse_response (lim : py_limits) (raw : string) : result json :=
  json_loads lim (brace_slice raw).

(** ** Document loader (lines 40-47)

    An opened PDF is the list, in page order, of what
    [page.extract_text()] returns for each page: a text, possibly empty, or
    [None]. *)

Definition pdf : Type := list (option string).

(** [if txt:] *)
Definition truthy (txt : option string) : bool :=
  match txt with
  | Some (String _ _) => true
  | _ => false
  end.

Definition extract_pdf_text (pages : pdf) : string :=
  fold_left
    (fun text_all txt =>
       if truthy txt then text_all +:+ (default "" txt +:+ nl) else text_all)
    pages "".

(** The texts of the pages that yield one. *)
Definition page_texts (pages : pdf) : list string :=
  omap (fun txt => if truthy txt then txt else None) pages.

(** ** Tabular exporter (lines 233-242)

    [pandas] and [openpyxl] are outside the repository.  The data frame is
    modelled by its column labels and its rows of cells, and the
    spreadsheet buffer by the grid of typed cells of its single sheet. *)

Record DataFrame : Type := {
  columns : list string;
  cells : list (list (option json))
}.

Definition add_key (cols : list string) (k : string) : list string :=
  if bool_decide (k ∈ cols) then cols else cols ++ [k].

(** [pd.DataFrame(rows)] for a list of dictionaries: the columns are the
    keys in the order they are first seen, and a row lacking a key has a
    missing value there. *)
Definition pd_DataFrame (rows : rows_t) : DataFrame :=
  let cols := fold_left (fun cols r => fold_left add_key (dict_keys r) cols) rows [] in
  {| columns := cols; cells := map (fun r => map (dict_get r) cols) rows |}.

Inductive cell : Type :=
  | CString (s : string)
  | CInt (z : Z)
  | CFloat (x : float64)
  | CBool (b : bool)
  | CFormula (text : string)
  | CError (code : string)
  | CBlank.

Definition sheet : Type := list (list cell).

Definition printable_ascii (c : ascii) : bool :=
  (32 <=? N_of_ascii c)%N && (N_of_ascii c <=? 126)%N.

Fixpoint all_printable (s : string) : bool :=
  match s with
  | EmptyString => true
  | String c s' => printable_ascii c && all_printable s'
  end.

(** A text that [openpyxl] stores as it is in a cell of type string:
    printable ASCII, not empty (an empty text is written as a cell
    without a value), at most 32767 characters (a longer text is cut),
    and starting with neither [=] (stored as a formula) nor [#] (which
    starts the error codes). *)
Definition plain_text (s : string) : bool :=
  match s with
  | EmptyString => false
  | String c _ =>
      negb (Ascii.eqb c "=") && negb (Ascii.eqb c "#") && all_printable s
      && (N.of_nat (String.length s) <=? 32767)%N
  end.

(** The cell written for a value of a frame all of whose values are plain
    texts, empty texts, [None] or missing: the last three are missing or
    empty for [pandas], which writes them as the empty text, and
    [openpyxl] leaves such a cell without a value. *)
Definition plain_cell (v : option json) : option cell :=
  match v with
  | None | Some JNull => Some CBlank
  | Some (JStr s) =>
      match s with
      | EmptyString => Some CBlank
      | _ => if plain_text s then Some (CString s) else None
      end
  | Some _ => None
  end.

(** The sheet of a frame of plain texts with at least one column and
    within the size of a sheet: the header row of column labels, then
    one row per row of the frame, and no index column.  [None] for every
    other frame. *)
Definition write_plain (df : DataFrame) : option sheet :=
  if forallb plain_text (columns df)
     && (0 <? N.of_nat (length (columns df)))%N
     && (N.of_nat (length (columns df)) <=? 16384)%N
     && (N.of_nat (length (cells df)) <? 1048576)%N
  then
    body ← mapM (mapM plain_cell) (cells df);
    Some (map CString (columns df) :: body)
  else None.

(** [df.to_excel(buffer, index=..., engine="openpyxl")].  What is written
    for a frame of plain texts with [index=False], the case above, is
    modelled; for every other frame or with an index column (numbers and
    how [pandas] types their columns, nested values, texts that
    [openpyxl] cuts, refuses or stores as formulas) the outcome is the
    libraries', given by [lib]. *)
Definition to_excel (lib : DataFrame → bool → result sheet)
    (df : DataFrame) (index : bool) : result sheet :=
  match (if index then None else write_plain df) with
  | Some s => Ok s
  | None => lib df index
  end.








(** ** The "Process PDFs" button (lines 173-249)

    What the script does to the outside is recorded as a trace of events.
    What is outside the repository is a parameter: [pdf_open] is what
    [pdfplumber] makes of a file's bytes, [chat] is the text the inference
    service answers to a prompt, [limits] are the limits of the
    interpreter where the script calls [json.loads], and [excel] is what
    [pandas] and [openpyxl] write for the frames [to_excel] leaves to
    them; the three functions may raise. *)

Record world : Type := {
  pdf_open : string → result pdf;
  chat : string → result string;
  limits : py_limits;
  excel : DataFrame → bool → result sheet
}.

Inductive event : Type :=
  | StError (msg : string)
  | WriteFile (path content : string)
  | StSpinner (msg : string)
  | OpenPdf (path : string)
  | ChatRequest (prompt : string) (max_tokens temperature : Z)
  | StSuccess (msg : string)
  | StSubheader (msg : string)
  | StDataframe (df : DataFrame)
  | StDownloadButton (label : string) (data : sheet) (file_name mime : string).

Record script_state : Type := {
  trace : list event;
  rows : rows_t
}.

Definition emit (e : event) : M script_state () :=
  fun st => (Ok (), {| trace := trace st ++ [e]; rows := rows st |}).

(** A computation on [rows] run inside the script. *)
Definition on_rows {A} (m : M rows_t A) : M script_state A :=
  fun st =>
    let '(r, rows') := m (rows st) in
    (r, {| trace := trace st; rows := rows' |}).

(** An upload slot is [None] until the user has put a file in it; an
    uploaded file object is truthy whatever it contains. *)
Definition upload : Type := option string.

Definition uploaded (f : upload) : bool :=
  match f with
  | Some _ => true
  | None => false
  end.

(** [file.read()] *)
Definition read_upload (f : upload) : result string :=
  match f with
  | Some content => Ok content
  | None => Raise AttributeError
  end.

(** [st.stop()] ends the run. *)
Definition st_stop {A} : M script_state A := lift (Raise StopException).

(** [extract_pdf_text(path)] on the file written at [path]. *)
Definition load_pdf_text (w : world) (path content : string) : M script_state string :=
  emit (OpenPdf path);;
  pages ← lift (pdf_open w content);
  mret (extract_pdf_text pages).

(** [extract_structured_data(pdf_text, pdf_type)], lines 50-164. *)
Definition extract_structured_data (w : world) (pdf_text pdf_type : string)
  : M script_state json :=
  let prompt := build_prompt pdf_text pdf_type in
  emit (ChatRequest prompt 4000 0);;
  raw ← lift (chat w prompt);
  lift (parse_response (limits w) raw).

Definition xlsx_mime : string :=
  "application/vnd.openxmlformats-officedocument.spreadsheetml.sheet".

Definition process_pdfs (w : world) (po_file grn_file mrn_file : upload)
  : M script_state () :=
  (if negb (uploaded po_file && uploaded grn_file && uploaded mrn_file)
   then emit (StError "Please upload PO, GRN and MRN PDFs");; st_stop
   else mret ());;
  po_bytes ← lift (read_upload po_file);
  emit (WriteFile "po.pdf" po_bytes);;
  grn_bytes ← lift (read_upload grn_file);
  emit (WriteFile "grn.pdf" grn_bytes);;
  mrn_bytes ← lift (read_upload mrn_file);
  emit (WriteFile "mrn.pdf" mrn_bytes);;
  emit (StSpinner "📄 Processing PO...");;
  po_text ← load_pdf_text w "po.pdf" po_bytes;
  po_data ← extract_structured_data w po_text "PO";
  on_rows (seed_rows po_data);;
  emit (StSpinner "📄 Processing GRN...");;
  grn_text ← load_pdf_text w "grn.pdf" grn_bytes;
  grn_data ← extract_structured_data w grn_text "GRN";
  on_rows (overlay_grn grn_data);;
  emit (StSpinner "📄 Processing MRN...");;
  mrn_text ← load_pdf_text w "mrn.pdf" mrn_bytes;
  mrn_data ← extract_structured_data w mrn_text "MRN";
  on_rows (overlay_mrn mrn_data);;
  rows_now ← on_rows get_state;
  let df := pd_DataFrame rows_now in
  emit (StSuccess "✅ Extraction Completed");;
  emit (StSubheader "📊 Extracted Data");;
  emit (StDataframe df);;
  buffer ← lift (to_excel (excel w) df false);
  emit (StDownloadButton "⬇️ Download Excel" buffer
          "Reliance_PO_GRN_MRN_Extracted.xlsx" xlsx_mime).

(** [if st.button("Process PDFs"): ...] *)
Definition on_button (clicked : bool) (w : world) (po_file grn_file mrn_file : upload)
  : M script_state () :=
  if clicked then process_pdfs w po_file grn_file mrn_file else mret ().

(** ** Vocabulary of the specification *)

Definition grn_fields : list string :=
  ["GRN no"; "GRN Date"; "Delivered Qty"; "Remarks"].

Definition mrn_fields : list string := ["MRN no"; "Rejected Amount"].

Definition placeholder_fields : list string := grn_fields ++ mrn_fields.

(** An extraction result: a mapping whose [header] is a mapping and whose
    [items] is a sequence of mappings.  Which keys the header and the items
    hold is not part of it. *)
Definition extraction_result (v : json) (header : dict) (items : list dict) : Prop :=
  subscript v "header" = Ok (JObject header)
  ∧ subscript v "items" = Ok (JList (map JObject items)).

(** The items an overlay loop runs over: [enumerate(data["items"])]. *)
Definition iterated_items (data : json) : result (list json) :=
  v ← subscript data "items"; py_iter v.

(** [r'] has the fields of [r], with the same values, except possibly for
    the fields named in [ks]. *)
Definition agree_outside (ks : list string) (r r' : dict) : Prop :=
  ∀ k, k ∉ ks → dict_get r' k = dict_get r k.

(** The four assignments of lines 219-222 on one row. *)
Definition grn_fill (gno gdate : json) (item row : dict) : dict :=
  let row := dict_set row "GRN no" gno in
  let row := dict_set row "GRN Date" gdate in
  let row := dict_set row "Delivered Qty" (dict_get_default item "Delivered Qty" (JStr "")) in
  dict_set row "Remarks" (dict_get_default item "Remarks" (JStr "")).

(** The two assignments of lines 230-231 on one row. *)
Definition mrn_fill (mno : json) (item row : dict) : dict :=
  let row := dict_set row "MRN no" mno in
  dict_set row "Rejected Amount" (dict_get_default item "Rejected Amount" (JStr "")).

(** Rows and items paired by position; what is left over on either side
    is not touched. *)
Fixpoint fill_rows {A} (f : A → dict → dict) (items : list A) (rows : rows_t) : rows_t :=
  match items, rows with
  | it :: items', r :: rows' => f it r :: fill_rows f items' rows'
  | _, _ => rows
  end.

(** The row holds under [k] what the item holds under [k], and the empty
    string when the item has no [k]. *)
Definition taken_from (item row : dict) (k : string) : Prop :=
  match dict_get item k with
  | Some v => dict_get row k = Some v
  | None => dict_get row k = Some (JStr "")
  end.

Definition grn_populated (gno gdate : json) (item row : dict) : Prop :=
  dict_get row "GRN no" = Some gno
  ∧ dict_get row "GRN Date" = Some gdate
  ∧ taken_from item row "Delivered Qty"
  ∧ taken_from item row "Remarks".

Definition grn_placeholders (row : dict) : Prop :=
  dict_get row "GRN no" = Some (JStr "")
  ∧ dict_get row "GRN Date" = Some (JStr "")
  ∧ dict_get row "Delivered Qty" = Some (JStr "")
  ∧ dict_get row "Remarks" = Some (JStr "").

Definition mrn_populated (mno : json) (item row : dict) : Prop :=
  dict_get row "MRN no" = Some mno
  ∧ taken_from item row "Rejected Amount".

(** A relation between the state before and after a computation that
    holds whatever the outcome. *)
Definition keeps {S A} (R : S → S → Prop) (m : M S A) : Prop :=
  ∀ s, R s (m s).2.

(** [rows'] has the rows of [rows], each with its fields unchanged except
    possibly those named in [ks], and unchanged altogether at a position
    outside [P]. *)
Definition rows_frame (ks : list string) (P : nat → Prop) (rows rows' : rows_t) : Prop :=
  length rows' = length rows
  ∧ ∀ j r, rows !! j = Some r →
      ∃ r', rows' !! j = Some r' ∧ agree_outside ks r r' ∧ (¬ P j → r' = r).

(** A dictionary as Python holds it: no key twice. *)
Definition dict_wf (d : dict) : Prop := NoDup (dict_keys d).

(** Every dictionary inside a value is as Python holds it. *)
Fixpoint json_wf (v : json) : Prop :=
  match v with
  | JList l => fold_right (λ x acc, json_wf x ∧ acc) True l
  | JObject d =>
      NoDup (map fst d) ∧ fold_right (λ '(_, x) acc, json_wf x ∧ acc) True d
  | _ => True
  end.

(** ** The end-to-end scenario of the specification *)

Definition ex_po : json :=
  JObject
    [("header", JObject [("po no", JStr "100")]);
     ("items", JList
        [JObject [("Material Description", JStr "Widget"); ("Quantity", JStr "5")]])].

Definition ex_grn : json :=
  JObject
    [("header", JObject [("GRN no", JStr "G1"); ("GRN Date", JStr "2024-01-01")]);
     ("items", JList [JObject [("Delivered Qty", JStr "5"); ("Remarks", JStr "OK")]])].

Definition ex_mrn : json :=
  JObject
    [("header", JObject [("MRN no", JStr "M1")]);
     ("items", JList [JObject [("Rejected Amount", JStr "0")]])].

(** In world [w], the document [bytes] of type [pdf_type] is opened as
    [pages], the prompt built from their text is answered by [raw], and
    [raw] decodes into [data]. *)
Definition answers (w : world) (bytes pdf_type : string)
    (pages : pdf) (raw : string) (data : json) : Prop :=
  pdf_open w bytes = Ok pages
  ∧ chat w (build_prompt (extract_pdf_text pages) pdf_type) = Ok raw
  ∧ parse_response (limits w) raw = Ok data.

Definition add_events (st : script_state) (evs : list event) : script_state :=
  {| trace := trace st ++ evs; rows := rows st |}.

(** Events of the result display and the spreadsheet export. *)
Definition is_export_event (e : event) : bool :=
  match e with
  | StSuccess _ | StSubheader _ | StDataframe _ | StDownloadButton _ _ _ _ => true
  | _ => false
  end.

(** An interpreter with the digit limit it starts with and with
    recursion left for every text. *)
Definition default_limits : py_limits :=
  {| recursion_exhausted := λ _, false; int_max_str_digits := 4300 |}.

(** Libraries that refuse every frame [to_excel] leaves to them. *)
Definition no_excel (df : DataFrame) (index : bool) : result sheet :=
  Raise ValueError.

(** A world that reads any file as one page of text and answers any
    prompt with the same text. *)
Definition constant_world (answer : string) : world :=
  {| pdf_open := λ _, Ok [Some "page"]; chat := λ _, Ok answer;
     limits := default_limits; excel := no_excel |}.

(** A model answer holding an empty header and one empty item. *)
Definition bare_answer : string :=
  "{" +:+ dquote +:+ "header" +:+ dquote +:+ ": {}, "
      +:+ dquote +:+ "items" +:+ dquote +:+ ": [{}]}".

(** A world in which the PO and GRN documents are answered as in the
    end-to-end scenario and the MRN document with [bare_answer]. *)
Definition bare_mrn_world : world :=
  {| pdf_open := λ _, Ok [Some "page"];
     chat := λ prompt,
       Ok (if contains "Indian PO PDFs" prompt then json_dumps ex_po 2
           else if contains "Indian GRN PDFs" prompt then json_dumps ex_grn 2
           else bare_answer) ;
     limits := default_limits; excel := no_excel |}.

(** A world for the end-to-end scenario: every file reads as one page and
    the service answers each prompt with the record of the document type
    the prompt names. *)
Definition scenario_world : world :=
  {| pdf_open := λ _, Ok [Some "page"];
     chat := λ prompt,
       Ok (if contains "Indian PO PDFs" prompt then json_dumps ex_po 2
           else if contains "Indian GRN PDFs" prompt then json_dumps ex_grn 2
           else json_dumps ex_mrn 2) ;
     limits := default_limits; excel := no_excel |}.

(** ** The script from its first line (lines 10-37 and 166-173)

    [st.secrets] is a mapping of sections; the section [oci] is looked up
    again for every value read from it.  The inference client is built
    from the configuration by the SDK, a parameter here: it gives the
    service the run talks to, or raises. *)

Record app_config : Type := {
  oci_config : dict;
  compartment_id : json;
  model_id : json;
  endpoint : json
}.

(** [st.secrets["oci"][k]] *)
Definition secret (secrets : dict) (k : string) : result json :=
  oci ← subscript (JObject secrets) "oci";
  subscript oci k.

(** The keys read from the section, in the order the script reads them. *)
Definition secret_keys : list string :=
  ["user"; "fingerprint"; "tenancy"; "region"; "private_key";
   "compartment_id"; "model_id"; "endpoint"].

(** Lines 20-30. *)
Definition load_config (secrets : dict) : result app_config :=
  user ← secret secrets "user";
  fingerprint ← secret secrets "fingerprint";
  tenancy ← secret secrets "tenancy";
  region ← secret secrets "region";
  key_content ← secret secrets "private_key";
  compartment ← secret secrets "compartment_id";
  model ← secret secrets "model_id";
  endp ← secret secrets "endpoint";
  Ok {| oci_config :=
          [("user", user); ("fingerprint", fingerprint); ("tenancy", tenancy);
           ("region", region); ("key_content", key_content)];
        compartment_id := compartment;
        model_id := model;
        endpoint := endp |}.

Inductive app_event : Type :=
  | SetPageConfig (page_title layout : string)
  | StTitle (text : string)
  | CreateClient (cfg : app_config) (connect_timeout read_timeout : Z)
  | FileUploader (label : string)
  | StButton (label : string)
  | Run (e : event).

Definition page (e : app_event) : M (list app_event) () :=
  fun tr => (Ok (), tr ++ [e]).

(** A part of the script that works on [rows] and emits run events; no
    row exists before the button is handled. *)
Definition run_script {A} (m : M script_state A) : M (list app_event) A :=
  fun tr =>
    let '(r, s') := m {| trace := []; rows := [] |} in
    (r, tr ++ map Run (trace s')).

Definition secrets_message : string :=
  "❌ OCI credentials not found. Please configure Streamlit Secrets.".

(** One execution of the script: the secrets, the SDK, what the three
    upload widgets hold and whether the button was pressed are its
    inputs.  [st_secrets] is what the first use of [st.secrets] finds:
    the mapping of the sections, or the error [streamlit] raises when it
    has no secrets to read, which the test of line 15 then raises. *)
Definition app_py (st_secrets : result dict) (connect : app_config → result world)
    (po_file grn_file mrn_file : upload) (clicked : bool)
  : M (list app_event) () :=
  page (SetPageConfig "PO-GRN-MRN Extractor" "wide");;
  page (StTitle "📄 PO / GRN / MRN Data Extraction");;
  secrets ← lift st_secrets;
  match dict_get secrets "oci" with
  | None => run_script (emit (StError secrets_message);; st_stop)
  | Some _ => mret ()
  end;;
  cfg ← lift (load_config secrets);
  page (CreateClient cfg 10 240);;
  w ← lift (connect cfg);
  run_script (emit (StSubheader "📤 Upload PDFs"));;
  page (FileUploader "Upload PO PDF");;
  page (FileUploader "Upload GRN PDF");;
  page (FileUploader "Upload MRN PDF");;
  page (StButton "🚀 Process PDFs");;
  run_script (on_button clicked w po_file grn_file mrn_file).

(** The events every execution shows before the secrets are looked at,
    and the widgets shown once the client is built. *)
Definition page_head : list app_event :=
  [SetPageConfig "PO-GRN-MRN Extractor" "wide";
   StTitle "📄 PO / GRN / MRN Data Extraction"].

Definition upload_widgets : list app_event :=
  [Run (StSubheader "📤 Upload PDFs");
   FileUploader "Upload PO PDF"; FileUploader "Upload GRN PDF";
   FileUploader "Upload MRN PDF"; StButton "🚀 Process PDFs"].

(** Rows that hold the fields named in [ks] keep their lists of keys. *)
Definition keys_kept (ks : list string) (rows rows' : rows_t) : Prop :=
  (∀ r, r ∈ rows → ks ⊆ dict_keys r) → map dict_keys rows' = map dict_keys rows.

(** A computation that raises nothing but errors in [P]. *)
Definition raises_only {S A} (P : pyerr → Prop) (m : M S A) : Prop :=
  ∀ s e, (m s).1 = Raise e → P e.

(** The errors of the merge engine: a subscript, an iteration or a
    dictionary display on a value of the wrong type, a [get] on a value
    that is not a mapping, or one of the five keys the engine subscripts
    with. *)
Definition merge_error (e : pyerr) : Prop :=
  e = TypeError ∨ e = AttributeError
  ∨ ∃ k, e = KeyError k ∧ k ∈ ["header"; "items"; "GRN no"; "GRN Date"; "MRN no"].

(** ** The order of a run

    What a run with three uploaded files does when nothing fails, step by
    step.  A step either fixes its event or leaves open what the world
    and the extracted data decide. *)
Inductive step : Type :=
  | Emits (e : event)
  | Asks (bytes pdf_type : string)
  | Shows
  | Offers.

Definition is_step (w : world) (s : step) (e : event) : Prop :=
  match s with
  | Emits e' => e = e'
  | Asks bytes pdf_type =>
      ∃ pages, pdf_open w bytes = Ok pages
        ∧ e = ChatRequest (build_prompt (extract_pdf_text pages) pdf_type) 4000 0
  | Shows => ∃ df, e = StDataframe df
  | Offers =>
      ∃ data, e = StDownloadButton "⬇️ Download Excel" data
                    "Reliance_PO_GRN_MRN_Extracted.xlsx" xlsx_mime
  end.

Definition process_steps (po grn mrn : string) : list step :=
  [Emits (WriteFile "po.pdf" po);
   Emits (WriteFile "grn.pdf" grn);
   Emits (WriteFile "mrn.pdf" mrn);
   Emits (StSpinner "📄 Processing PO...");
   Emits (OpenPdf "po.pdf");
   Asks po "PO";
   Emits (StSpinner "📄 Processing GRN...");
   Emits (OpenPdf "grn.pdf");
   Asks grn "GRN";
   Emits (StSpinner "📄 Processing MRN...");
   Emits (OpenPdf "mrn.pdf");
   Asks mrn "MRN";
   Emits (StSuccess "✅ Extraction Completed");
   Emits (StSubheader "📊 Extracted Data");
   Shows;
   Offers].

(** Secrets holding a complete [oci] section, and the configuration read
    from them. *)
Definition ex_secrets : dict :=
  [("oci", JObject [("user", JStr "u"); ("fingerprint", JStr "f");
                    ("tenancy", JStr "t"); ("region", JStr "r");
                    ("private_key", JStr "k"); ("compartment_id", JStr "c");
                    ("model_id", JStr "m"); ("endpoint", JStr "e")])].

Definition ex_config : app_config :=
  {| oci_config :=
       [("user", JStr "u"); ("fingerprint", JStr "f"); ("tenancy", JStr "t");
        ("region", JStr "r"); ("key_content", JStr "k")];
     compartment_id := JStr "c";
     model_id := JStr "m";
     endpoint := JStr "e" |}.

(** ** Texts with a long integer *)

(** What may follow the digits of an integer literal: nothing, or a
    character that continues neither the digits nor the number. *)
Definition ends_number (rest : string) : bool :=
  match rest with
  | EmptyString => true
  | String c _ =>
      negb (is_digit c) && negb (Ascii.eqb c ".") && negb (Ascii.eqb c "e")
      && negb (Ascii.eqb c "E")
  end.

(** The text [{"n":1], [n] zeros and [rest]. *)
Definition long_integer_text (n : nat) (rest : string) : string :=
  "{" +:+ dquote +:+ "n" +:+ dquote +:+ ":1" +:+ zeros n +:+ rest.

(** * Proofs *)

(** ** Dictionaries *)

Lemma dict_get_set_eq (d : dict) k v : dict_get (dict_set d k v) k = Some v.
Proof.
  induction d as [|[k' v'] d IH]; simpl.
  - by rewrite String.eqb_refl.
  - destruct (String.eqb k' k) eqn:E; simpl; by rewrite E.
Qed.

Lemma dict_get_set_ne (d : dict) k k' v :
  k ≠ k' → dict_get (dict_set d k v) k' = dict_get d k'.
Proof.
  intros Hne. induction d as [|[k0 v0] d IH]; simpl.
  - destruct (String.eqb k k') eqn:E; [|done].
    apply String.eqb_eq in E. done.
  - destruct (String.eqb k0 k) eqn:E; simpl.
    + apply String.eqb_eq in E. subst k0.
      destruct (String.eqb k k') eqn:E'; [|done].
      apply String.eqb_eq in E'. done.
    + by rewrite IH.
Qed.

Lemma agree_outside_refl ks r : agree_outside ks r r.
Proof. by intros k _. Qed.

Lemma agree_outside_trans ks r1 r2 r3 :
  agree_outside ks r1 r2 → agree_outside ks r2 r3 → agree_outside ks r1 r3.
Proof. intros H12 H23 k Hk. rewrite H23, H12; done. Qed.

Lemma agree_outside_set ks r k v : k ∈ ks → agree_outside ks r (dict_set r k v).
Proof.
  intros Hin k' Hk'. apply dict_get_set_ne. intros ->. done.
Qed.

Lemma agree_outside_mono ks ks' r r' :
  ks ⊆ ks' → agree_outside ks r r' → agree_outside ks' r r'.
Proof. intros Hsub H k Hk. apply H. intros Hin. apply Hk, Hsub, Hin. Qed.

(** ** The state monad *)

Lemma run_bind {S A B} (m : M S A) (f : A → M S B) s :
  (m ≫= f) s =
  match m s with
  | (Ok a, s') => f a s'
  | (Raise e, s') => (Raise e, s')
  end.
Proof. reflexivity. Qed.

Lemma run_lift_ok {S A B} (a : A) (f : A → M S B) s :
  (lift (Ok a) ≫= f) s = f a s.
Proof. reflexivity. Qed.

Lemma run_lift_raise {S A B} e (f : A → M S B) s :
  (lift (Raise e) ≫= f) s = (Raise e, s).
Proof. reflexivity. Qed.

Section Keeps.
Context {S : Type} (R : S → S → Prop).
Hypothesis R_refl : ∀ s, R s s.
Hypothesis R_trans : ∀ s1 s2 s3, R s1 s2 → R s2 s3 → R s1 s3.

Lemma keeps_ret {A} (a : A) : keeps R (mret a : M S A).
Proof. intros s. apply R_refl. Qed.

Lemma keeps_lift {A} (r : result A) : keeps R (lift r : M S A).
Proof. intros s. apply R_refl. Qed.

Lemma keeps_get : keeps R (get_state : M S S).
Proof. intros s. apply R_refl. Qed.

Lemma keeps_bind {A B} (m : M S A) (f : A → M S B) :
  keeps R m → (∀ a, keeps R (f a)) → keeps R (m ≫= f).
Proof.
  intros Hm Hf s. rewrite run_bind. specialize (Hm s).
  destruct (m s) as [[a|e] s']; simpl in *; [|done].
  eapply R_trans; [exact Hm|apply Hf].
Qed.

Lemma keeps_for_each {A} (body : A → M S ()) l :
  (∀ x, x ∈ l → keeps R (body x)) → keeps R (for_each body l).
Proof.
  induction l as [|x l IH]; intros Hb; simpl.
  - apply keeps_ret.
  - apply keeps_bind; [apply Hb; left|].
    intros _. apply IH. intros y Hy. apply Hb. by right.
Qed.
End Keeps.

(** ** Rows *)

Lemma rows_frame_refl ks P rows : rows_frame ks P rows rows.
Proof.
  split; [done|]. intros j r Hj. exists r.
  split; [done|]. split; [apply agree_outside_refl|done].
Qed.

Lemma rows_frame_trans ks P r1 r2 r3 :
  rows_frame ks P r1 r2 → rows_frame ks P r2 r3 → rows_frame ks P r1 r3.
Proof.
  intros [Hl12 H12] [Hl23 H23]. split; [congruence|].
  intros j r Hj.
  destruct (H12 j r Hj) as (r' & Hj' & Ha & Hp).
  destruct (H23 j r' Hj') as (r'' & Hj'' & Ha' & Hp').
  exists r''. split; [done|]. split.
  - eapply agree_outside_trans; eauto.
  - intros HP. rewrite (Hp' HP). by apply Hp.
Qed.

Lemma rows_frame_mono ks ks' (P P' : nat → Prop) rows rows' :
  ks ⊆ ks' → (∀ j, P j → P' j) →
  rows_frame ks P rows rows' → rows_frame ks' P' rows rows'.
Proof.
  intros Hks HP [Hl H]. split; [done|].
  intros j r Hj. destruct (H j r Hj) as (r' & Hj' & Ha & Hp).
  exists r'. split; [done|]. split.
  - eapply agree_outside_mono; eauto.
  - intros HnP. apply Hp. intros HPj. apply HnP, HP, HPj.
Qed.

Lemma keeps_mono {S A} (R R' : S → S → Prop) (m : M S A) :
  (∀ s s', R s s' → R' s s') → keeps R m → keeps R' m.
Proof. intros HR Hm s. apply HR, Hm. Qed.

Lemma set_field_frame ks i k v :
  k ∈ ks → keeps (rows_frame ks (eq i)) (set_field i k v).
Proof.
  intros Hk rows. unfold set_field.
  destruct (rows !! i) as [r|] eqn:Hi; simpl; [|apply rows_frame_refl].
  split; [apply length_insert|].
  intros j r0 Hj. destruct (decide (i = j)) as [->|Hne].
  - exists (dict_set r k v).
    rewrite list_lookup_insert_eq by (eapply lookup_lt_Some; eauto).
    split; [done|]. assert (r0 = r) as -> by congruence.
    split; [by apply agree_outside_set|]. intros Hn. by destruct Hn.
  - exists r0. rewrite list_lookup_insert_ne by done.
    split; [done|]. split; [apply agree_outside_refl|done].
Qed.

Ltac keeps_tac :=
  repeat first
    [ apply keeps_ret; apply rows_frame_refl
    | apply keeps_lift; apply rows_frame_refl
    | apply keeps_get; apply rows_frame_refl
    | apply set_field_frame; repeat constructor
    | apply keeps_bind; [apply rows_frame_trans | | intros ?]
    | case_bool_decide ].

Lemma grn_body_frame grn_data i item :
  keeps (rows_frame grn_fields (eq i)) (grn_body grn_data (i, item)).
Proof. unfold grn_body. keeps_tac. Qed.

Lemma mrn_body_frame mrn_data i item :
  keeps (rows_frame mrn_fields (eq i)) (mrn_body mrn_data (i, item)).
Proof. unfold mrn_body. keeps_tac. Qed.

Lemma elem_of_enumerate_from {A} (l : list A) i j x :
  (j, x) ∈ enumerate_from i l → i ≤ j < i + length l ∧ l !! (j - i) = Some x.
Proof.
  revert i. induction l as [|y l IH]; intros i; simpl.
  - intros H. by apply elem_of_nil in H.
  - intros [Heq|Hin]%elem_of_cons.
    + injection Heq as -> ->. split; [lia|]. by rewrite Nat.sub_diag.
    + destruct (IH _ Hin) as [Hr Hl]. split; [lia|].
      replace (j - i) with (S (j - S i)) by lia. done.
Qed.

Lemma overlay_loop_frame ks (body : nat * json → M rows_t ()) items :
  (∀ i item, keeps (rows_frame ks (eq i)) (body (i, item))) →
  keeps (rows_frame ks (λ j, j < length items)) (for_each body (enumerate items)).
Proof.
  intros Hb. apply keeps_for_each;
    [apply rows_frame_refl | apply rows_frame_trans |].
  intros [j item] Hin. apply elem_of_enumerate_from in Hin as [Hr _].
  eapply keeps_mono; [|apply Hb].
  intros s s'. apply rows_frame_mono; [done|]. intros ? <-. lia.
Qed.

(** ** Seeding *)

Lemma seed_loop header (items : list dict) acc :
  for_each (λ item, r ← lift (merged_row (JObject header) item); append_row r)
    (map JObject items) acc
  = (Ok (), acc ++ map (merged_row_dict header) items).
Proof.
  revert acc. induction items as [|it items IH]; intros acc; simpl.
  - by rewrite app_nil_r.
  - rewrite run_bind. simpl. unfold append_row at 1.
    rewrite IH. by rewrite <- app_assoc.
Qed.

Lemma seed_rows_ok po_data header items s :
  extraction_result po_data header items →
  seed_rows po_data s = (Ok (), map (merged_row_dict header) items).
Proof.
  intros [Hh Hi]. unfold seed_rows.
  rewrite Hh, run_lift_ok, Hi, run_lift_ok.
  rewrite run_bind. simpl. apply (seed_loop header items []).
Qed.

(** ** Overlay loops on well-formed data *)

Lemma grn_body_skip grn_data i item (rows : rows_t) :
  length rows ≤ i → grn_body grn_data (i, item) rows = (Ok (), rows).
Proof.
  intros Hle. unfold grn_body. rewrite run_bind. simpl.
  rewrite bool_decide_eq_false_2 by lia. done.
Qed.

Lemma mrn_body_skip mrn_data i item (rows : rows_t) :
  length rows ≤ i → mrn_body mrn_data (i, item) rows = (Ok (), rows).
Proof.
  intros Hle. unfold mrn_body. rewrite run_bind. simpl.
  rewrite bool_decide_eq_false_2 by lia. done.
Qed.

Lemma loop_skip (body : nat * json → M rows_t ()) items i (rows : rows_t) :
  (∀ j item, length rows ≤ j → body (j, item) rows = (Ok (), rows)) →
  length rows ≤ i →
  for_each body (enumerate_from i items) rows = (Ok (), rows).
Proof.
  intros Hskip. revert i. induction items as [|it items IH]; intros i Hle; simpl.
  - done.
  - rewrite run_bind, Hskip by done. apply IH. lia.
Qed.

Lemma set_field_ok (rows : rows_t) i k v r :
  rows !! i = Some r →
  set_field i k v rows = (Ok (), <[i := dict_set r k v]> rows).
Proof. intros Hi. unfold set_field. by rewrite Hi. Qed.

Lemma subscript_ok d k v : dict_get d k = Some v → subscript (JObject d) k = Ok v.
Proof. intros H. simpl. by rewrite H. Qed.

Lemma subscript_missing d k :
  dict_get d k = None → subscript (JObject d) k = Raise (KeyError k).
Proof. intros H. simpl. by rewrite H. Qed.

Lemma grn_body_ok grn_data hg gno gdate i item (rows : rows_t) r :
  subscript grn_data "header" = Ok (JObject hg) →
  dict_get hg "GRN no" = Some gno →
  dict_get hg "GRN Date" = Some gdate →
  rows !! i = Some r →
  grn_body grn_data (i, JObject item) rows
  = (Ok (), <[i := grn_fill gno gdate item r]> rows).
Proof.
  intros Hh Hno%subscript_ok Hdate%subscript_ok Hi.
  assert (i < length rows) as Hlt by (eapply lookup_lt_Some; eauto).
  unfold grn_body. rewrite run_bind. unfold get_state. cbv beta iota.
  rewrite bool_decide_eq_true_2 by done.
  rewrite Hh, !run_lift_ok, Hno, run_lift_ok.
  rewrite run_bind, (set_field_ok _ _ _ _ _ Hi).
  rewrite run_lift_ok, Hdate, run_lift_ok.
  rewrite run_bind.
  erewrite set_field_ok by (by apply list_lookup_insert_eq).
  rewrite list_insert_insert_eq. unfold method_get. rewrite run_lift_ok.
  rewrite run_bind.
  erewrite set_field_ok by (by apply list_lookup_insert_eq).
  rewrite list_insert_insert_eq, run_lift_ok.
  erewrite set_field_ok by (by apply list_lookup_insert_eq).
  by rewrite list_insert_insert_eq.
Qed.

Lemma mrn_body_ok mrn_data hm mno i item (rows : rows_t) r :
  subscript mrn_data "header" = Ok (JObject hm) →
  dict_get hm "MRN no" = Some mno →
  rows !! i = Some r →
  mrn_body mrn_data (i, JObject item) rows
  = (Ok (), <[i := mrn_fill mno item r]> rows).
Proof.
  intros Hh Hno%subscript_ok Hi.
  assert (i < length rows) as Hlt by (eapply lookup_lt_Some; eauto).
  unfold mrn_body. rewrite run_bind. unfold get_state. cbv beta iota.
  rewrite bool_decide_eq_true_2 by done.
  rewrite Hh, !run_lift_ok, Hno, run_lift_ok.
  rewrite run_bind, (set_field_ok _ _ _ _ _ Hi).
  unfold method_get. rewrite run_lift_ok.
  erewrite set_field_ok by (by apply list_lookup_insert_eq).
  by rewrite list_insert_insert_eq.
Qed.

(** The loop on a list of dictionaries, started at position [length pre]:
    the rows before are left alone and the rows after are filled item by
    item. *)
Lemma fill_loop (body : nat * json → M rows_t ()) (f : dict → dict → dict)
    (items : list dict) (pre rest : rows_t) :
  (∀ j item (rows : rows_t), length rows ≤ j → body (j, item) rows = (Ok (), rows)) →
  (∀ j item (rows : rows_t) r, rows !! j = Some r →
     body (j, JObject item) rows = (Ok (), <[j := f item r]> rows)) →
  for_each body (enumerate_from (length pre) (map JObject items)) (pre ++ rest)
  = (Ok (), pre ++ fill_rows f items rest).
Proof.
  intros Hskip Hok. revert pre rest.
  induction items as [|it items IH]; intros pre rest.
  - by destruct rest.
  - destruct rest as [|r rest].
    + cbn [fill_rows]. apply loop_skip; [intros; by apply Hskip|].
      by rewrite app_nil_r.
    + cbn [map enumerate_from for_each fill_rows]. rewrite run_bind.
      rewrite (Hok _ _ _ r) by (by rewrite list_lookup_middle).
      replace (<[length pre := f it r]> (pre ++ r :: rest))
        with ((pre ++ [f it r]) ++ rest).
      2:{ rewrite <- (Nat.add_0_r (length pre)) at 1.
          rewrite insert_app_r. simpl. by rewrite <- app_assoc. }
      replace (S (length pre)) with (length (pre ++ [f it r]))
        by (rewrite length_app; simpl; lia).
      rewrite IH. by rewrite <- app_assoc.
Qed.

Lemma fill_rows_length {A} (f : A → dict → dict) items (rows : rows_t) :
  length (fill_rows f items rows) = length rows.
Proof.
  revert rows. induction items as [|it items IH]; intros [|r rows]; simpl; auto.
Qed.

Lemma fill_rows_lookup {A} (f : A → dict → dict) items (rows : rows_t) i :
  fill_rows f items rows !! i =
  match items !! i with
  | Some it => f it <$> rows !! i
  | None => rows !! i
  end.
Proof.
  revert rows i.
  induction items as [|it items IH]; intros [|r rows] [|i]; simpl; try done.
  by destruct (items !! i).
Qed.

Lemma fill_rows_take {A} (f : A → dict → dict) items (rows : rows_t) :
  fill_rows f (take (length rows) items) rows = fill_rows f items rows.
Proof.
  revert rows. induction items as [|it items IH]; intros [|r rows]; simpl; try done.
  by rewrite IH.
Qed.

Lemma iterated_items_ok data header items :
  extraction_result data header items →
  iterated_items data = Ok (map JObject items).
Proof. intros [_ Hi]. unfold iterated_items. by rewrite Hi. Qed.

Lemma overlay_grn_unfold grn_data rows :
  overlay_grn grn_data rows =
  match iterated_items grn_data with
  | Ok items => for_each (grn_body grn_data) (enumerate items) rows
  | Raise e => (Raise e, rows)
  end.
Proof.
  unfold overlay_grn, iterated_items. rewrite run_bind. unfold lift at 1.
  destruct (subscript grn_data "items") as [v|e]; simpl; [|done].
  rewrite run_bind. unfold lift. by destruct (py_iter v).
Qed.

Lemma overlay_mrn_unfold mrn_data rows :
  overlay_mrn mrn_data rows =
  match iterated_items mrn_data with
  | Ok items => for_each (mrn_body mrn_data) (enumerate items) rows
  | Raise e => (Raise e, rows)
  end.
Proof.
  unfold overlay_mrn, iterated_items. rewrite run_bind. unfold lift at 1.
  destruct (subscript mrn_data "items") as [v|e]; simpl; [|done].
  rewrite run_bind. unfold lift. by destruct (py_iter v).
Qed.

Lemma overlay_grn_ok grn_data hg items gno gdate (rows : rows_t) :
  extraction_result grn_data hg items →
  dict_get hg "GRN no" = Some gno →
  dict_get hg "GRN Date" = Some gdate →
  overlay_grn grn_data rows = (Ok (), fill_rows (grn_fill gno gdate) items rows).
Proof.
  intros Hres Hno Hdate. rewrite overlay_grn_unfold.
  rewrite (iterated_items_ok _ _ _ Hres).
  apply (fill_loop (grn_body grn_data) (grn_fill gno gdate) items [] rows).
  - intros. by apply grn_body_skip.
  - intros. eapply grn_body_ok; eauto. apply Hres.
Qed.

Lemma overlay_mrn_ok mrn_data hm items mno (rows : rows_t) :
  extraction_result mrn_data hm items →
  dict_get hm "MRN no" = Some mno →
  overlay_mrn mrn_data rows = (Ok (), fill_rows (mrn_fill mno) items rows).
Proof.
  intros Hres Hno. rewrite overlay_mrn_unfold.
  rewrite (iterated_items_ok _ _ _ Hres).
  apply (fill_loop (mrn_body mrn_data) (mrn_fill mno) items [] rows).
  - intros. by apply mrn_body_skip.
  - intros. eapply mrn_body_ok; eauto. apply Hres.
Qed.

Lemma overlay_grn_frame grn_data :
  keeps (rows_frame grn_fields (λ _, True)) (overlay_grn grn_data).
Proof.
  intros rows. rewrite overlay_grn_unfold.
  destruct (iterated_items grn_data) as [items|e]; [|apply rows_frame_refl].
  eapply rows_frame_mono; [done| |apply overlay_loop_frame, grn_body_frame].
  done.
Qed.

Lemma overlay_mrn_frame mrn_data :
  keeps (rows_frame mrn_fields (λ _, True)) (overlay_mrn mrn_data).
Proof.
  intros rows. rewrite overlay_mrn_unfold.
  destruct (iterated_items mrn_data) as [items|e]; [|apply rows_frame_refl].
  eapply rows_frame_mono; [done| |apply overlay_loop_frame, mrn_body_frame].
  done.
Qed.

(** ** Field lookups in the rows the engine builds *)

Lemma dict_get_Some_elem (d : dict) k v : dict_get d k = Some v → (k, v) ∈ d.
Proof.
  induction d as [|[k' v'] d IH]; simpl; [done|].
  destruct (String.eqb k' k) eqn:E.
  - apply String.eqb_eq in E. intros [= ->]. subst. left.
  - intros H. right. by apply IH.
Qed.

Lemma dict_get_None_keys (d : dict) k : dict_get d k = None ↔ k ∉ dict_keys d.
Proof.
  induction d as [|[k' v'] d IH]; simpl.
  - split; [intros _ H; by apply elem_of_nil in H|done].
  - destruct (String.eqb k' k) eqn:E.
    + apply String.eqb_eq in E. subst. split; [done|]. intros H. destruct H. left.
    + apply String.eqb_neq in E. rewrite IH, not_elem_of_cons.
      split; [intros H; split; congruence|by intros [_ H]].
Qed.

Lemma elem_dict_get (d : dict) k v : dict_wf d → (k, v) ∈ d → dict_get d k = Some v.
Proof.
  unfold dict_wf. induction d as [|[k' v'] d IH]; simpl.
  - intros _ H. by apply elem_of_nil in H.
  - intros [Hk Hnd]%NoDup_cons [Heq|Hin]%elem_of_cons.
    + injection Heq as -> ->. by rewrite String.eqb_refl.
    + destruct (String.eqb k' k) eqn:E; [|by apply IH].
      apply String.eqb_eq in E. subst. destruct Hk.
      apply list_elem_of_fmap. by exists (k, v).
Qed.

Lemma dict_get_reverse (d : dict) k :
  dict_wf d → dict_get (reverse d) k = dict_get d k.
Proof.
  intros Hwf.
  assert (dict_wf (reverse d)) as Hwf'.
  { unfold dict_wf, dict_keys in *.
    change (map fst (reverse d)) with (fst <$> reverse d).
    rewrite fmap_reverse. by rewrite reverse_Permutation. }
  destruct (dict_get d k) as [v|] eqn:E.
  - apply elem_dict_get; [done|]. apply elem_of_reverse.
    by apply dict_get_Some_elem.
  - destruct (dict_get (reverse d) k) as [v|] eqn:E'; [|done].
    apply dict_get_Some_elem in E'. rewrite elem_of_reverse in E'.
    apply (elem_dict_get _ _ _ Hwf) in E'. congruence.
Qed.

Lemma dict_get_app (d e : dict) k :
  dict_get (d ++ e) k = match dict_get d k with Some v => Some v | None => dict_get e k end.
Proof.
  induction d as [|[k' v'] d IH]; simpl; [done|].
  by destruct (String.eqb k' k).
Qed.

Lemma dict_get_update_reverse (d e : dict) k :
  dict_get (dict_update d e) k =
  match dict_get (reverse e) k with Some v => Some v | None => dict_get d k end.
Proof.
  unfold dict_update. revert d. induction e as [|[k0 v0] e IH]; intros d; simpl; [done|].
  rewrite IH, reverse_cons, dict_get_app.
  destruct (dict_get (reverse e) k); [done|]. simpl.
  destruct (String.eqb k0 k) eqn:E.
  - apply String.eqb_eq in E. subst. apply dict_get_set_eq.
  - apply String.eqb_neq in E. by apply dict_get_set_ne.
Qed.

Lemma dict_get_update (d e : dict) k :
  dict_wf e →
  dict_get (dict_update d e) k =
  match dict_get e k with Some v => Some v | None => dict_get d k end.
Proof. intros Hwf. by rewrite dict_get_update_reverse, dict_get_reverse. Qed.

Ltac dict_simpl :=
  repeat first
    [ rewrite dict_get_set_eq
    | rewrite dict_get_set_ne by discriminate ].

Lemma merged_row_dict_placeholder h it k :
  k ∈ placeholder_fields → dict_get (merged_row_dict h it) k = Some (JStr "").
Proof.
  intros Hk. unfold merged_row_dict.
  repeat (apply elem_of_cons in Hk as [->|Hk]; [by dict_simpl|]).
  by apply elem_of_nil in Hk.
Qed.

Lemma merged_row_dict_other h it k :
  dict_wf h → dict_wf it → k ∉ placeholder_fields →
  dict_get (merged_row_dict h it) k =
  match dict_get it k with Some v => Some v | None => dict_get h k end.
Proof.
  intros Hh Hit Hk. unfold merged_row_dict.
  assert (∀ f, f ∈ placeholder_fields → f ≠ k) as Hne by (intros f Hf ->; done).
  rewrite !dict_get_set_ne by (apply Hne; repeat constructor).
  rewrite !dict_get_update by done. simpl.
  by destruct (dict_get it k), (dict_get h k).
Qed.

Lemma taken_from_default item row k :
  dict_get row k = Some (dict_get_default item k (JStr "")) → taken_from item row k.
Proof. unfold taken_from, dict_get_default. by destruct (dict_get item k). Qed.

Lemma taken_from_set_ne item row k k' v :
  k' ≠ k → taken_from item row k → taken_from item (dict_set row k' v) k.
Proof.
  intros Hne. unfold taken_from.
  destruct (dict_get item k); by rewrite dict_get_set_ne.
Qed.

Lemma grn_fill_populated gno gdate item row :
  grn_populated gno gdate item (grn_fill gno gdate item row).
Proof.
  unfold grn_populated, grn_fill.
  repeat split; try apply taken_from_default; by dict_simpl.
Qed.

Lemma mrn_fill_populated mno item row :
  mrn_populated mno item (mrn_fill mno item row).
Proof.
  unfold mrn_populated, mrn_fill.
  repeat split; try apply taken_from_default; by dict_simpl.
Qed.

Lemma mrn_fill_keeps_grn gno gdate g mno m row :
  grn_populated gno gdate g row → grn_populated gno gdate g (mrn_fill mno m row).
Proof.
  unfold grn_populated, mrn_fill. intros (H1 & H2 & H3 & H4).
  repeat split; try (by dict_simpl); by do 2 (apply taken_from_set_ne; [done|]).
Qed.

Lemma mrn_fill_keeps_placeholders mno m row :
  grn_placeholders row → grn_placeholders (mrn_fill mno m row).
Proof.
  unfold grn_placeholders, mrn_fill. intros (H1 & H2 & H3 & H4).
  repeat split; by dict_simpl.
Qed.

Lemma merged_row_dict_placeholders h it : grn_placeholders (merged_row_dict h it).
Proof. unfold grn_placeholders, merged_row_dict. repeat split; by dict_simpl. Qed.

(** ** The merge engine *)

Lemma merge_frame po_data grn_data mrn_data header items (s : rows_t) :
  extraction_result po_data header items →
  rows_frame placeholder_fields (λ _, True)
    (map (merged_row_dict header) items) (merge po_data grn_data mrn_data s).2.
Proof.
  intros Hpo. unfold merge. rewrite run_bind, (seed_rows_ok _ _ _ _ Hpo).
  apply (keeps_bind (rows_frame placeholder_fields (λ _, True))).
  - apply rows_frame_trans.
  - eapply keeps_mono; [|apply overlay_grn_frame].
    intros ??. apply rows_frame_mono; [|done].
    intros k Hk. apply elem_of_app. by left.
  - intros _. eapply keeps_mono; [|apply overlay_mrn_frame].
    intros ??. apply rows_frame_mono; [|done].
    intros k Hk. apply elem_of_app. by right.
Qed.

Lemma merge_ok po_data grn_data mrn_data hp ip hg ig hm im gno gdate mno (s : rows_t) :
  extraction_result po_data hp ip →
  extraction_result grn_data hg ig →
  extraction_result mrn_data hm im →
  dict_get hg "GRN no" = Some gno →
  dict_get hg "GRN Date" = Some gdate →
  dict_get hm "MRN no" = Some mno →
  merge po_data grn_data mrn_data s =
  (Ok (), fill_rows (mrn_fill mno) im
            (fill_rows (grn_fill gno gdate) ig (map (merged_row_dict hp) ip))).
Proof.
  intros Hpo Hgrn Hmrn Hno Hdate Hmno. unfold merge.
  rewrite run_bind, (seed_rows_ok _ _ _ _ Hpo).
  rewrite run_bind, (overlay_grn_ok _ _ _ _ _ _ Hgrn Hno Hdate).
  apply (overlay_mrn_ok _ _ _ _ _ Hmrn Hmno).
Qed.

(** C1.  For every PO extraction result and every GRN and MRN result, of
    any shape, the list of rows the merge engine leaves has exactly one
    row per PO item, in the order of the PO items: seeding builds the
    merged row of each item, and row [i] still has every field of the
    merged row of item [i] outside the six GRN and MRN fields.  The number
    of rows is the number of PO items, so GRN and MRN items never add a
    row, and with no PO item there is no row.  A merged row holds the empty
    string under the six placeholder fields and, under any other key, the
    item's value or else the header's.  With GRN and MRN results whose
    headers hold their keys the engine runs to completion. *)
Theorem merge_one_row_per_po_item
    po_data grn_data mrn_data header items (s : rows_t) :
  extraction_result po_data header items →
  seed_rows po_data s = (Ok (), map (merged_row_dict header) items)
  ∧ length (merge po_data grn_data mrn_data s).2 = length items
  ∧ (∀ i item, items !! i = Some item →
       ∃ row, (merge po_data grn_data mrn_data s).2 !! i = Some row
              ∧ agree_outside placeholder_fields (merged_row_dict header item) row)
  ∧ (items = [] → (merge po_data grn_data mrn_data s).2 = [])
  ∧ (∀ item k, dict_wf header → dict_wf item →
       dict_get (merged_row_dict header item) k =
       if bool_decide (k ∈ placeholder_fields) then Some (JStr "")
       else match dict_get item k with
            | Some v => Some v
            | None => dict_get header k
            end)
  ∧ (∀ hg ig hm im,
       extraction_result grn_data hg ig → extraction_result mrn_data hm im →
       is_Some (dict_get hg "GRN no") → is_Some (dict_get hg "GRN Date") →
       is_Some (dict_get hm "MRN no") →
       (merge po_data grn_data mrn_data s).1 = Ok ()).
Proof.
  intros Hpo.
  destruct (merge_frame po_data grn_data mrn_data header items s Hpo) as [Hlen Hrows].
  rewrite length_map in Hlen.
  split; [by apply seed_rows_ok|]. split; [done|]. split; [|split; [|split]].
  - intros i item Hi.
    destruct (Hrows i (merged_row_dict header item)) as (row & Hrow & Hagree & _).
    { by rewrite list_lookup_fmap, Hi. }
    by exists row.
  - intros ->. by apply nil_length_inv.
  - intros item k Hh Hit. case_bool_decide.
    + by apply merged_row_dict_placeholder.
    + by apply merged_row_dict_other.
  - intros hg ig hm im Hgrn Hmrn [gno Hno] [gdate Hdate] [mno Hmno].
    by erewrite merge_ok.
Qed.

Lemma merge_one_row_per_po_item_witness :
  length (merge ex_po ex_grn ex_mrn []).2 = 1
  ∧ (merge ex_po ex_grn ex_mrn []).1 = Ok ().
Proof.
  pose proof (merge_one_row_per_po_item ex_po ex_grn ex_mrn
    [("po no", JStr "100")]
    [[("Material Description", JStr "Widget"); ("Quantity", JStr "5")]] []) as H.
  destruct H as (_ & Hlen & _ & _ & _ & Hok).
  - split; reflexivity.
  - split; [exact Hlen|].
    apply (Hok [("GRN no", JStr "G1"); ("GRN Date", JStr "2024-01-01")]
               [[("Delivered Qty", JStr "5"); ("Remarks", JStr "OK")]]
               [("MRN no", JStr "M1")] [[("Rejected Amount", JStr "0")]]).
    + split; reflexivity.
    + split; reflexivity.
    + by eexists.
    + by eexists.
    + by eexists.
Defined.

Lemma fill_rows_populated {A} (f : A → dict → dict) (Q : A → dict → Prop)
    items (rows : rows_t) i row :
  (∀ it r, Q it (f it r)) →
  rows !! i = Some row →
  match items !! i with
  | Some item => ∃ row', fill_rows f items rows !! i = Some row' ∧ Q item row'
  | None => fill_rows f items rows !! i = Some row
  end.
Proof.
  intros HQ Hi. rewrite fill_rows_lookup, Hi.
  destruct (items !! i) as [item|]; [|done]. simpl. eauto.
Qed.

Lemma extraction_result_same_overlay_grn g1 g2 hg items (rows : rows_t) gno gdate :
  extraction_result g1 hg items →
  extraction_result g2 hg (take (length rows) items) →
  dict_get hg "GRN no" = Some gno → dict_get hg "GRN Date" = Some gdate →
  overlay_grn g2 rows = overlay_grn g1 rows.
Proof.
  intros H1 H2 Hno Hdate.
  rewrite (overlay_grn_ok _ _ _ _ _ _ H1 Hno Hdate).
  rewrite (overlay_grn_ok _ _ _ _ _ _ H2 Hno Hdate).
  by rewrite fill_rows_take.
Qed.

Lemma extraction_result_same_overlay_mrn m1 m2 hm items (rows : rows_t) mno :
  extraction_result m1 hm items →
  extraction_result m2 hm (take (length rows) items) →
  dict_get hm "MRN no" = Some mno →
  overlay_mrn m2 rows = overlay_mrn m1 rows.
Proof.
  intros H1 H2 Hno.
  rewrite (overlay_mrn_ok _ _ _ _ _ H1 Hno), (overlay_mrn_ok _ _ _ _ _ H2 Hno).
  by rewrite fill_rows_take.
Qed.

(** C2.  An overlay writes by position.  For a GRN result whose header
    holds [GRN no] and [GRN Date] and any list of rows, the GRN overlay
    completes, keeps the number of rows, gives every row [i] that has a GRN
    item at the same position [i] the header's two values and, under
    [Delivered Qty] and [Remarks], the value that item holds there (the
    empty string where the item lacks one), and leaves every other row as
    it was; the items at positions
    from the number of rows on are dropped: the result is the one obtained
    from the items before them alone.  The same holds for the MRN overlay
    with [MRN no] and [Rejected Amount].  With three PO items, two GRN
    items and four MRN items the engine returns exactly three rows; rows 0
    and 1 hold the GRN values of items 0 and 1, row 2 keeps its four empty
    GRN placeholders, rows 0 to 2 hold the MRN values of items 0 to 2, and
    the result is the same without the fourth MRN item. *)
Theorem overlay_by_position :
  (∀ grn_data hg items gno gdate (rows : rows_t),
     extraction_result grn_data hg items →
     dict_get hg "GRN no" = Some gno →
     dict_get hg "GRN Date" = Some gdate →
     ∃ rows', overlay_grn grn_data rows = (Ok (), rows')
       ∧ length rows' = length rows
       ∧ (∀ i row, rows !! i = Some row →
            match items !! i with
            | Some item =>
                ∃ row', rows' !! i = Some row' ∧ grn_populated gno gdate item row'
            | None => rows' !! i = Some row
            end)
       ∧ (∀ grn_data',
            extraction_result grn_data' hg (take (length rows) items) →
            overlay_grn grn_data' rows = (Ok (), rows')))
  ∧ (∀ mrn_data hm items mno (rows : rows_t),
       extraction_result mrn_data hm items →
       dict_get hm "MRN no" = Some mno →
       ∃ rows', overlay_mrn mrn_data rows = (Ok (), rows')
         ∧ length rows' = length rows
         ∧ (∀ i row, rows !! i = Some row →
              match items !! i with
              | Some item =>
                  ∃ row', rows' !! i = Some row' ∧ mrn_populated mno item row'
              | None => rows' !! i = Some row
              end)
         ∧ (∀ mrn_data',
              extraction_result mrn_data' hm (take (length rows) items) →
              overlay_mrn mrn_data' rows = (Ok (), rows')))
  ∧ (∀ po_data grn_data mrn_data hp hg hm p0 p1 p2 g0 g1 m0 m1 m2 m3 gno gdate mno,
       extraction_result po_data hp [p0; p1; p2] →
       extraction_result grn_data hg [g0; g1] →
       extraction_result mrn_data hm [m0; m1; m2; m3] →
       dict_get hg "GRN no" = Some gno →
       dict_get hg "GRN Date" = Some gdate →
       dict_get hm "MRN no" = Some mno →
       ∃ r0 r1 r2,
         run_merge po_data grn_data mrn_data = (Ok (), [r0; r1; r2])
         ∧ grn_populated gno gdate g0 r0
         ∧ grn_populated gno gdate g1 r1
         ∧ grn_placeholders r2
         ∧ mrn_populated mno m0 r0
         ∧ mrn_populated mno m1 r1
         ∧ mrn_populated mno m2 r2
         ∧ (∀ mrn_data',
              extraction_result mrn_data' hm [m0; m1; m2] →
              run_merge po_data grn_data mrn_data' = (Ok (), [r0; r1; r2]))).
Proof.
  split; [|split].
  - intros grn_data hg items gno gdate rows Hres Hno Hdate.
    exists (fill_rows (grn_fill gno gdate) items rows).
    split; [by eapply overlay_grn_ok|]. split; [apply fill_rows_length|]. split.
    + intros i row Hi.
      apply (fill_rows_populated _ (grn_populated gno gdate)); [|done].
      intros. apply grn_fill_populated.
    + intros g' Hres'.
      rewrite (extraction_result_same_overlay_grn grn_data g' hg items rows gno gdate)
        by done.
      by eapply overlay_grn_ok.
  - intros mrn_data hm items mno rows Hres Hno.
    exists (fill_rows (mrn_fill mno) items rows).
    split; [by eapply overlay_mrn_ok|]. split; [apply fill_rows_length|]. split.
    + intros i row Hi.
      apply (fill_rows_populated _ (mrn_populated mno)); [|done].
      intros. apply mrn_fill_populated.
    + intros m' Hres'.
      rewrite (extraction_result_same_overlay_mrn mrn_data m' hm items rows mno)
        by done.
      by eapply overlay_mrn_ok.
  - intros po_data grn_data mrn_data hp hg hm p0 p1 p2 g0 g1 m0 m1 m2 m3
      gno gdate mno Hpo Hgrn Hmrn Hno Hdate Hmno.
    eexists _, _, _. split.
    { unfold run_merge. erewrite merge_ok by done. reflexivity. }
    split; [apply mrn_fill_keeps_grn, grn_fill_populated|].
    split; [apply mrn_fill_keeps_grn, grn_fill_populated|].
    split; [apply mrn_fill_keeps_placeholders, merged_row_dict_placeholders|].
    do 3 (split; [apply mrn_fill_populated|]).
    intros m' Hm'. unfold run_merge.
    by rewrite (merge_ok _ _ _ _ _ _ _ _ _ _ _ _ _ Hpo Hgrn Hm' Hno Hdate Hmno).
Qed.

Lemma overlay_by_position_witness :
  ∃ rows' row',
    overlay_grn ex_grn [[("po no", JStr "100")]; [("po no", JStr "200")]]
    = (Ok (), rows')
    ∧ length rows' = 2
    ∧ rows' !! 0 = Some row'
    ∧ dict_get row' "GRN no" = Some (JStr "G1")
    ∧ dict_get row' "GRN Date" = Some (JStr "2024-01-01")
    ∧ dict_get row' "Delivered Qty" = Some (JStr "5")
    ∧ dict_get row' "Remarks" = Some (JStr "OK")
    ∧ rows' !! 1 = Some [("po no", JStr "200")].
Proof.
  destruct (proj1 overlay_by_position ex_grn
              [("GRN no", JStr "G1"); ("GRN Date", JStr "2024-01-01")]
              [[("Delivered Qty", JStr "5"); ("Remarks", JStr "OK")]]
              (JStr "G1") (JStr "2024-01-01")
              [[("po no", JStr "100")]; [("po no", JStr "200")]])
    as (rows' & Hrun & Hlen & Hrows & _).
  - split; reflexivity.
  - reflexivity.
  - reflexivity.
  - destruct (Hrows 0 [("po no", JStr "100")] eq_refl)
      as (row' & Hrow' & Hno & Hdate & Hqty & Hrem).
    exists rows', row'.
    split; [exact Hrun|]. split; [exact Hlen|]. split; [exact Hrow'|].
    split; [exact Hno|]. split; [exact Hdate|]. split; [exact Hqty|].
    split; [exact Hrem|].
    exact (Hrows 1 [("po no", JStr "200")] eq_refl).
Defined.

(** C4.  Whatever the GRN result, the GRN overlay keeps the number of
    rows and, in every row, the value (or the absence) of every field
    other than [GRN no], [GRN Date], [Delivered Qty] and [Remarks]; a row
    at a position beyond the items the loop runs over is not changed at
    all.  The MRN overlay does the same with [MRN no] and
    [Rejected Amount].  This holds also when the overlay raises part-way. *)
Theorem overlay_frame_effect (data : json) (rows : rows_t) :
  (length (overlay_grn data rows).2 = length rows
   ∧ ∀ i row, rows !! i = Some row →
       ∃ row', (overlay_grn data rows).2 !! i = Some row'
         ∧ (∀ k, k ∉ grn_fields → dict_get row' k = dict_get row k)
         ∧ (∀ items, iterated_items data = Ok items → length items ≤ i → row' = row))
  ∧ (length (overlay_mrn data rows).2 = length rows
     ∧ ∀ i row, rows !! i = Some row →
         ∃ row', (overlay_mrn data rows).2 !! i = Some row'
           ∧ (∀ k, k ∉ mrn_fields → dict_get row' k = dict_get row k)
           ∧ (∀ items, iterated_items data = Ok items → length items ≤ i → row' = row)).
Proof.
  split.
  - rewrite overlay_grn_unfold.
    destruct (iterated_items data) as [items|e] eqn:Hit; simpl.
    + destruct (overlay_loop_frame grn_fields (grn_body data) items
                  (grn_body_frame data) rows) as [Hlen Hrows].
      split; [done|]. intros i row Hi.
      destruct (Hrows i row Hi) as (row' & Hi' & Hagree & Hout).
      exists row'. split; [done|]. split; [done|].
      intros items' [= <-] Hle. apply Hout. lia.
    + split; [done|]. intros i row Hi. exists row. done.
  - rewrite overlay_mrn_unfold.
    destruct (iterated_items data) as [items|e] eqn:Hit; simpl.
    + destruct (overlay_loop_frame mrn_fields (mrn_body data) items
                  (mrn_body_frame data) rows) as [Hlen Hrows].
      split; [done|]. intros i row Hi.
      destruct (Hrows i row Hi) as (row' & Hi' & Hagree & Hout).
      exists row'. split; [done|]. split; [done|].
      intros items' [= <-] Hle. apply Hout. lia.
    + split; [done|]. intros i row Hi. exists row. done.
Qed.

Lemma overlay_frame_effect_witness :
  ∃ row', (overlay_grn ex_grn [[("po no", JStr "100")]; [("po no", JStr "7")]]).2 !! 1
          = Some row'
        ∧ row' = [("po no", JStr "7")].
Proof.
  destruct (proj2 (proj1 (overlay_frame_effect ex_grn
              [[("po no", JStr "100")]; [("po no", JStr "7")]]))
              1 [("po no", JStr "7")] eq_refl)
    as (row' & Hrow & _ & Hout).
  exists row'. split; [exact Hrow|].
  apply (Hout [JObject [("Delivered Qty", JStr "5"); ("Remarks", JStr "OK")]]).
  - reflexivity.
  - simpl. lia.
Defined.

(** ** Missing keys *)

Lemma overlay_grn_no_overlap data items (rows : rows_t) :
  iterated_items data = Ok items → rows = [] ∨ items = [] →
  overlay_grn data rows = (Ok (), rows).
Proof.
  intros Hit Hz. rewrite overlay_grn_unfold, Hit. destruct Hz as [->| ->]; [|done].
  apply loop_skip; [|simpl; lia]. intros. by apply grn_body_skip.
Qed.

Lemma overlay_mrn_no_overlap data items (rows : rows_t) :
  iterated_items data = Ok items → rows = [] ∨ items = [] →
  overlay_mrn data rows = (Ok (), rows).
Proof.
  intros Hit Hz. rewrite overlay_mrn_unfold, Hit. destruct Hz as [->| ->]; [|done].
  apply loop_skip; [|simpl; lia]. intros. by apply mrn_body_skip.
Qed.

Lemma overlay_grn_no_number data hg items (rows : rows_t) :
  subscript data "header" = Ok (JObject hg) →
  iterated_items data = Ok items →
  rows ≠ [] → items ≠ [] →
  dict_get hg "GRN no" = None →
  overlay_grn data rows = (Raise (KeyError "GRN no"), rows).
Proof.
  intros Hh Hit Hrows Hitems Hno%subscript_missing.
  rewrite overlay_grn_unfold, Hit.
  destruct items as [|item items]; [done|]. destruct rows as [|r rows]; [done|].
  unfold enumerate. cbn [enumerate_from for_each]. rewrite run_bind.
  unfold grn_body. rewrite run_bind. unfold get_state. cbv beta iota.
  rewrite bool_decide_eq_true_2 by (simpl; lia).
  by rewrite Hh, run_lift_ok, Hno.
Qed.

Lemma overlay_grn_no_date data hg gno items (rows : rows_t) :
  subscript data "header" = Ok (JObject hg) →
  iterated_items data = Ok items →
  rows ≠ [] → items ≠ [] →
  dict_get hg "GRN no" = Some gno →
  dict_get hg "GRN Date" = None →
  (overlay_grn data rows).1 = Raise (KeyError "GRN Date").
Proof.
  intros Hh Hit Hrows Hitems Hno%subscript_ok Hdate%subscript_missing.
  rewrite overlay_grn_unfold, Hit.
  destruct items as [|item items]; [done|]. destruct rows as [|r rows]; [done|].
  unfold enumerate. cbn [enumerate_from for_each]. rewrite run_bind.
  unfold grn_body. rewrite run_bind. unfold get_state. cbv beta iota.
  rewrite bool_decide_eq_true_2 by (simpl; lia).
  rewrite Hh, !run_lift_ok, Hno, run_lift_ok.
  rewrite run_bind. unfold set_field at 1. cbn [lookup list_lookup].
  by rewrite run_lift_ok, Hdate.
Qed.

Lemma overlay_mrn_no_number data hm items (rows : rows_t) :
  subscript data "header" = Ok (JObject hm) →
  iterated_items data = Ok items →
  rows ≠ [] → items ≠ [] →
  dict_get hm "MRN no" = None →
  overlay_mrn data rows = (Raise (KeyError "MRN no"), rows).
Proof.
  intros Hh Hit Hrows Hitems Hno%subscript_missing.
  rewrite overlay_mrn_unfold, Hit.
  destruct items as [|item items]; [done|]. destruct rows as [|r rows]; [done|].
  unfold enumerate. cbn [enumerate_from for_each]. rewrite run_bind.
  unfold mrn_body. rewrite run_bind. unfold get_state. cbv beta iota.
  rewrite bool_decide_eq_true_2 by (simpl; lia).
  by rewrite Hh, run_lift_ok, Hno.
Qed.

(** ** The run *)

Lemma run_emit {B} e (k : () → M script_state B) st :
  (emit e ≫= k) st = k () (add_events st [e]).
Proof. reflexivity. Qed.

Lemma add_events_app st evs evs' :
  add_events (add_events st evs) evs' = add_events st (evs ++ evs').
Proof. unfold add_events. simpl. by rewrite <- app_assoc. Qed.

Lemma run_on_rows {A B} (m : M rows_t A) (k : A → M script_state B) st :
  (on_rows m ≫= k) st =
  match m (rows st) with
  | (Ok a, rows') => k a {| trace := trace st; rows := rows' |}
  | (Raise e, rows') => (Raise e, {| trace := trace st; rows := rows' |})
  end.
Proof.
  rewrite run_bind. unfold on_rows. by destruct (m (rows st)) as [[a|e] rows'].
Qed.

(** One document: open, read, prompt, call, decode. *)
Lemma run_stage {B} w path bytes pdf_type pages raw data
    (k : json → M script_state B) st :
  answers w bytes pdf_type pages raw data →
  (text ← load_pdf_text w path bytes;
   d ← extract_structured_data w text pdf_type; k d) st
  = k data (add_events st
      [OpenPdf path; ChatRequest (build_prompt (extract_pdf_text pages) pdf_type) 4000 0]).
Proof.
  intros (Hopen & Hchat & Hparse).
  unfold load_pdf_text, extract_structured_data.
  rewrite run_bind, run_emit, Hopen, run_lift_ok.
  cbv beta iota delta [mret M_ret].
  rewrite run_bind, run_emit, Hchat, run_lift_ok, Hparse.
  cbv beta iota delta [lift]. by rewrite add_events_app.
Qed.

(** The run up to the GRN overlay. *)
Lemma run_to_grn_overlay w po grn mrn st po_pages po_raw po_data hp ip
    grn_pages grn_raw grn_data :
  answers w po "PO" po_pages po_raw po_data →
  answers w grn "GRN" grn_pages grn_raw grn_data →
  extraction_result po_data hp ip →
  ∃ evs k,
    process_pdfs w (Some po) (Some grn) (Some mrn) st
    = (on_rows (overlay_grn grn_data) ≫= k)
        {| trace := trace st ++ evs; rows := map (merged_row_dict hp) ip |}
    ∧ Forall (λ e, is_export_event e = false) evs.
Proof.
  intros Hpo Hgrn Hres. unfold process_pdfs.
  rewrite run_bind. cbn [uploaded andb negb]. cbv beta iota delta [mret M_ret].
  cbn [read_upload]. rewrite run_lift_ok, run_emit.
  rewrite run_lift_ok, run_emit, run_lift_ok, run_emit, run_emit.
  rewrite (run_stage _ _ _ _ _ _ _ _ _ Hpo).
  rewrite run_on_rows, (seed_rows_ok _ _ _ _ Hres), run_emit.
  rewrite (run_stage _ _ _ _ _ _ _ _ _ Hgrn).
  unfold add_events. cbn [trace rows]. rewrite <- !app_assoc. simpl app.
  eexists _, _. split; [reflexivity|].
  repeat constructor.
Qed.

Lemma run_grn_raise w po grn mrn st po_pages po_raw po_data hp ip
    grn_pages grn_raw grn_data e :
  answers w po "PO" po_pages po_raw po_data →
  answers w grn "GRN" grn_pages grn_raw grn_data →
  extraction_result po_data hp ip →
  (overlay_grn grn_data (map (merged_row_dict hp) ip)).1 = Raise e →
  ∃ evs,
    (process_pdfs w (Some po) (Some grn) (Some mrn) st).1 = Raise e
    ∧ trace (process_pdfs w (Some po) (Some grn) (Some mrn) st).2 = trace st ++ evs
    ∧ Forall (λ ev, is_export_event ev = false) evs.
Proof.
  intros Hpo Hgrn Hres Hraise.
  destruct (run_to_grn_overlay w po grn mrn st _ _ _ _ _ _ _ _ Hpo Hgrn Hres)
    as (evs & k & -> & Hevs).
  exists evs. rewrite run_on_rows. cbn [rows trace].
  destruct (overlay_grn grn_data (map (merged_row_dict hp) ip)) as [[[]|e'] rows'];
    simpl in Hraise; [done|].
  injection Hraise as ->. done.
Qed.

Lemma run_mrn_raise w po grn mrn st po_pages po_raw po_data hp ip
    grn_pages grn_raw grn_data mrn_pages mrn_raw mrn_data rows1 e :
  answers w po "PO" po_pages po_raw po_data →
  answers w grn "GRN" grn_pages grn_raw grn_data →
  answers w mrn "MRN" mrn_pages mrn_raw mrn_data →
  extraction_result po_data hp ip →
  overlay_grn grn_data (map (merged_row_dict hp) ip) = (Ok (), rows1) →
  (overlay_mrn mrn_data rows1).1 = Raise e →
  ∃ evs,
    (process_pdfs w (Some po) (Some grn) (Some mrn) st).1 = Raise e
    ∧ trace (process_pdfs w (Some po) (Some grn) (Some mrn) st).2 = trace st ++ evs
    ∧ Forall (λ ev, is_export_event ev = false) evs.
Proof.
  intros Hpo Hgrn Hmrn Hres Hok Hraise. unfold process_pdfs.
  rewrite run_bind. cbn [uploaded andb negb]. cbv beta iota delta [mret M_ret].
  cbn [read_upload]. rewrite run_lift_ok, run_emit.
  rewrite run_lift_ok, run_emit, run_lift_ok, run_emit, run_emit.
  rewrite (run_stage _ _ _ _ _ _ _ _ _ Hpo).
  rewrite run_on_rows, (seed_rows_ok _ _ _ _ Hres), run_emit.
  rewrite (run_stage _ _ _ _ _ _ _ _ _ Hgrn).
  rewrite run_on_rows. cbn [rows trace add_events]. rewrite Hok.
  rewrite run_emit, (run_stage _ _ _ _ _ _ _ _ _ Hmrn).
  rewrite run_on_rows. cbn [rows trace add_events].
  destruct (overlay_mrn mrn_data rows1) as [[[]|e'] rows'];
    simpl in Hraise; [done|].
  injection Hraise as ->. cbn [fst snd trace].
  rewrite <- !app_assoc. simpl app.
  eexists. split; [done|]. split; [reflexivity|]. repeat constructor.
Qed.

(** C7.  With any of the three upload slots empty when the button is
    pressed, the run shows the message "Please upload PO, GRN and MRN
    PDFs" and stops: the only event is that error message, so no file is
    written, no PDF is opened, no request is sent to the inference service
    and nothing is displayed or exported, and the rows are as they were. *)
Theorem missing_upload_halts w (po_file grn_file mrn_file : upload) st :
  po_file = None ∨ grn_file = None ∨ mrn_file = None →
  on_button true w po_file grn_file mrn_file st
  = (Raise StopException,
     {| trace := trace st ++ [StError "Please upload PO, GRN and MRN PDFs"];
        rows := rows st |}).
Proof.
  intros Hmissing. unfold on_button, process_pdfs.
  assert (negb (uploaded po_file && uploaded grn_file && uploaded mrn_file) = true)
    as ->.
  { destruct Hmissing as [->|[->| ->]]; simpl; [done| |].
    - by destruct (uploaded po_file).
    - by destruct (uploaded po_file), (uploaded grn_file). }
  reflexivity.
Qed.

Lemma missing_upload_halts_witness :
  (on_button true (constant_world "") (Some "po") None (Some "mrn")
     {| trace := []; rows := [] |}).1 = Raise StopException.
Proof.
  rewrite (missing_upload_halts (constant_world "") (Some "po") None (Some "mrn")).
  - reflexivity.
  - right. left. reflexivity.
Defined.

(** C10.  Missing keys are handled in two ways.  An item that lacks
    [Delivered Qty], [Remarks] or [Rejected Amount] gives the row the
    empty string for that field and raises nothing.  A GRN header that
    lacks [GRN no] or [GRN Date], or an MRN header that lacks [MRN no],
    makes the overlay raise a key error as soon as the first item meets a
    row; the run then ends with that error, without a display or export
    event.  When no item position meets a row (no row, or no item), the
    header is not looked at and the overlay completes with the rows as
    they were. *)
Theorem overlay_missing_keys :
  (∀ grn_data hg items gno gdate (rows : rows_t) i item row,
     extraction_result grn_data hg items →
     dict_get hg "GRN no" = Some gno → dict_get hg "GRN Date" = Some gdate →
     items !! i = Some item → rows !! i = Some row →
     ∃ rows' row',
       overlay_grn grn_data rows = (Ok (), rows') ∧ rows' !! i = Some row'
       ∧ (dict_get item "Delivered Qty" = None →
          dict_get row' "Delivered Qty" = Some (JStr ""))
       ∧ (dict_get item "Remarks" = None →
          dict_get row' "Remarks" = Some (JStr "")))
  ∧ (∀ mrn_data hm items mno (rows : rows_t) i item row,
       extraction_result mrn_data hm items →
       dict_get hm "MRN no" = Some mno →
       items !! i = Some item → rows !! i = Some row →
       ∃ rows' row',
         overlay_mrn mrn_data rows = (Ok (), rows') ∧ rows' !! i = Some row'
         ∧ (dict_get item "Rejected Amount" = None →
            dict_get row' "Rejected Amount" = Some (JStr "")))
  ∧ (∀ data header items (rows : rows_t),
       subscript data "header" = Ok (JObject header) →
       iterated_items data = Ok items →
       rows ≠ [] → items ≠ [] →
       (dict_get header "GRN no" = None →
        (overlay_grn data rows).1 = Raise (KeyError "GRN no"))
       ∧ (is_Some (dict_get header "GRN no") → dict_get header "GRN Date" = None →
          (overlay_grn data rows).1 = Raise (KeyError "GRN Date"))
       ∧ (dict_get header "MRN no" = None →
          (overlay_mrn data rows).1 = Raise (KeyError "MRN no")))
  ∧ (∀ w po grn mrn st po_pages po_raw po_data hp ip grn_pages grn_raw grn_data k,
       answers w po "PO" po_pages po_raw po_data →
       answers w grn "GRN" grn_pages grn_raw grn_data →
       extraction_result po_data hp ip →
       (overlay_grn grn_data (map (merged_row_dict hp) ip)).1 = Raise (KeyError k) →
       ∃ evs,
         (process_pdfs w (Some po) (Some grn) (Some mrn) st).1 = Raise (KeyError k)
         ∧ trace (process_pdfs w (Some po) (Some grn) (Some mrn) st).2
           = trace st ++ evs
         ∧ Forall (λ ev, is_export_event ev = false) evs)
  ∧ (∀ w po grn mrn st po_pages po_raw po_data hp ip grn_pages grn_raw grn_data
       mrn_pages mrn_raw mrn_data rows1 k,
       answers w po "PO" po_pages po_raw po_data →
       answers w grn "GRN" grn_pages grn_raw grn_data →
       answers w mrn "MRN" mrn_pages mrn_raw mrn_data →
       extraction_result po_data hp ip →
       overlay_grn grn_data (map (merged_row_dict hp) ip) = (Ok (), rows1) →
       (overlay_mrn mrn_data rows1).1 = Raise (KeyError k) →
       ∃ evs,
         (process_pdfs w (Some po) (Some grn) (Some mrn) st).1 = Raise (KeyError k)
         ∧ trace (process_pdfs w (Some po) (Some grn) (Some mrn) st).2
           = trace st ++ evs
         ∧ Forall (λ ev, is_export_event ev = false) evs)
  ∧ (∀ data items (rows : rows_t),
       iterated_items data = Ok items → rows = [] ∨ items = [] →
       overlay_grn data rows = (Ok (), rows)
       ∧ overlay_mrn data rows = (Ok (), rows)).
Proof.
  split; [|split; [|split; [|split; [|split]]]].
  - intros grn_data hg items gno gdate rows i item row Hres Hno Hdate Hitem Hrow.
    exists (fill_rows (grn_fill gno gdate) items rows), (grn_fill gno gdate item row).
    split; [by eapply overlay_grn_ok|].
    split; [by rewrite fill_rows_lookup, Hitem, Hrow|].
    destruct (grn_fill_populated gno gdate item row) as (_ & _ & Hq & Hr).
    unfold taken_from in Hq, Hr.
    split; intros Hnone; [by rewrite Hnone in Hq|by rewrite Hnone in Hr].
  - intros mrn_data hm items mno rows i item row Hres Hno Hitem Hrow.
    exists (fill_rows (mrn_fill mno) items rows), (mrn_fill mno item row).
    split; [by eapply overlay_mrn_ok|].
    split; [by rewrite fill_rows_lookup, Hitem, Hrow|].
    destruct (mrn_fill_populated mno item row) as (_ & Hq).
    unfold taken_from in Hq. intros Hnone. by rewrite Hnone in Hq.
  - intros data header items rows Hh Hit Hrows Hitems. split; [|split].
    + intros Hnone. by erewrite overlay_grn_no_number.
    + intros [gno Hno] Hnone. by eapply overlay_grn_no_date.
    + intros Hnone. by erewrite overlay_mrn_no_number.
  - intros. by eapply run_grn_raise.
  - intros. by eapply run_mrn_raise.
  - intros data items rows Hit Hz. split.
    + by eapply overlay_grn_no_overlap.
    + by eapply overlay_mrn_no_overlap.
Qed.

Lemma overlay_missing_keys_witness :
  (overlay_grn (JObject [("header", JObject [("GRN Date", JStr "d")]);
                         ("items", JList [JObject []])])
     [[("po no", JStr "100")]]).1
  = Raise (KeyError "GRN no")
  ∧ (process_pdfs (constant_world bare_answer) (Some "po") (Some "grn") (Some "mrn")
       {| trace := []; rows := [] |}).1
    = Raise (KeyError "GRN no")
  ∧ (process_pdfs bare_mrn_world (Some "po") (Some "grn") (Some "mrn")
       {| trace := []; rows := [] |}).1
    = Raise (KeyError "MRN no").
Proof.
  split; [|split].
  - apply (proj1 (proj1 (proj2 (proj2 overlay_missing_keys))
             (JObject [("header", JObject [("GRN Date", JStr "d")]);
                       ("items", JList [JObject []])])
             [("GRN Date", JStr "d")] [JObject []] [[("po no", JStr "100")]]
             eq_refl eq_refl ltac:(discriminate) ltac:(discriminate))).
    reflexivity.
  - destruct (proj1 (proj2 (proj2 (proj2 overlay_missing_keys)))
                (constant_world bare_answer) "po" "grn" "mrn"
                {| trace := []; rows := [] |}
                [Some "page"] bare_answer
                (JObject [("header", JObject []); ("items", JList [JObject []])])
                [] [[]]
                [Some "page"] bare_answer
                (JObject [("header", JObject []); ("items", JList [JObject []])])
                "GRN no")
      as (evs & Hrun & _).
    + repeat split; vm_compute; reflexivity.
    + repeat split; vm_compute; reflexivity.
    + split; reflexivity.
    + reflexivity.
    + exact Hrun.
  - destruct (proj1 (proj2 (proj2 (proj2 (proj2 overlay_missing_keys))))
                bare_mrn_world "po" "grn" "mrn"
                {| trace := []; rows := [] |}
                [Some "page"] (json_dumps ex_po 2) ex_po
                [("po no", JStr "100")]
                [[("Material Description", JStr "Widget"); ("Quantity", JStr "5")]]
                [Some "page"] (json_dumps ex_grn 2) ex_grn
                [Some "page"] bare_answer
                (JObject [("header", JObject []); ("items", JList [JObject []])])
                (overlay_grn ex_grn
                   (map (merged_row_dict [("po no", JStr "100")])
                      [[("Material Description", JStr "Widget");
                        ("Quantity", JStr "5")]])).2
                "MRN no")
      as (evs & Hrun & _).
    + repeat split; vm_compute; reflexivity.
    + repeat split; vm_compute; reflexivity.
    + repeat split; vm_compute; reflexivity.
    + split; reflexivity.
    + vm_compute. reflexivity.
    + reflexivity.
    + exact Hrun.
Defined.

(** The end-to-end scenario of the specification: one PO item, one GRN
    item and one MRN item give a single row with all nine fields filled,
    which is what is displayed and offered for download. *)
Lemma end_to_end_scenario :
  let final := process_pdfs scenario_world (Some "po") (Some "grn") (Some "mrn")
                 {| trace := []; rows := [] |} in
  final.1 = Ok ()
  ∧ rows final.2
    = [[("po no", JStr "100"); ("Material Description", JStr "Widget");
        ("Quantity", JStr "5"); ("GRN no", JStr "G1");
        ("GRN Date", JStr "2024-01-01"); ("Delivered Qty", JStr "5");
        ("Remarks", JStr "OK"); ("MRN no", JStr "M1");
        ("Rejected Amount", JStr "0")]]
  ∧ last (trace final.2)
    = Some (StDownloadButton "⬇️ Download Excel"
              [map CString ["po no"; "Material Description"; "Quantity"; "GRN no";
                            "GRN Date"; "Delivered Qty"; "Remarks"; "MRN no";
                            "Rejected Amount"];
               map CString ["100"; "Widget"; "5"; "G1"; "2024-01-01"; "5"; "OK";
                            "M1"; "0"]]
              "Reliance_PO_GRN_MRN_Extracted.xlsx" xlsx_mime).
Proof. vm_compute. repeat split. Qed.

(** ** Searching and slicing text *)

Lemma append_cons c (a b : string) : String c a +:+ b = String c (a +:+ b).
Proof. reflexivity. Qed.

Lemma append_nil_l (a : string) : "" +:+ a = a.
Proof. reflexivity. Qed.

Lemma length_append (a b : string) :
  String.length (a +:+ b) = (String.length a + String.length b)%nat.
Proof.
  induction a as [|c a IH]; [done|]. rewrite append_cons. simpl. by rewrite IH.
Qed.

Lemma append_assoc (a b c : string) : (a +:+ b) +:+ c = a +:+ (b +:+ c).
Proof.
  induction a as [|x a IH]; [done|]. rewrite !append_cons. by rewrite IH.
Qed.

Lemma append_nil_r (a : string) : a +:+ "" = a.
Proof. induction a as [|x a IH]; [done|]. rewrite append_cons. by rewrite IH. Qed.

Lemma has_char_append c a b : has_char c (a +:+ b) = has_char c a || has_char c b.
Proof.
  induction a as [|x a IH]; [done|]. rewrite append_cons. simpl.
  rewrite IH. by rewrite orb_assoc.
Qed.

Lemma find_from_absent c s i : has_char c s = false → find_from c s i = (-1)%Z.
Proof.
  revert i. induction s as [|x s IH]; intros i; simpl; [done|].
  destruct (Ascii.eqb x c); simpl; [done|]. apply IH.
Qed.

Lemma find_from_first c pre rest i :
  has_char c pre = false →
  find_from c (pre +:+ String c rest) i = (i + Z.of_nat (String.length pre))%Z.
Proof.
  revert i. induction pre as [|x pre IH]; intros i;
    rewrite ?append_nil_l, ?append_cons; simpl.
  - intros _. rewrite Ascii.eqb_refl. lia.
  - destruct (Ascii.eqb x c); simpl; [done|]. intros H. rewrite IH by done. lia.
Qed.

Lemma rfind_from_absent c s i last : has_char c s = false → rfind_from c s i last = last.
Proof.
  revert i last. induction s as [|x s IH]; intros i last; simpl; [done|].
  destruct (Ascii.eqb x c); simpl; [done|]. apply IH.
Qed.

Lemma rfind_from_last c a post i last :
  has_char c post = false →
  rfind_from c (a +:+ String c post) i last = (i + Z.of_nat (String.length a))%Z.
Proof.
  intros Hpost. revert i last. induction a as [|x a IH]; intros i last;
    rewrite ?append_nil_l, ?append_cons; simpl.
  - rewrite Ascii.eqb_refl, rfind_from_absent by done. lia.
  - rewrite IH. lia.
Qed.

(** Where [rfind] points there is the character looked for. *)
Lemma rfind_from_spec c s i last :
  (rfind_from c s i last = last ∧ has_char c s = false)
  ∨ ((i ≤ rfind_from c s i last < i + Z.of_nat (String.length s))%Z
     ∧ String.get (Z.to_nat (rfind_from c s i last - i)) s = Some c).
Proof.
  revert i last. induction s as [|x s IH]; intros i last; simpl.
  - by left.
  - destruct (IH (i + 1)%Z (if Ascii.eqb x c then i else last)) as [[Hr Hno]|[Hr Hget]].
    + rewrite Hr. destruct (Ascii.eqb x c) eqn:E; simpl.
      * right. split; [lia|]. rewrite Z.sub_diag. simpl.
        apply Ascii.eqb_eq in E. by subst.
      * by left.
    + right. split; [lia|].
      set (r := rfind_from c s (i + 1) (if Ascii.eqb x c then i else last)) in *.
      replace (Z.to_nat (r - i)) with (S (Z.to_nat (r - (i + 1)))) by lia.
      done.
Qed.

Lemma substring_one s n c :
  String.get n s = Some c → String.substring n 1 s = String c "".
Proof.
  revert n. induction s as [|x s IH]; intros [|n]; simpl; try done.
  - intros [= ->]. by destruct s.
  - apply IH.
Qed.

Lemma substring_middle pre m post :
  String.substring (String.length pre) (String.length m) (pre +:+ m +:+ post) = m.
Proof.
  induction pre as [|x pre IH]; rewrite ?append_nil_l, ?append_cons; simpl; [|done].
  induction m as [|y m IHm]; rewrite ?append_nil_l, ?append_cons; simpl.
  - by destruct post.
  - by rewrite IHm.
Qed.

Ltac ltb_cases :=
  repeat match goal with
    | |- context [(?a <? 0)%Z] => destruct (Z.ltb_spec a 0)
    end;
  repeat match goal with
    | |- context [(?a <? ?b)%Z] => destruct (Z.ltb_spec a b)
    end.

Lemma py_slice_middle pre m post :
  m ≠ "" →
  py_slice (pre +:+ m +:+ post)
    (Z.of_nat (String.length pre))
    (Z.of_nat (String.length pre + String.length m)) = m.
Proof.
  intros Hm. unfold py_slice, clamp_index. rewrite !length_append.
  assert (0 < String.length m)%nat by (destruct m; [done|simpl; lia]).
  ltb_cases; try (exfalso; lia).
  replace (Z.to_nat _) with (String.length pre) by lia.
  replace (Z.to_nat _) with (String.length m) by lia.
  apply substring_middle.
Qed.

Lemma braces_assoc pre mid post :
  pre +:+ String "{" (mid +:+ String "}" post)
  = pre +:+ ("{" +:+ mid +:+ "}") +:+ post.
Proof.
  change ("{" +:+ mid +:+ "}") with (String "{" (mid +:+ "}")).
  rewrite append_cons, append_assoc. reflexivity.
Qed.

(** The slice of a text around its first opening and last closing brace. *)
Lemma brace_slice_between pre mid post :
  has_char "{" pre = false → has_char "}" post = false →
  brace_slice (pre +:+ "{" +:+ mid +:+ "}" +:+ post) = "{" +:+ mid +:+ "}".
Proof.
  intros Hpre Hpost. unfold brace_slice, find, rfind.
  change (pre +:+ "{" +:+ mid +:+ "}" +:+ post)
    with (pre +:+ String "{" (mid +:+ String "}" post)).
  rewrite find_from_first by done.
  assert (rfind_from "}" (pre +:+ String "{" (mid +:+ String "}" post)) 0 (-1)
          = (0 + Z.of_nat (String.length (pre +:+ String "{" mid)))%Z) as ->.
  { rewrite <- (rfind_from_last "}" _ post 0 (-1)) by done.
    by rewrite append_assoc. }
  rewrite braces_assoc.
  rewrite <- (py_slice_middle pre ("{" +:+ mid +:+ "}") post) at 2 by done.
  f_equal; rewrite ?length_append; simpl; rewrite ?length_append; simpl; lia.
Qed.

(** Without an opening brace the slice is empty or a lone closing brace. *)
Lemma brace_slice_no_open raw :
  has_char "{" raw = false → brace_slice raw = "" ∨ brace_slice raw = "}".
Proof.
  intros Hno. unfold brace_slice, find, rfind.
  rewrite find_from_absent by done.
  unfold py_slice, clamp_index.
  destruct (rfind_from_spec "}" raw 0 (-1)) as [[-> _]|[Hr Hget]].
  - left. ltb_cases; try done; exfalso; lia.
  - set (r := rfind_from "}" raw 0 (-1)) in *.
    ltb_cases; try (by left); try (exfalso; lia).
    right.
    replace (Z.to_nat (0 `max` (Z.of_nat (String.length raw) + -1)))
      with (Z.to_nat (r - 0)) by lia.
    replace (Z.to_nat ((r + 1) `min` Z.of_nat (String.length raw) - _))
      with 1%nat by lia.
    by apply substring_one.
Qed.

(** The first opening brace after the last closing one: nothing is left. *)
Lemma brace_slice_crossed pre post :
  has_char "{" pre = false → has_char "}" post = false →
  brace_slice (pre +:+ "{" +:+ post) = "".
Proof.
  intros Hpre Hpost. unfold brace_slice, find, rfind.
  change (pre +:+ "{" +:+ post) with (pre +:+ String "{" post).
  rewrite find_from_first by done.
  unfold py_slice, clamp_index.
  destruct (rfind_from_spec "}" (pre +:+ String "{" post) 0 (-1))
    as [[-> _]|[Hr Hget]].
  - ltb_cases; try done; exfalso; lia.
  - set (r := rfind_from "}" (pre +:+ String "{" post) 0 (-1)) in *.
    destruct (decide (r < Z.of_nat (String.length pre))%Z) as [Hlt|Hge].
    + ltb_cases; try done; exfalso; lia.
    + exfalso. revert Hget. rewrite Z.sub_0_r.
      replace (Z.to_nat r) with (String.length pre + (Z.to_nat r - String.length pre))%nat
        by lia.
      generalize (Z.to_nat r - String.length pre)%nat as n. clear -Hpost.
      induction pre as [|x pre IH]; rewrite ?append_nil_l, ?append_cons; simpl; [|done].
      intros [|n]; [done|]. revert n.
      induction post as [|y post IHp]; intros n; simpl in *; [by destruct n|].
      apply orb_false_iff in Hpost as [Hy Hpost].
      destruct n as [|n]; [|by apply IHp].
      intros [= ->]. by rewrite Ascii.eqb_refl in Hy.
Qed.

(** ** The decoder never runs out of fuel *)

Lemma skip_ws_length s : String.length (skip_ws s) ≤ String.length s.
Proof.
  induction s as [|c s IH]; simpl; [done|].
  destruct (is_ws c); simpl; lia.
Qed.

Lemma pcons_ok {A} (a : A) r l rest :
  pcons a r = POk l rest → ∃ l', r = POk l' rest ∧ l = a :: l'.
Proof. destruct r; simpl; [|done..]. intros [= <- <-]. eauto. Qed.

Lemma pmap_ok {A B} (f : A → B) r b rest :
  pmap f r = POk b rest → ∃ a, r = POk a rest ∧ b = f a.
Proof. destruct r; simpl; [|done..]. intros [= <- <-]. eauto. Qed.

Lemma pmap_fuel {A B} (f : A → B) r : pmap f r = PFuel → r = PFuel.
Proof. by destruct r. Qed.

Lemma pmap_raise {A B} (f : A → B) r e : pmap f r = PRaise e → r = PRaise e.
Proof. destruct r; simpl; try done. by intros [= ->]. Qed.

Lemma scan_units_shorter n s us rest :
  String.length s < n → scan_units s = POk us rest →
  String.length rest < String.length s.
Proof.
  revert s us rest. induction n as [|n IH]; intros s us rest Hn; [lia|].
  destruct s as [|c s]; simpl; [done|].
  destruct (Ascii.eqb c "034"); [intros [= <- <-]; lia|].
  destruct (Ascii.eqb c "\").
  - destruct s as [|e s]; [done|].
    destruct (Ascii.eqb e "u").
    + destruct s as [|h1 [|h2 [|h3 [|h4 s]]]]; try done.
      destruct (hex4 h1 h2 h3 h4); [|done].
      intros (l' & Hl & _)%pcons_ok. apply IH in Hl; simpl in *; lia.
    + destruct (escape_char e); [|done].
      intros (l' & Hl & _)%pcons_ok. apply IH in Hl; simpl in *; lia.
  - destruct (N_of_ascii c <? 32)%N; [done|].
    intros (l' & Hl & _)%pcons_ok. apply IH in Hl; simpl in *; lia.
Qed.

Lemma scanstring_shorter s x rest :
  scanstring s = POk x rest → String.length rest < String.length s.
Proof.
  unfold scanstring. intros (us & Hus & _)%pmap_ok.
  eapply (scan_units_shorter (S (String.length s))); [lia|exact Hus].
Qed.

Lemma scanstring_fuel s : scanstring s ≠ PFuel.
Proof.
  unfold scanstring. intros H%pmap_fuel. revert H.
  assert (∀ n s, String.length s < n → scan_units s ≠ PFuel) as Hno.
  { clear. induction n as [|n IH]; intros s Hn; [lia|].
    destruct s as [|c s]; simpl; [done|].
    destruct (Ascii.eqb c "034"); [done|].
    destruct (Ascii.eqb c "\").
    - destruct s as [|e s]; [done|].
      destruct (Ascii.eqb e "u").
      + destruct s as [|h1 [|h2 [|h3 [|h4 s]]]]; try done.
        destruct (hex4 h1 h2 h3 h4); [|done].
        unfold pcons. intros H%pmap_fuel. revert H. apply IH. simpl in *. lia.
      + destruct (escape_char e); [|done].
        unfold pcons. intros H%pmap_fuel. revert H. apply IH. simpl in *. lia.
    - destruct (N_of_ascii c <? 32)%N; [done|].
      unfold pcons. intros H%pmap_fuel. revert H. apply IH. simpl in *. lia. }
  apply (Hno (S (String.length s))). lia.
Qed.

Lemma scanstring_raise s e : scanstring s ≠ PRaise e.
Proof.
  unfold scanstring. intros H%pmap_raise. revert H.
  assert (∀ n s, String.length s < n → scan_units s ≠ PRaise e) as Hno.
  { clear. induction n as [|n IH]; intros s Hn; [lia|].
    destruct s as [|c s]; simpl; [done|].
    destruct (Ascii.eqb c "034"); [done|].
    destruct (Ascii.eqb c "\").
    - destruct s as [|e' s]; [done|].
      destruct (Ascii.eqb e' "u").
      + destruct s as [|h1 [|h2 [|h3 [|h4 s]]]]; try done.
        destruct (hex4 h1 h2 h3 h4); [|done].
        unfold pcons. intros H%pmap_raise. revert H. apply IH. simpl in *. lia.
      + destruct (escape_char e'); [|done].
        unfold pcons. intros H%pmap_raise. revert H. apply IH. simpl in *. lia.
    - destruct (N_of_ascii c <? 32)%N; [done|].
      unfold pcons. intros H%pmap_raise. revert H. apply IH. simpl in *. lia. }
  apply (Hno (S (String.length s))). lia.
Qed.

Lemma strip_prefix_length p s r :
  strip_prefix p s = Some r →
  String.length s = (String.length p + String.length r)%nat.
Proof.
  revert s. induction p as [|a p IH]; intros s; simpl.
  - by intros [= ->].
  - destruct s as [|b s]; [done|]. destruct (Ascii.eqb a b); [|done].
    intros H%IH. simpl. lia.
Qed.

Lemma span_digits_length s ds r :
  span_digits s = (ds, r) → String.length r ≤ String.length s.
Proof.
  revert ds r. induction s as [|c s IH]; intros ds r; simpl.
  - intros [= <- <-]. done.
  - destruct (is_digit c); [|intros [= <- <-]; simpl; lia].
    destruct (span_digits s) as [ds' r'] eqn:E. intros [= <- <-].
    specialize (IH _ _ eq_refl). lia.
Qed.

Lemma scan_sign_length s neg r :
  scan_sign s = (neg, r) → String.length r ≤ String.length s.
Proof.
  destruct s as [|c s]; simpl; [by intros [= <- <-]|].
  destruct (Ascii.eqb c "-"); intros [= <- <-]; simpl; lia.
Qed.

Lemma scan_int_shorter s ds r :
  scan_int s = Some (ds, r) → String.length r < String.length s.
Proof.
  destruct s as [|c s]; simpl; [done|].
  destruct (is_digit c); [|done].
  destruct (Ascii.eqb c "0"); [intros [= <- <-]; lia|].
  destruct (span_digits s) as [ds' r'] eqn:E. intros [= <- <-].
  apply span_digits_length in E. lia.
Qed.

Lemma scan_frac_length s f r :
  scan_frac s = (f, r) → String.length r ≤ String.length s.
Proof.
  destruct s as [|c s]; simpl; [by intros [= <- <-]|].
  destruct (Ascii.eqb c "."); [|by intros [= <- <-]].
  destruct (span_digits s) as [ds r'] eqn:E. apply span_digits_length in E.
  destruct ds; intros [= <- <-]; simpl; lia.
Qed.

Lemma scan_exp_length s x r :
  scan_exp s = (x, r) → String.length r ≤ String.length s.
Proof.
  destruct s as [|e s]; simpl; [by intros [= <- <-]|].
  destruct (Ascii.eqb e "e" || Ascii.eqb e "E"); [|by intros [= <- <-]].
  destruct s as [|g u].
  - simpl. by intros [= <- <-].
  - destruct (Ascii.eqb g "+" || Ascii.eqb g "-").
    + destruct (span_digits u) as [ds r'] eqn:E. apply span_digits_length in E.
      destruct ds; intros [= <- <-]; simpl; lia.
    + destruct (span_digits (String g u)) as [ds r'] eqn:E.
      apply span_digits_length in E.
      destruct ds; intros [= <- <-]; simpl in *; lia.
Qed.

Lemma scan_number_shorter lim s v r :
  scan_number lim s = Some (POk v r) → String.length r < String.length s.
Proof.
  unfold scan_number.
  destruct (scan_sign s) as [neg s1] eqn:E1. apply scan_sign_length in E1.
  destruct (scan_int s1) as [[ds r1]|] eqn:E2; [|done].
  apply scan_int_shorter in E2.
  destruct (scan_frac r1) as [f r2] eqn:E3. apply scan_frac_length in E3.
  destruct (scan_exp r2) as [x r3] eqn:E4. apply scan_exp_length in E4.
  destruct f, x; try (intros [= <- <-]; lia).
  destruct (over_digit_limit lim ds); [done|]. intros [= <- <-]. lia.
Qed.

Lemma scan_number_fuel lim s : scan_number lim s ≠ Some PFuel.
Proof.
  unfold scan_number.
  destruct (scan_sign s) as [neg s1]. destruct (scan_int s1) as [[ds r1]|]; [|done].
  destruct (scan_frac r1) as [f r2]. destruct (scan_exp r2) as [x r3].
  destruct f, x; try done. by destruct (over_digit_limit lim ds).
Qed.

Lemma scan_number_err lim s : scan_number lim s ≠ Some PErr.
Proof.
  unfold scan_number.
  destruct (scan_sign s) as [neg s1]. destruct (scan_int s1) as [[ds r1]|]; [|done].
  destruct (scan_frac r1) as [f r2]. destruct (scan_exp r2) as [x r3].
  destruct f, x; try done. by destruct (over_digit_limit lim ds).
Qed.

(** The only error of a number is that of an integer with too many
    digits. *)
Lemma scan_number_raise lim s e :
  scan_number lim s = Some (PRaise e) →
  e = ValueError ∧ 0 < int_max_str_digits lim < String.length s.
Proof.
  unfold scan_number.
  destruct (scan_sign s) as [neg s1] eqn:E1. apply scan_sign_length in E1.
  destruct (scan_int s1) as [[ds r1]|] eqn:E2; [|done].
  destruct (scan_frac r1) as [f r2]. destruct (scan_exp r2) as [x r3].
  destruct f, x; try done.
  unfold over_digit_limit.
  destruct (int_max_str_digits lim) as [|n] eqn:Hn; [done|].
  case_bool_decide as Hlong; [|done]. intros [= <-]. split; [done|].
  split; [lia|].
  assert (String.length ds ≤ String.length s1); [|lia].
  clear -E2. destruct s1 as [|c s1]; simpl in E2; [done|].
  destruct (is_digit c); [|done].
  destruct (Ascii.eqb c "0"); [injection E2 as <- <-; simpl; lia|].
  destruct (span_digits s1) as [ds' r'] eqn:E. injection E2 as <- <-.
  simpl. assert (String.length ds' ≤ String.length s1); [|lia].
  clear -E. revert ds' r' E. induction s1 as [|c s1 IH]; intros ds' r'; simpl.
  - by intros [= <- <-].
  - destruct (is_digit c); [|by intros [= <- <-]; simpl; lia].
    destruct (span_digits s1) as [ds'' r''] eqn:E'. intros [= <- <-].
    specialize (IH _ _ eq_refl). simpl. lia.
Qed.

Lemma scan_atom_shorter lim s v r :
  scan_atom lim s = POk v r → String.length r < String.length s.
Proof.
  unfold scan_atom.
  repeat match goal with
    | |- context [strip_prefix ?p s] =>
        let E := fresh "E" in
        destruct (strip_prefix p s) eqn:E;
        [apply strip_prefix_length in E; intros [= <- <-]; simpl in E; lia|]
    | |- context [scan_number lim s] =>
        let E := fresh "E" in
        destruct (scan_number lim s) as [?|] eqn:E;
        [intros ->; by apply scan_number_shorter in E|]
    end.
  done.
Qed.

Lemma scan_atom_fuel lim s : scan_atom lim s ≠ PFuel.
Proof.
  unfold scan_atom.
  repeat match goal with
    | |- context [strip_prefix ?p s] => destruct (strip_prefix p s); [done|]
    | |- context [scan_number lim s] =>
        let E := fresh "E" in
        destruct (scan_number lim s) as [?|] eqn:E;
        [intros ->; by apply scan_number_fuel in E|]
    end.
  done.
Qed.

Lemma scan_atom_raise lim s e :
  scan_atom lim s = PRaise e →
  e = ValueError ∧ 0 < int_max_str_digits lim < String.length s.
Proof.
  unfold scan_atom.
  repeat match goal with
    | |- context [strip_prefix ?p s] => destruct (strip_prefix p s); [done|]
    | |- context [scan_number lim s] =>
        let E := fresh "E" in
        destruct (scan_number lim s) as [?|] eqn:E;
        [intros ->; by apply scan_number_raise in E|]
    end.
  done.
Qed.

Lemma scan_shorter lim fuel :
  (∀ s v r,
     scan_once lim fuel s = POk v r → String.length r < String.length s)
  ∧ (∀ s acc d r,
       scan_members lim fuel s acc = POk d r →
       String.length r < String.length s)
  ∧ (∀ s l r,
       scan_elements lim fuel s = POk l r →
       String.length r < String.length s).
Proof.
  induction fuel as [|fuel (IHo & IHm & IHe)]; [by repeat split|].
  split; [|split].
  - intros s v r. cbn [scan_once].
    destruct s as [|c s]; [done|].
    destruct (Ascii.eqb c "034").
    { intros (x & Hx%scanstring_shorter & _)%pmap_ok. simpl. lia. }
    destruct (Ascii.eqb c "{").
    { pose proof (skip_ws_length s) as Hws.
      destruct (skip_ws s) as [|c1 r1]; [done|].
      destruct (Ascii.eqb c1 "}"); [intros [= <- <-]; simpl in *; lia|].
      destruct (Ascii.eqb c1 "034"); [|done].
      intros (x & Hx%IHm & _)%pmap_ok. simpl in *. lia. }
    destruct (Ascii.eqb c "[").
    { pose proof (skip_ws_length s) as Hws.
      destruct (skip_ws s) as [|c1 r1]; [done|].
      destruct (Ascii.eqb c1 "]"); [intros [= <- <-]; simpl in *; lia|].
      intros (x & Hx%IHe & _)%pmap_ok. simpl in *. lia. }
    apply scan_atom_shorter.
  - intros s acc d r. cbn [scan_members].
    destruct (scanstring s) as [key r1| | |] eqn:Hkey; [|done..].
    apply scanstring_shorter in Hkey.
    pose proof (skip_ws_length r1) as Hws1.
    destruct (skip_ws r1) as [|c2 r2]; [done|].
    destruct (Ascii.eqb c2 ":"); [|done].
    pose proof (skip_ws_length r2) as Hws2.
    destruct (scan_once lim fuel (skip_ws r2)) as [value r3| | |] eqn:Hval;
      [|done..].
    apply IHo in Hval.
    pose proof (skip_ws_length r3) as Hws3.
    destruct (skip_ws r3) as [|c4 r4]; [done|].
    destruct (Ascii.eqb c4 "}"); [intros [= <- <-]; simpl in *; lia|].
    destruct (Ascii.eqb c4 ","); [|done].
    pose proof (skip_ws_length r4) as Hws4.
    destruct (skip_ws r4) as [|c5 r5]; [done|].
    destruct (Ascii.eqb c5 "034"); [|done].
    intros Hrec%IHm. simpl in *. lia.
  - intros s l r. cbn [scan_elements].
    destruct (scan_once lim fuel s) as [value r1| | |] eqn:Hval; [|done..].
    apply IHo in Hval.
    pose proof (skip_ws_length r1) as Hws1.
    destruct (skip_ws r1) as [|c2 r2]; [done|].
    destruct (Ascii.eqb c2 "]"); [intros [= <- <-]; simpl in *; lia|].
    destruct (Ascii.eqb c2 ","); [|done].
    pose proof (skip_ws_length r2) as Hws2.
    intros (l' & Hrec%IHe & _)%pcons_ok. simpl in *. lia.
Qed.

Lemma scan_adequate lim fuel :
  (∀ s, 2 * String.length s + 1 ≤ fuel → scan_once lim fuel s ≠ PFuel)
  ∧ (∀ s acc,
       2 * String.length s + 1 ≤ fuel → scan_members lim fuel s acc ≠ PFuel)
  ∧ (∀ s,
       2 * String.length s + 2 ≤ fuel → scan_elements lim fuel s ≠ PFuel).
Proof.
  induction fuel as [|fuel (IHo & IHm & IHe)].
  { repeat split; intros; lia. }
  split; [|split].
  - intros s Hf. cbn [scan_once].
    destruct s as [|c s]; [done|]. simpl in Hf.
    destruct (Ascii.eqb c "034").
    { intros H%pmap_fuel. by apply scanstring_fuel in H. }
    destruct (Ascii.eqb c "{").
    { pose proof (skip_ws_length s) as Hws.
      destruct (skip_ws s) as [|c1 r1]; [done|].
      destruct (Ascii.eqb c1 "}"); [done|].
      destruct (Ascii.eqb c1 "034"); [|done].
      intros H%pmap_fuel. revert H. apply IHm. simpl in *. lia. }
    destruct (Ascii.eqb c "[").
    { pose proof (skip_ws_length s) as Hws.
      destruct (skip_ws s) as [|c1 r1]; [done|].
      destruct (Ascii.eqb c1 "]"); [done|].
      intros H%pmap_fuel. revert H. apply IHe. simpl in *. lia. }
    apply scan_atom_fuel.
  - intros s acc Hf. cbn [scan_members].
    destruct (scanstring s) as [key r1| | |] eqn:Hkey; [|done| |done].
    2:{ by apply scanstring_fuel in Hkey. }
    apply scanstring_shorter in Hkey.
    pose proof (skip_ws_length r1) as Hws1.
    destruct (skip_ws r1) as [|c2 r2]; [done|].
    destruct (Ascii.eqb c2 ":"); [|done].
    pose proof (skip_ws_length r2) as Hws2.
    destruct (scan_once lim fuel (skip_ws r2)) as [value r3| | |] eqn:Hval;
      [|done| |done].
    2:{ exfalso. revert Hval. apply IHo. simpl in *. lia. }
    apply (proj1 (scan_shorter lim fuel)) in Hval.
    pose proof (skip_ws_length r3) as Hws3.
    destruct (skip_ws r3) as [|c4 r4]; [done|].
    destruct (Ascii.eqb c4 "}"); [done|].
    destruct (Ascii.eqb c4 ","); [|done].
    pose proof (skip_ws_length r4) as Hws4.
    destruct (skip_ws r4) as [|c5 r5]; [done|].
    destruct (Ascii.eqb c5 "034"); [|done].
    apply IHm. simpl in *. lia.
  - intros s Hf. cbn [scan_elements].
    destruct (scan_once lim fuel s) as [value r1| | |] eqn:Hval; [|done| |done].
    2:{ exfalso. revert Hval. apply IHo. lia. }
    apply (proj1 (scan_shorter lim fuel)) in Hval.
    pose proof (skip_ws_length r1) as Hws1.
    destruct (skip_ws r1) as [|c2 r2]; [done|].
    destruct (Ascii.eqb c2 "]"); [done|].
    destruct (Ascii.eqb c2 ","); [|done].
    pose proof (skip_ws_length r2) as Hws2.
    unfold pcons. intros H%pmap_fuel. revert H. apply IHe. simpl in *. lia.
Qed.

(** What the scanner raises besides a decoding error is the
    [ValueError] of an integer with too many digits, and then the text
    has more characters than an integer may have digits. *)
Lemma scan_raises lim fuel :
  (∀ s e,
     scan_once lim fuel s = PRaise e →
     e = ValueError ∧ 0 < int_max_str_digits lim < String.length s)
  ∧ (∀ s acc e,
       scan_members lim fuel s acc = PRaise e →
       e = ValueError ∧ 0 < int_max_str_digits lim < String.length s)
  ∧ (∀ s e,
       scan_elements lim fuel s = PRaise e →
       e = ValueError ∧ 0 < int_max_str_digits lim < String.length s).
Proof.
  induction fuel as [|fuel (IHo & IHm & IHe)]; [by repeat split|].
  split; [|split].
  - intros s e. cbn [scan_once].
    destruct s as [|c s]; [done|].
    destruct (Ascii.eqb c "034").
    { intros H%pmap_raise. by apply scanstring_raise in H. }
    destruct (Ascii.eqb c "{").
    { pose proof (skip_ws_length s) as Hws.
      destruct (skip_ws s) as [|c1 r1]; [done|].
      destruct (Ascii.eqb c1 "}"); [done|].
      destruct (Ascii.eqb c1 "034"); [|done].
      intros [-> H]%pmap_raise%IHm. simpl in *. split; [done|lia]. }
    destruct (Ascii.eqb c "[").
    { pose proof (skip_ws_length s) as Hws.
      destruct (skip_ws s) as [|c1 r1]; [done|].
      destruct (Ascii.eqb c1 "]"); [done|].
      intros [-> H]%pmap_raise%IHe. simpl in *. split; [done|lia]. }
    apply scan_atom_raise.
  - intros s acc e. cbn [scan_members].
    destruct (scanstring s) as [key r1| | |e'] eqn:Hkey; [|done..|].
    2:{ by apply scanstring_raise in Hkey. }
    apply scanstring_shorter in Hkey.
    pose proof (skip_ws_length r1) as Hws1.
    destruct (skip_ws r1) as [|c2 r2]; [done|].
    destruct (Ascii.eqb c2 ":"); [|done].
    pose proof (skip_ws_length r2) as Hws2.
    destruct (scan_once lim fuel (skip_ws r2)) as [value r3| | |e'] eqn:Hval;
      [|done..|].
    2:{ intros [= <-]. apply IHo in Hval as [-> H]. simpl in *. split; [done|lia]. }
    apply (proj1 (scan_shorter lim fuel)) in Hval.
    pose proof (skip_ws_length r3) as Hws3.
    destruct (skip_ws r3) as [|c4 r4]; [done|].
    destruct (Ascii.eqb c4 "}"); [done|].
    destruct (Ascii.eqb c4 ","); [|done].
    pose proof (skip_ws_length r4) as Hws4.
    destruct (skip_ws r4) as [|c5 r5]; [done|].
    destruct (Ascii.eqb c5 "034"); [|done].
    intros [-> H]%IHm. simpl in *. split; [done|lia].
  - intros s e. cbn [scan_elements].
    destruct (scan_once lim fuel s) as [value r1| | |e'] eqn:Hval; [|done..|].
    2:{ intros [= <-]. by apply IHo in Hval. }
    apply (proj1 (scan_shorter lim fuel)) in Hval.
    pose proof (skip_ws_length r1) as Hws1.
    destruct (skip_ws r1) as [|c2 r2]; [done|].
    destruct (Ascii.eqb c2 "]"); [done|].
    destruct (Ascii.eqb c2 ","); [|done].
    pose proof (skip_ws_length r2) as Hws2.
    unfold pcons.
    intros [-> H]%pmap_raise%IHe. simpl in *. split; [done|lia].
Qed.

(** The fuel [json_loads] gives the scanner is enough for every text. *)
Lemma decode_fuel_enough lim s : decode lim s ≠ OutOfFuel.
Proof.
  unfold decode.
  destruct (scan_once lim (loads_fuel s) (skip_ws s)) as [v rest| | |e] eqn:E.
  - by destruct (skip_ws rest).
  - done.
  - exfalso. revert E. apply (scan_adequate lim (loads_fuel s)).
    pose proof (skip_ws_length s). unfold loads_fuel. lia.
  - done.
Qed.

(** [json.loads] returns a value or raises one of three errors:
    [RecursionError] exactly on the texts the interpreter has no
    recursion left for, and [ValueError] only under a limit on the digits
    of an integer, on texts with more characters than that limit. *)
Lemma json_loads_total lim s :
  (∃ v, json_loads lim s = Ok v)
  ∨ json_loads lim s = Raise JSONDecodeError
  ∨ (json_loads lim s = Raise RecursionError ∧ recursion_exhausted lim s = true)
  ∨ (json_loads lim s = Raise ValueError
     ∧ 0 < int_max_str_digits lim < String.length s).
Proof.
  unfold json_loads. pose proof (decode_fuel_enough lim s) as Hfuel.
  destruct (recursion_exhausted lim s); [right; right; left; auto|].
  unfold decode in *.
  destruct (scan_once lim (loads_fuel s) (skip_ws s)) as [v rest| | |e] eqn:E.
  - destruct (skip_ws rest); [left; eauto|by right; left].
  - by right; left.
  - done.
  - pose proof (skip_ws_length s) as Hws.
    apply (scan_raises lim (loads_fuel s)) in E as [-> H].
    right. right. right. split; [done|lia].
Qed.

(** ** Decoded dictionaries have no repeated key *)

Lemma dict_keys_set (d : dict) k v :
  dict_keys (dict_set d k v)
  = if bool_decide (k ∈ dict_keys d) then dict_keys d else dict_keys d ++ [k].
Proof.
  unfold dict_keys. induction d as [|[k' v'] d IH]; simpl; [done|].
  destruct (String.eqb k' k) eqn:E.
  - apply String.eqb_eq in E. subst. simpl.
    rewrite bool_decide_eq_true_2 by left. done.
  - apply String.eqb_neq in E. simpl. rewrite IH.
    destruct (decide (k ∈ map fst d)) as [Hin|Hout].
    + rewrite !bool_decide_eq_true_2; [done|by right|done].
    + rewrite !bool_decide_eq_false_2; [done| |done].
      intros [?|?]%elem_of_cons; congruence.
Qed.

Lemma dict_set_wf (d : dict) k v : dict_wf d → dict_wf (dict_set d k v).
Proof.
  unfold dict_wf. intros Hwf. rewrite dict_keys_set. case_bool_decide; [done|].
  apply NoDup_app. split; [done|]. split; [|apply NoDup_singleton].
  intros x Hx ->%list_elem_of_singleton. done.
Qed.

Lemma json_wf_object_set (d : dict) k v :
  json_wf (JObject d) → json_wf v → json_wf (JObject (dict_set d k v)).
Proof.
  intros [Hnd Hall] Hv. split; [by apply (dict_set_wf d k v)|].
  clear Hnd. induction d as [|[k' v'] d IH]; simpl in *; [done|].
  destruct Hall as [Hv' Hall].
  destruct (String.eqb k' k); simpl; [done|]. split; [done|by apply IH].
Qed.

Lemma scan_atom_wf lim s v r : scan_atom lim s = POk v r → json_wf v.
Proof.
  unfold scan_atom, scan_number.
  repeat match goal with
    | |- context [strip_prefix ?p s] =>
        destruct (strip_prefix p s); [by intros [= <- <-]|]
    end.
  destruct (scan_sign s) as [neg s1]. destruct (scan_int s1) as [[ds r1]|].
  - destruct (scan_frac r1) as [f r2]. destruct (scan_exp r2) as [x r3].
    destruct f, x; try by intros [= <- <-].
    destruct (over_digit_limit lim ds); [done|]. by intros [= <- <-].
  - repeat match goal with
      | |- context [strip_prefix ?p s] =>
          destruct (strip_prefix p s); [by intros [= <- <-]|]
      end.
    done.
Qed.

Lemma scan_wf lim fuel :
  (∀ s v r, scan_once lim fuel s = POk v r → json_wf v)
  ∧ (∀ s acc d r,
       scan_members lim fuel s acc = POk d r →
       json_wf (JObject acc) → json_wf (JObject d))
  ∧ (∀ s l r, scan_elements lim fuel s = POk l r → json_wf (JList l)).
Proof.
  induction fuel as [|fuel (IHo & IHm & IHe)]; [by repeat split|].
  split; [|split].
  - intros s v r. cbn [scan_once].
    destruct s as [|c s]; [done|].
    destruct (Ascii.eqb c "034").
    { by intros (x & _ & ->)%pmap_ok. }
    destruct (Ascii.eqb c "{").
    { destruct (skip_ws s) as [|c1 r1]; [done|].
      destruct (Ascii.eqb c1 "}"); [intros [= <- <-]; split; [constructor|done]|].
      destruct (Ascii.eqb c1 "034"); [|done].
      intros (x & Hx & ->)%pmap_ok. eapply IHm; [exact Hx|].
      split; [constructor|done]. }
    destruct (Ascii.eqb c "[").
    { destruct (skip_ws s) as [|c1 r1]; [done|].
      destruct (Ascii.eqb c1 "]"); [by intros [= <- <-]|].
      intros (x & Hx & ->)%pmap_ok. by eapply IHe. }
    apply scan_atom_wf.
  - intros s acc d r. cbn [scan_members].
    destruct (scanstring s) as [key r1| | |]; [|done..].
    destruct (skip_ws r1) as [|c2 r2]; [done|].
    destruct (Ascii.eqb c2 ":"); [|done].
    destruct (scan_once lim fuel (skip_ws r2)) as [value r3| | |] eqn:Hval;
      [|done..].
    apply IHo in Hval.
    destruct (skip_ws r3) as [|c4 r4]; [done|].
    destruct (Ascii.eqb c4 "}").
    { intros [= <- <-] Hacc. by apply json_wf_object_set. }
    destruct (Ascii.eqb c4 ","); [|done].
    destruct (skip_ws r4) as [|c5 r5]; [done|].
    destruct (Ascii.eqb c5 "034"); [|done].
    intros Hrec Hacc. eapply IHm; [exact Hrec|]. by apply json_wf_object_set.
  - intros s l r. cbn [scan_elements].
    destruct (scan_once lim fuel s) as [value r1| | |] eqn:Hval; [|done..].
    apply IHo in Hval.
    destruct (skip_ws r1) as [|c2 r2]; [done|].
    destruct (Ascii.eqb c2 "]"); [by intros [= <- <-]|].
    destruct (Ascii.eqb c2 ","); [|done].
    intros (l' & Hrec & ->)%pcons_ok. split; [done|]. by eapply IHe.
Qed.

Lemma json_loads_wf lim s v : json_loads lim s = Ok v → json_wf v.
Proof.
  unfold json_loads, decode. destruct (recursion_exhausted lim s); [done|].
  destruct (scan_once lim (loads_fuel s) (skip_ws s))
    as [v' rest| | |] eqn:E; [|done..].
  destruct (skip_ws rest); [|done]. intros [= <-].
  by eapply (scan_wf lim (loads_fuel s)).
Qed.

Lemma json_wf_lookup (d : dict) k v :
  json_wf (JObject d) → dict_get d k = Some v → json_wf v.
Proof.
  intros [_ Hall]. induction d as [|[k' v'] d IH]; simpl in *; [done|].
  destruct Hall as [Hv' Hall].
  destruct (String.eqb k' k); [by intros [= <-]|by apply IH].
Qed.

(** The header and the items of a decoded extraction result are
    dictionaries without a repeated key. *)
Lemma decoded_extraction_wf lim raw data header items :
  parse_response lim raw = Ok data →
  extraction_result data header items →
  dict_wf header ∧ Forall dict_wf items.
Proof.
  intros Hparse%json_loads_wf [Hh Hi].
  destruct data as [| | | | | |d]; try done. simpl in Hh, Hi.
  destruct (dict_get d "header") as [h|] eqn:Eh; [|done].
  destruct (dict_get d "items") as [its|] eqn:Ei; [|done].
  injection Hh as ->. injection Hi as ->.
  apply (json_wf_lookup d) in Eh; [|done]. apply (json_wf_lookup d) in Ei; [|done].
  split; [apply Eh|].
  clear -Ei. induction items as [|it items IH]; [constructor|].
  destruct Ei as [[Hit _] Hrest]. constructor; [exact Hit|by apply IH].
Qed.



(** ** Document loader *)

Lemma concat_empty_cons x l : String.concat "" (x :: l) = x +:+ String.concat "" l.
Proof. destruct l; simpl; [by rewrite append_nil_r|done]. Qed.

Lemma extract_loop (pages : pdf) acc :
  fold_left
    (λ text_all txt,
       if truthy txt then text_all +:+ (default "" txt +:+ nl) else text_all)
    pages acc
  = acc +:+ String.concat "" (map (λ t, t +:+ nl) (page_texts pages)).
Proof.
  revert acc. induction pages as [|txt pages IH]; intros acc.
  - simpl. by rewrite append_nil_r.
  - cbn [fold_left]. rewrite IH. unfold page_texts. cbn [omap list_omap].
    destruct (truthy txt) eqn:E; [|done].
    destruct txt as [t|]; [|done]. cbn [default map].
    by rewrite concat_empty_cons, !append_assoc.
Qed.

Lemma concat_newlines (ts : list string) :
  ts ≠ [] →
  String.concat "" (map (λ t, t +:+ nl) ts) = String.concat nl ts +:+ nl.
Proof.
  induction ts as [|t ts IH]; [done|]. intros _.
  cbn [map]. rewrite concat_empty_cons.
  destruct ts as [|t' ts]; [simpl; by rewrite append_nil_r|].
  rewrite IH by done.
  change (String.concat nl (t :: t' :: ts))
    with (t +:+ nl +:+ String.concat nl (t' :: ts)).
  by rewrite !append_assoc.
Qed.

Lemma page_texts_none (pages : pdf) :
  Forall (λ txt, truthy txt = false) pages → page_texts pages = [].
Proof.
  unfold page_texts. induction 1 as [|txt pages Htxt Hall IH]; [done|].
  cbn [omap list_omap]. rewrite Htxt. exact IH.
Qed.

(** C5.  The loader goes through the pages in order: a page that
    yields nothing or the empty text adds nothing, and a page that yields
    a text adds that text followed by a newline.  So the result for pages
    that all yield text is their texts, each followed by a newline: the
    texts are separated by a newline, and the last one is followed by one
    as well.  When no page yields text, in particular when there is no
    page, the result is the empty string.  The loader is a total
    function: it raises nothing. *)
Theorem extract_pdf_text_spec :
  extract_pdf_text [] = ""
  ∧ (∀ pages, extract_pdf_text (None :: pages) = extract_pdf_text pages)
  ∧ (∀ pages, extract_pdf_text (Some "" :: pages) = extract_pdf_text pages)
  ∧ (∀ c t pages,
       extract_pdf_text (Some (String c t) :: pages)
       = String c t +:+ nl +:+ extract_pdf_text pages)
  ∧ (∀ ts,
       Forall (λ t, t ≠ "") ts →
       extract_pdf_text (map Some ts) = String.concat "" (map (λ t, t +:+ nl) ts)
       ∧ (ts ≠ [] → extract_pdf_text (map Some ts) = String.concat nl ts +:+ nl))
  ∧ (∀ pages,
       Forall (λ page, page = None ∨ page = Some "") pages →
       extract_pdf_text pages = "").
Proof.
  assert (∀ pages, extract_pdf_text pages
                   = String.concat "" (map (λ t, t +:+ nl) (page_texts pages))) as Heq.
  { intros pages. unfold extract_pdf_text. by rewrite extract_loop. }
  assert (∀ ts, Forall (λ t, t ≠ "") ts → page_texts (map Some ts) = ts) as Htexts.
  { intros ts Hts. unfold page_texts. induction Hts as [|t ts Ht Hts IH]; [done|].
    cbn [map omap list_omap]. destruct t as [|c t]; [done|].
    cbn [truthy]. by rewrite IH. }
  split; [done|]. split; [|split; [|split; [|split]]].
  - intros pages. by rewrite !Heq.
  - intros pages. by rewrite !Heq.
  - intros c t pages. rewrite !Heq. unfold page_texts. cbn [omap list_omap truthy map].
    by rewrite concat_empty_cons, append_assoc.
  - intros ts Hts. rewrite Heq, (Htexts ts Hts). split; [done|].
    intros Hne. by apply concat_newlines.
  - intros pages Hall. rewrite Heq, page_texts_none; [done|].
    eapply Forall_impl; [exact Hall|]. by intros page [-> | ->].
Qed.

Lemma extract_pdf_text_spec_witness :
  extract_pdf_text [Some "first page"; Some "second page"]
  = "first page" +:+ nl +:+ "second page" +:+ nl
  ∧ extract_pdf_text [Some "first page"; None; Some ""; Some "second page"]
    = "first page" +:+ nl +:+ "second page" +:+ nl
  ∧ extract_pdf_text [None; Some ""; None] = "".
Proof.
  destruct extract_pdf_text_spec as (Hnil & Hnone & Hempty & Htext & Hall & Hblank).
  split; [|split].
  - destruct (Hall ["first page"; "second page"]) as [_ Hsep].
    + repeat constructor; discriminate.
    + exact (Hsep ltac:(discriminate)).
  - rewrite (Htext "f"%char "irst page"), Hnone, Hempty,
      (Htext "s"%char "econd page"), Hnil.
    reflexivity.
  - apply Hblank. repeat (apply Forall_cons; split; [auto|]). apply Forall_nil_2.
Defined.

(** The loader does not merely separate the page texts by a newline: two
    pages [a] and [b] give [a], newline, [b], newline, which is not [a],
    newline, [b]. *)
Lemma extract_pdf_text_not_separated :
  extract_pdf_text [Some "a"; Some "b"] = "a" +:+ nl +:+ "b" +:+ nl
  ∧ extract_pdf_text [Some "a"; Some "b"] ≠ String.concat nl ["a"; "b"].
Proof. split; [reflexivity|discriminate]. Qed.

Lemma extract_structured_data_request w pdf_text pdf_type st :
  trace (extract_structured_data w pdf_text pdf_type st).2
  = trace st ++ [ChatRequest (build_prompt pdf_text pdf_type) 4000 0].
Proof.
  unfold extract_structured_data. rewrite run_emit, run_bind. unfold lift.
  destruct (chat w (build_prompt pdf_text pdf_type)); [|done].
  by destruct (parse_response (limits w) a).
Qed.

(** C9.  Every document type other than [PO] and [GRN] selects the MRN
    schema and the MRN instructions, and the prompt sent to the inference
    service is built from them; the selection is a total function, so no
    document type makes it fail. *)
Theorem other_types_select_mrn (pdf_type : string) :
  (pdf_type ≠ "PO" → pdf_type ≠ "GRN" →
   select_schema pdf_type = (mrn_schema, mrn_instructions)
   ∧ ∀ pdf_text,
       build_prompt pdf_text pdf_type
       = nl +:+ role_statement pdf_type +:+ nl +:+ nl
         +:+ mrn_instructions +:+ nl +:+ nl
         +:+ "Extract data EXACTLY as per the schema." +:+ nl
         +:+ "Return STRICT JSON ONLY." +:+ nl +:+ nl
         +:+ "Schema:" +:+ nl
         +:+ json_dumps mrn_schema 2 +:+ nl +:+ nl
         +:+ "PDF Text:" +:+ nl
         +:+ delimited_text pdf_text +:+ nl)
  ∧ (∀ w pdf_text st,
       trace (extract_structured_data w pdf_text pdf_type st).2
       = trace st ++ [ChatRequest (build_prompt pdf_text pdf_type) 4000 0])
  ∧ select_schema pdf_type
    ∈ [(po_schema, po_instructions); (grn_schema, grn_instructions);
       (mrn_schema, mrn_instructions)].
Proof.
  split.
  - intros Hpo%String.eqb_neq Hgrn%String.eqb_neq.
    assert (select_schema pdf_type = (mrn_schema, mrn_instructions)) as Hsel.
    { unfold select_schema. by rewrite Hpo, Hgrn. }
    split; [done|]. intros pdf_text. unfold build_prompt. by rewrite Hsel.
  - split; [intros; apply extract_structured_data_request|].
    unfold select_schema.
    destruct (String.eqb pdf_type "PO"); [repeat constructor|].
    destruct (String.eqb pdf_type "GRN"); repeat constructor.
Qed.

Lemma other_types_select_mrn_witness :
  select_schema "INVOICE" = (mrn_schema, mrn_instructions).
Proof.
  apply (proj1 (other_types_select_mrn "INVOICE")); discriminate.
Defined.

(** ** Tabular exporter *)







(** ** Prompt *)

Lemma Substring_here x b : Substring x (x +:+ b).
Proof. exists "", b. reflexivity. Qed.

Lemma Substring_skip x a s : Substring x s → Substring x (a +:+ s).
Proof.
  intros (pre & post & ->). exists (a +:+ pre), post. by rewrite append_assoc.
Qed.

Lemma Substring_trans x y z : Substring x y → Substring y z → Substring x z.
Proof.
  intros (p1 & q1 & ->) (p2 & q2 & ->). exists (p2 +:+ p1), (q1 +:+ q2).
  by rewrite !append_assoc.
Qed.

Lemma is_prefix_sound p s : is_prefix p s = true → ∃ post, s = p +:+ post.
Proof.
  revert s. induction p as [|a p IH]; intros s; simpl.
  - intros _. by exists s.
  - destruct s as [|b s]; [done|].
    intros [Hab Hp]%andb_true_iff. apply Ascii.eqb_eq in Hab as ->.
    destruct (IH _ Hp) as [post ->]. by exists post.
Qed.

Lemma contains_sound needle s : contains needle s = true → Substring needle s.
Proof.
  induction s as [|c s IH]; simpl.
  - rewrite orb_false_r. intros [post ->]%is_prefix_sound. apply Substring_here.
  - intros [Hp|Hc]%orb_true_iff.
    + apply is_prefix_sound in Hp as [post ->]. apply Substring_here.
    + apply (Substring_skip _ (String c "")). by apply IH.
Qed.

Ltac substring_tac :=
  repeat first [apply Substring_here | apply Substring_skip].

Ltac fields_tac :=
  repeat first
    [ apply Forall_nil_2
    | apply Forall_cons_2; [apply contains_sound; vm_compute; reflexivity|] ].

Lemma dumps_has_fields :
  Forall (λ f, Substring (dquote +:+ f +:+ dquote) (json_dumps po_schema 2))
    (schema_fields po_schema)
  ∧ Forall (λ f, Substring (dquote +:+ f +:+ dquote) (json_dumps grn_schema 2))
      (schema_fields grn_schema)
  ∧ Forall (λ f, Substring (dquote +:+ f +:+ dquote) (json_dumps mrn_schema 2))
      (schema_fields mrn_schema).
Proof.
  split; [|split].
  - let l := eval vm_compute in (schema_fields po_schema) in
    change (schema_fields po_schema) with l.
    fields_tac.
  - let l := eval vm_compute in (schema_fields grn_schema) in
    change (schema_fields grn_schema) with l.
    fields_tac.
  - let l := eval vm_compute in (schema_fields mrn_schema) in
    change (schema_fields mrn_schema) with l.
    fields_tac.
Qed.

Lemma build_prompt_unfold pdf_text pdf_type :
  build_prompt pdf_text pdf_type
  = nl +:+ role_statement pdf_type +:+ nl +:+ nl
    +:+ (select_schema pdf_type).2 +:+ nl +:+ nl
    +:+ "Extract data EXACTLY as per the schema." +:+ nl
    +:+ "Return STRICT JSON ONLY." +:+ nl +:+ nl
    +:+ "Schema:" +:+ nl
    +:+ json_dumps (select_schema pdf_type).1 2 +:+ nl +:+ nl
    +:+ "PDF Text:" +:+ nl
    +:+ delimited_text pdf_text +:+ nl.
Proof. unfold build_prompt. by destruct (select_schema pdf_type). Qed.

(** C6.  For every document type, so for each of the three, the prompt
    contains: the role statement, which names the document type; the whole
    instruction text selected for the type; the schema selected for the
    type, written as indented JSON, and with it every field name of that
    schema between double quotes; and the PDF text between the markers
    [<<<] and [>>>].  The types [PO], [GRN] and [MRN] select the PO, GRN
    and MRN schema and instructions, every type selects one of these three
    pairs, and the three instruction texts differ from each other. *)
Theorem prompt_contents (pdf_text pdf_type : string) :
  Substring (role_statement pdf_type) (build_prompt pdf_text pdf_type)
  ∧ Substring pdf_type (role_statement pdf_type)
  ∧ Substring (select_schema pdf_type).2 (build_prompt pdf_text pdf_type)
  ∧ Substring (json_dumps (select_schema pdf_type).1 2) (build_prompt pdf_text pdf_type)
  ∧ Forall (λ f, Substring (dquote +:+ f +:+ dquote) (build_prompt pdf_text pdf_type))
      (schema_fields (select_schema pdf_type).1)
  ∧ Substring (delimited_text pdf_text) (build_prompt pdf_text pdf_type)
  ∧ delimited_text pdf_text = "<<<" +:+ nl +:+ pdf_text +:+ nl +:+ ">>>"
  ∧ select_schema "PO" = (po_schema, po_instructions)
  ∧ select_schema "GRN" = (grn_schema, grn_instructions)
  ∧ select_schema "MRN" = (mrn_schema, mrn_instructions)
  ∧ select_schema pdf_type
    ∈ [(po_schema, po_instructions); (grn_schema, grn_instructions);
       (mrn_schema, mrn_instructions)]
  ∧ po_instructions ≠ grn_instructions
  ∧ po_instructions ≠ mrn_instructions
  ∧ grn_instructions ≠ mrn_instructions
  ∧ schema_fields po_schema
    = ["CHAIN"; "SITE"; "STATE"; "Vendor Code"; "vendor name"; "po no";
       "po date"; "DELIVERY DATE"; "Material Description"; "Quantity";
       "total pcs"; "Base Cost"; "Total Base Value"]
  ∧ schema_fields grn_schema = ["GRN no"; "GRN Date"; "Delivered Qty"; "Remarks"]
  ∧ schema_fields mrn_schema = ["MRN no"; "Rejected Amount"].
Proof.
  assert (Substring (json_dumps (select_schema pdf_type).1 2)
            (build_prompt pdf_text pdf_type)) as Hdumps.
  { rewrite build_prompt_unfold. substring_tac. }
  split. { rewrite build_prompt_unfold. substring_tac. }
  split. { unfold role_statement. substring_tac. }
  split. { rewrite build_prompt_unfold. substring_tac. }
  split; [done|].
  split.
  { eapply Forall_impl.
    2:{ intros f Hf. eapply Substring_trans; [exact Hf|exact Hdumps]. }
    destruct dumps_has_fields as (Hpo & Hgrn & Hmrn).
    unfold select_schema.
    destruct (String.eqb pdf_type "PO"); [exact Hpo|].
    destruct (String.eqb pdf_type "GRN"); [exact Hgrn|exact Hmrn]. }
  split. { rewrite build_prompt_unfold. substring_tac. }
  split; [done|].
  do 3 (split; [done|]).
  split.
  { unfold select_schema.
    destruct (String.eqb pdf_type "PO"); [repeat constructor|].
    destruct (String.eqb pdf_type "GRN"); repeat constructor. }
  do 3 (split; [by vm_compute|]).
  by repeat split.
Qed.

(** * Further properties of the script *)

(** ** Secrets and configuration *)

Lemma secret_section secrets section k :
  dict_get secrets "oci" = Some (JObject section) →
  secret secrets k = subscript (JObject section) k.
Proof. intros H. unfold secret. simpl. by rewrite H. Qed.

Lemma secret_found secrets section k v :
  dict_get secrets "oci" = Some (JObject section) →
  dict_get section k = Some v → secret secrets k = Ok v.
Proof. intros H Hk. rewrite (secret_section _ _ _ H). by apply subscript_ok. Qed.

Lemma secret_missing secrets section k :
  dict_get secrets "oci" = Some (JObject section) →
  dict_get section k = None → secret secrets k = Raise (KeyError k).
Proof. intros H Hk. rewrite (secret_section _ _ _ H). by apply subscript_missing. Qed.

Lemma result_bind_ok {A B} (a : A) (f : A → result B) : (Ok a ≫= f) = f a.
Proof. reflexivity. Qed.

Lemma result_bind_raise {A B} e (f : A → result B) : (Raise e ≫= f) = Raise e.
Proof. reflexivity. Qed.

Ltac read_secret Hoci :=
  match goal with
  | H : dict_get ?section ?k = Some ?v |- context [secret ?secrets ?k] =>
      rewrite (secret_found secrets section k v Hoci H), result_bind_ok
  | H : dict_get ?section ?k = None |- context [secret ?secrets ?k] =>
      rewrite (secret_missing secrets section k Hoci H), result_bind_raise
  end.

(** X1.  With a mapping as the [oci] section, the configuration is read
    key by key in the order of the source: the first key that is missing
    is the one the key error names, whatever comes after it; all eight keys
    present is exactly when reading succeeds, and the values are then
    carried over unchanged, [private_key] under the name [key_content].  A
    section that is not a mapping gives a type error. *)
Theorem load_config_reads_in_order (secrets : dict) :
  (∀ section pre k post,
     dict_get secrets "oci" = Some (JObject section) →
     secret_keys = pre ++ k :: post →
     (∀ k', k' ∈ pre → is_Some (dict_get section k')) →
     dict_get section k = None →
     load_config secrets = Raise (KeyError k))
  ∧ (∀ section,
       dict_get secrets "oci" = Some (JObject section) →
       (∀ k, k ∈ secret_keys → is_Some (dict_get section k)) →
       ∃ cfg,
         load_config secrets = Ok cfg
         ∧ dict_keys (oci_config cfg)
           = ["user"; "fingerprint"; "tenancy"; "region"; "key_content"]
         ∧ dict_get (oci_config cfg) "user" = dict_get section "user"
         ∧ dict_get (oci_config cfg) "fingerprint" = dict_get section "fingerprint"
         ∧ dict_get (oci_config cfg) "tenancy" = dict_get section "tenancy"
         ∧ dict_get (oci_config cfg) "region" = dict_get section "region"
         ∧ dict_get (oci_config cfg) "key_content" = dict_get section "private_key"
         ∧ Some (compartment_id cfg) = dict_get section "compartment_id"
         ∧ Some (model_id cfg) = dict_get section "model_id"
         ∧ Some (endpoint cfg) = dict_get section "endpoint")
  ∧ (∀ section cfg,
       dict_get secrets "oci" = Some (JObject section) →
       load_config secrets = Ok cfg →
       ∀ k, k ∈ secret_keys → is_Some (dict_get section k))
  ∧ (∀ v,
       dict_get secrets "oci" = Some v → (∀ section, v ≠ JObject section) →
       load_config secrets = Raise TypeError).
Proof.
  split; [|split; [|split]].
  - intros section pre k post Hoci Hsplit Hpre Hk. unfold load_config.
    assert (∀ k', k' ∈ pre → ∃ v, dict_get section k' = Some v) as Hpre'
      by (intros k' Hin; by apply Hpre).
    unfold secret_keys in Hsplit. clear Hpre.
    repeat (destruct pre as [|k0 pre]; simpl in Hsplit;
            [ injection Hsplit as Hk0 _; subst k; by repeat read_secret Hoci
            | injection Hsplit as Hk0 Hsplit; subst k0;
              let Hhead := fresh "Hhead" in
              let Htail := fresh "Htail" in
              match type of Hpre' with
              | ∀ k', k' ∈ ?x :: ?l → _ =>
                  destruct (Hpre' x ltac:(left)) as [? Hhead];
                  assert (∀ k', k' ∈ l → ∃ v, dict_get section k' = Some v)
                    as Htail by (intros; apply Hpre'; by right);
                  clear Hpre'; rename Htail into Hpre'
              end ]).
    by destruct pre.
  - intros section Hoci Hall.
    assert (∀ k, k ∈ secret_keys → ∃ v, dict_get section k = Some v) as Hall'
      by (intros k Hin; by apply Hall).
    destruct (Hall' "user") as [v1 H1]; [repeat constructor|].
    destruct (Hall' "fingerprint") as [v2 H2]; [repeat constructor|].
    destruct (Hall' "tenancy") as [v3 H3]; [repeat constructor|].
    destruct (Hall' "region") as [v4 H4]; [repeat constructor|].
    destruct (Hall' "private_key") as [v5 H5]; [repeat constructor|].
    destruct (Hall' "compartment_id") as [v6 H6]; [repeat constructor|].
    destruct (Hall' "model_id") as [v7 H7]; [repeat constructor|].
    destruct (Hall' "endpoint") as [v8 H8]; [repeat constructor|].
    eexists. split.
    { unfold load_config. repeat read_secret Hoci. reflexivity. }
    simpl. by rewrite H1, H2, H3, H4, H5, H6, H7, H8.
  - intros section cfg Hoci. unfold load_config.
    destruct (dict_get section "user") eqn:H1; [|by read_secret Hoci].
    destruct (dict_get section "fingerprint") eqn:H2; [|by repeat read_secret Hoci].
    destruct (dict_get section "tenancy") eqn:H3; [|by repeat read_secret Hoci].
    destruct (dict_get section "region") eqn:H4; [|by repeat read_secret Hoci].
    destruct (dict_get section "private_key") eqn:H5; [|by repeat read_secret Hoci].
    destruct (dict_get section "compartment_id") eqn:H6; [|by repeat read_secret Hoci].
    destruct (dict_get section "model_id") eqn:H7; [|by repeat read_secret Hoci].
    destruct (dict_get section "endpoint") eqn:H8; [|by repeat read_secret Hoci].
    intros _ k Hk. unfold secret_keys in Hk.
    repeat (apply elem_of_cons in Hk as [->|Hk]; [by eexists|]).
    by apply elem_of_nil in Hk.
  - intros v Hoci Hnot. unfold load_config, secret. simpl. rewrite Hoci.
    destruct v; try done. by destruct (Hnot d).
Qed.

Lemma load_config_reads_in_order_witness :
  load_config
    [("oci", JObject [("user", JStr "u"); ("fingerprint", JStr "f");
                      ("region", JStr "r")])]
  = Raise (KeyError "tenancy").
Proof.
  apply (proj1 (load_config_reads_in_order _)
           [("user", JStr "u"); ("fingerprint", JStr "f"); ("region", JStr "r")]
           ["user"; "fingerprint"] "tenancy"
           ["region"; "private_key"; "compartment_id"; "model_id"; "endpoint"]).
  - reflexivity.
  - reflexivity.
  - intros k' [->|[->|Hk]%elem_of_cons]%elem_of_cons; [by eexists..|].
    by apply elem_of_nil in Hk.
  - reflexivity.
Defined.

(** ** The script before the button *)

Lemma run_page {B} e (k : () → M (list app_event) B) tr :
  (page e ≫= k) tr = k () (tr ++ [e]).
Proof. reflexivity. Qed.

Lemma load_config_needs_section secrets cfg :
  load_config secrets = Ok cfg → is_Some (dict_get secrets "oci").
Proof.
  unfold load_config, secret. simpl.
  destruct (dict_get secrets "oci"); [by eexists|done].
Qed.

Lemma app_head secrets connect po_file grn_file mrn_file clicked tr :
  is_Some (dict_get secrets "oci") →
  app_py (Ok secrets) connect po_file grn_file mrn_file clicked tr
  = (cfg ← lift (load_config secrets);
     page (CreateClient cfg 10 240);;
     w ← lift (connect cfg);
     run_script (emit (StSubheader "📤 Upload PDFs"));;
     page (FileUploader "Upload PO PDF");;
     page (FileUploader "Upload GRN PDF");;
     page (FileUploader "Upload MRN PDF");;
     page (StButton "🚀 Process PDFs");;
     run_script (on_button clicked w po_file grn_file mrn_file))
      (tr ++ page_head).
Proof.
  intros [v Hv]. unfold app_py. rewrite !run_page, run_lift_ok, run_bind, Hv.
  unfold page_head. by rewrite <- app_assoc.
Qed.

(** X2.  When [streamlit] has no secrets to read, the test for the
    [oci] section itself raises: the script ends with that error after the
    two page elements, without a message and without stopping by itself.
    With secrets that hold no [oci] section the script shows the two page
    elements and the message that the credentials are missing, and stops:
    no configuration is read, no client is built, no upload widget is
    shown and the button is not handled, whatever the uploads and the
    button hold.  With the section present but a configuration that cannot
    be read, the script ends with the error of the reading (a key error or
    a type error, not a message) after the two page elements alone. *)
Theorem app_without_configuration secrets connect po_file grn_file mrn_file clicked tr :
  (∀ e,
     app_py (Raise e) connect po_file grn_file mrn_file clicked tr
     = (Raise e, tr ++ page_head))
  ∧ (dict_get secrets "oci" = None →
     app_py (Ok secrets) connect po_file grn_file mrn_file clicked tr
     = (Raise StopException, tr ++ page_head ++ [Run (StError secrets_message)]))
  ∧ (∀ e,
       is_Some (dict_get secrets "oci") → load_config secrets = Raise e →
       app_py (Ok secrets) connect po_file grn_file mrn_file clicked tr
       = (Raise e, tr ++ page_head)).
Proof.
  split; [|split].
  - intros e. unfold app_py. rewrite !run_page, run_lift_raise.
    unfold page_head. by rewrite <- app_assoc.
  - intros Hnone. unfold app_py. rewrite !run_page, run_lift_ok, run_bind, Hnone.
    unfold run_script, page_head. simpl. by rewrite <- !app_assoc.
  - intros e Hsome Hraise. rewrite app_head by done.
    by rewrite Hraise, run_lift_raise.
Qed.

Lemma app_without_configuration_witness :
  app_py (Raise (LibraryError "StreamlitSecretNotFoundError"))
    (λ _, Raise ServiceError) (Some "po") (Some "grn") (Some "mrn") true []
  = (Raise (LibraryError "StreamlitSecretNotFoundError"), page_head)
  ∧ app_py (Ok [("aws", JObject [])]) (λ _, Raise ServiceError) (Some "po")
      (Some "grn") (Some "mrn") true []
    = (Raise StopException, page_head ++ [Run (StError secrets_message)])
  ∧ app_py (Ok [("oci", JStr "token")]) (λ _, Raise ServiceError) None None None
      false []
    = (Raise TypeError, page_head).
Proof.
  split; [|split].
  - apply (proj1 (app_without_configuration [] (λ _, Raise ServiceError)
                    (Some "po") (Some "grn") (Some "mrn") true [])).
  - apply (proj1 (proj2 (app_without_configuration [("aws", JObject [])]
                           (λ _, Raise ServiceError) (Some "po") (Some "grn")
                           (Some "mrn") true []))).
    reflexivity.
  - apply (proj2 (proj2 (app_without_configuration [("oci", JStr "token")]
                           (λ _, Raise ServiceError) None None None false []))).
    + by eexists.
    + reflexivity.
Defined.

(** X3.  Once the configuration is read, the client is built from it
    with the timeouts 10 and 240.  If the SDK refuses, the script ends with
    its error before any upload widget.  Otherwise the widgets are shown;
    with the button not pressed nothing more happens, whatever was
    uploaded: no file is written, no PDF opened, no request sent.  With the
    button pressed the events of the run follow, and the outcome is the
    run's. *)
Theorem app_with_configuration secrets connect po_file grn_file mrn_file tr cfg :
  load_config secrets = Ok cfg →
  (∀ e clicked,
     connect cfg = Raise e →
     app_py (Ok secrets) connect po_file grn_file mrn_file clicked tr
     = (Raise e, tr ++ page_head ++ [CreateClient cfg 10 240]))
  ∧ (∀ w,
       connect cfg = Ok w →
       app_py (Ok secrets) connect po_file grn_file mrn_file false tr
       = (Ok (), tr ++ page_head ++ [CreateClient cfg 10 240] ++ upload_widgets)
       ∧ app_py (Ok secrets) connect po_file grn_file mrn_file true tr
         = ((process_pdfs w po_file grn_file mrn_file {| trace := []; rows := [] |}).1,
            tr ++ page_head ++ [CreateClient cfg 10 240] ++ upload_widgets
               ++ map Run
                    (trace (process_pdfs w po_file grn_file mrn_file
                              {| trace := []; rows := [] |}).2))).
Proof.
  intros Hcfg. pose proof (load_config_needs_section _ _ Hcfg) as Hsome.
  split.
  - intros e clicked Hconn. rewrite app_head by done.
    rewrite Hcfg, run_lift_ok, run_page, Hconn, run_lift_raise.
    by rewrite <- app_assoc.
  - intros w Hconn. split.
    + rewrite app_head by done.
      rewrite Hcfg, run_lift_ok, run_page, Hconn, run_lift_ok.
      rewrite run_bind. unfold run_script at 1. simpl.
      rewrite !run_page. unfold run_script, on_button. simpl.
      unfold upload_widgets. rewrite <- !app_assoc. simpl.
      by rewrite ?app_nil_r.
    + rewrite app_head by done.
      rewrite Hcfg, run_lift_ok, run_page, Hconn, run_lift_ok.
      rewrite run_bind. unfold run_script at 1. simpl.
      rewrite !run_page. unfold run_script, on_button.
      destruct (process_pdfs w po_file grn_file mrn_file {| trace := []; rows := [] |})
        as [r s']. simpl.
      unfold upload_widgets. by rewrite <- !app_assoc.
Qed.

Lemma app_with_configuration_witness :
  app_py (Ok ex_secrets) (λ _, Ok (constant_world "")) (Some "po") (Some "grn") (Some "mrn")
    false []
  = (Ok (), [] ++ page_head ++ [CreateClient ex_config 10 240] ++ upload_widgets).
Proof.
  apply (proj2 (app_with_configuration ex_secrets (λ _, Ok (constant_world ""))
                  (Some "po") (Some "grn") (Some "mrn") [] ex_config eq_refl)
           (constant_world "") eq_refl).
Defined.

(** ** Document loader *)

Lemma concat_empty_app l1 l2 :
  String.concat "" (l1 ++ l2) = String.concat "" l1 +:+ String.concat "" l2.
Proof.
  induction l1 as [|x l1 IH]; [done|].
  rewrite <- app_comm_cons, !concat_empty_cons, IH. by rewrite append_assoc.
Qed.

Lemma page_texts_app (p1 p2 : pdf) :
  page_texts (p1 ++ p2) = page_texts p1 ++ page_texts p2.
Proof. unfold page_texts. apply omap_app. Qed.

Lemma extract_pdf_text_texts (pages : pdf) :
  extract_pdf_text pages = String.concat "" (map (λ t, t +:+ nl) (page_texts pages)).
Proof. unfold extract_pdf_text. by rewrite extract_loop. Qed.

Lemma extract_pdf_text_append (p1 p2 : pdf) :
  extract_pdf_text (p1 ++ p2) = extract_pdf_text p1 +:+ extract_pdf_text p2.
Proof.
  rewrite !extract_pdf_text_texts, page_texts_app, map_app. apply concat_empty_app.
Qed.

(** X4.  The loader works page by page: the text of a PDF made of the
    pages of one followed by the pages of another is the text of the first
    followed by the text of the second, and a page without text (nothing,
    or the empty text) can be taken out or put in anywhere without
    changing the result. *)
Theorem extract_pdf_text_by_page (p1 p2 : pdf) :
  extract_pdf_text (p1 ++ p2) = extract_pdf_text p1 +:+ extract_pdf_text p2
  ∧ (∀ blank, truthy blank = false →
       extract_pdf_text (p1 ++ blank :: p2) = extract_pdf_text (p1 ++ p2)).
Proof.
  split; [apply extract_pdf_text_append|].
  intros blank Hblank.
  rewrite !extract_pdf_text_append. f_equal.
  change (blank :: p2) with ([blank] ++ p2).
  rewrite extract_pdf_text_append. unfold extract_pdf_text at 1. simpl.
  by rewrite Hblank.
Qed.

Lemma extract_pdf_text_by_page_witness :
  extract_pdf_text ([Some "a"] ++ Some "" :: [Some "b"])
  = extract_pdf_text ([Some "a"] ++ [Some "b"]).
Proof.
  apply (proj2 (extract_pdf_text_by_page [Some "a"] [Some "b"]) (Some "")).
  reflexivity.
Defined.

Lemma page_texts_nil_inv (pages : pdf) :
  page_texts pages = [] → Forall (λ txt, truthy txt = false) pages.
Proof.
  unfold page_texts. induction pages as [|txt pages IH]; [constructor|].
  cbn [omap list_omap]. destruct (truthy txt) eqn:E.
  - destruct txt; [done|]. done.
  - intros H. constructor; [done|by apply IH].
Qed.

(** X5.  The loader returns the empty string exactly when no page yields
    text; any other result ends with a newline, so it is never a text
    without its final newline. *)
Theorem extract_pdf_text_empty_iff (pages : pdf) :
  (extract_pdf_text pages = "" ↔ Forall (λ txt, truthy txt = false) pages)
  ∧ (extract_pdf_text pages ≠ "" → ∃ body, extract_pdf_text pages = body +:+ nl).
Proof.
  assert (∀ ts, ts ≠ [] → ∃ body,
            String.concat "" (map (λ t, t +:+ nl) ts) = body +:+ nl) as Hnl.
  { intros ts Hts. exists (String.concat nl ts). by apply concat_newlines. }
  split; [split|].
  - intros Hempty. apply page_texts_nil_inv.
    rewrite extract_pdf_text_texts in Hempty.
    destruct (page_texts pages) as [|t ts] eqn:E; [done|].
    destruct (Hnl (t :: ts)) as [body Hbody]; [done|].
    rewrite Hbody in Hempty. destruct body; discriminate Hempty.
  - intros Hall. by rewrite extract_pdf_text_texts, page_texts_none.
  - intros Hne. rewrite extract_pdf_text_texts in *.
    apply Hnl. intros E. by rewrite E in Hne.
Qed.

Lemma extract_pdf_text_empty_iff_witness :
  ∃ body, extract_pdf_text [None; Some "x"] = body +:+ nl.
Proof.
  apply (proj2 (extract_pdf_text_empty_iff [None; Some "x"])). discriminate.
Defined.

(** X6.  Page boundaries are not kept: a page whose text holds a newline
    gives the same result as two pages holding the two parts, so the
    pages cannot be told apart in the loader's output. *)
Theorem extract_pdf_text_loses_pages (a b : string) (rest : pdf) :
  a ≠ "" → b ≠ "" →
  extract_pdf_text (Some (a +:+ nl +:+ b) :: rest)
  = extract_pdf_text (Some a :: Some b :: rest).
Proof.
  intros Ha Hb.
  change (Some (a +:+ nl +:+ b) :: rest) with ([Some (a +:+ nl +:+ b)] ++ rest).
  change (Some a :: Some b :: rest) with ([Some a; Some b] ++ rest).
  rewrite !extract_pdf_text_append. f_equal.
  unfold extract_pdf_text. destruct a as [|x a]; [done|]. destruct b as [|y b]; [done|].
  simpl. by rewrite !append_assoc.
Qed.

Lemma extract_pdf_text_loses_pages_witness :
  extract_pdf_text [Some ("a" +:+ nl +:+ "b")] = extract_pdf_text [Some "a"; Some "b"].
Proof. apply (extract_pdf_text_loses_pages "a" "b" []); discriminate. Defined.

(** ** Response parser *)

Lemma split_first c s :
  has_char c s = true →
  ∃ pre rest, s = pre +:+ String c rest ∧ has_char c pre = false.
Proof.
  induction s as [|x s IH]; simpl; [done|].
  destruct (Ascii.eqb x c) eqn:E; simpl.
  - intros _. apply Ascii.eqb_eq in E as ->. by exists "", s.
  - intros (pre & rest & -> & Hpre)%IH. exists (String x pre), rest.
    split; [done|]. simpl. by rewrite E.
Qed.

Lemma split_last c s :
  has_char c s = true →
  ∃ a post, s = a +:+ String c post ∧ has_char c post = false.
Proof.
  induction s as [|x s IH]; simpl; [done|].
  destruct (has_char c s) eqn:Hs.
  - intros _. destruct (IH eq_refl) as (a & post & -> & Hpost).
    by exists (String x a), post.
  - rewrite orb_false_r. intros ->%Ascii.eqb_eq. by exists "", s.
Qed.

(** The slice is empty, a lone closing brace, or a text from an opening
    to a closing brace. *)
Lemma brace_slice_shape raw :
  brace_slice raw = "" ∨ brace_slice raw = "}"
  ∨ ∃ mid, brace_slice raw = "{" +:+ mid +:+ "}".
Proof.
  destruct (has_char "{" raw) eqn:Hopen.
  - destruct (split_first _ _ Hopen) as (pre & rest & -> & Hpre).
    destruct (has_char "}" rest) eqn:Hclose.
    + destruct (split_last _ _ Hclose) as (mid & post & -> & Hpost).
      right. right. exists mid.
      by apply (brace_slice_between pre mid post).
    + left. by apply (brace_slice_crossed pre rest).
  - destruct (brace_slice_no_open raw Hopen) as [H|H]; [by left|by right; left].
Qed.

Lemma json_loads_brace lim s v :
  json_loads lim (String "{" s) = Ok v → ∃ d, v = JObject d.
Proof.
  unfold json_loads. destruct (recursion_exhausted lim _); [done|].
  unfold decode. cbn [skip_ws is_ws].
  unfold loads_fuel. rewrite Nat.add_comm. cbn [Nat.add scan_once].
  change (Ascii.eqb "{" "034") with false. change (Ascii.eqb "{" "{") with true.
  cbv iota.
  destruct (skip_ws s) as [|c1 r].
  { done. }
  destruct (Ascii.eqb c1 "}").
  { destruct (skip_ws r); [|done]. intros [= <-]. by eexists. }
  destruct (Ascii.eqb c1 "034"); [|done].
  destruct (scan_members _ _ r []) as [d rest| | |]; simpl; [|done..].
  destruct (skip_ws rest); [|done]. intros [= <-]. by eexists.
Qed.

Lemma parse_response_mapping lim raw v :
  parse_response lim raw = Ok v → ∃ d, v = JObject d.
Proof.
  unfold parse_response.
  destruct (brace_slice_shape raw) as [Hs | [Hs | [mid Hs]]]; rewrite Hs.
  - unfold json_loads. destruct (recursion_exhausted lim _); [done|].
    by vm_compute.
  - unfold json_loads. destruct (recursion_exhausted lim _); [done|].
    destruct lim as [exhausted digits]. by vm_compute.
  - apply json_loads_brace.
Qed.

(** X7.  Extraction sends exactly one request, with at most 4000 tokens
    and temperature 0, whether it succeeds or not, and changes nothing
    else.  What it returns is always a mapping: a response whose JSON is a
    list, a string or a number is never passed on.  When it raises, the
    error is the service's own or one of the three of [json.loads]: a
    decode error, a recursion error when the interpreter's recursion limit
    is exhausted on the slice, or a value error, which needs a slice
    longer than the interpreter's limit on the digits of an integer. *)
Theorem extract_structured_data_outcome w pdf_text pdf_type st :
  (extract_structured_data w pdf_text pdf_type st).2
  = {| trace := trace st ++ [ChatRequest (build_prompt pdf_text pdf_type) 4000 0];
       rows := rows st |}
  ∧ (∀ v, (extract_structured_data w pdf_text pdf_type st).1 = Ok v →
          ∃ d, v = JObject d)
  ∧ (∀ e, (extract_structured_data w pdf_text pdf_type st).1 = Raise e →
          chat w (build_prompt pdf_text pdf_type) = Raise e
          ∨ ∃ raw,
              chat w (build_prompt pdf_text pdf_type) = Ok raw
              ∧ (e = JSONDecodeError
                 ∨ (e = RecursionError
                    ∧ recursion_exhausted (limits w) (brace_slice raw) = true)
                 ∨ (e = ValueError
                    ∧ 0 < int_max_str_digits (limits w)
                      < String.length (brace_slice raw)))).
Proof.
  unfold extract_structured_data. rewrite run_emit, run_bind. unfold lift.
  destruct (chat w (build_prompt pdf_text pdf_type)) as [raw|e0]; simpl.
  - split; [done|]. split.
    + apply parse_response_mapping.
    + intros e He. right. exists raw. split; [done|].
      unfold parse_response in *.
      destruct (json_loads_total (limits w) (brace_slice raw))
        as [[v Hv]|[Hd|[[Hr Hex]|[Hv Hlen]]]]; [congruence|left|right..].
      * congruence.
      * left. split; [congruence|done].
      * right. split; [congruence|done].
  - split; [done|]. split; [done|]. intros e [= <-]. by left.
Qed.

Lemma extract_structured_data_outcome_witness :
  (extract_structured_data (constant_world bare_answer) "text" "PO"
     {| trace := []; rows := [] |}).1
  = Ok (JObject [("header", JObject []); ("items", JList [JObject []])])
  ∧ (extract_structured_data (constant_world bare_answer) "text" "PO"
       {| trace := []; rows := [] |}).2
    = {| trace := [ChatRequest (build_prompt "text" "PO") 4000 0]; rows := [] |}
  ∧ (extract_structured_data (constant_world "no braces here") "text" "PO"
       {| trace := []; rows := [] |}).1
    = Raise JSONDecodeError
  ∧ ∃ raw,
      chat (constant_world "no braces here") (build_prompt "text" "PO") = Ok raw
      ∧ brace_slice raw = "".
Proof.
  destruct (extract_structured_data_outcome (constant_world bare_answer)
              "text" "PO" {| trace := []; rows := [] |}) as (Hstate & Hmap & _).
  destruct (extract_structured_data_outcome (constant_world "no braces here")
              "text" "PO" {| trace := []; rows := [] |}) as (_ & _ & Herr).
  split; [vm_compute; reflexivity|]. split; [exact Hstate|].
  split; [vm_compute; reflexivity|].
  destruct (Herr JSONDecodeError) as [Hchat|(raw & Hchat & _)].
  - vm_compute. reflexivity.
  - discriminate Hchat.
  - exists raw. split; [exact Hchat|]. injection Hchat as <-. reflexivity.
Defined.

(** X8.  Slicing is stable: the slice of a slice is the slice itself, so
    a response that was already cut to its braces is parsed to the same
    result as the uncut one. *)
Theorem brace_slice_stable lim raw :
  brace_slice (brace_slice raw) = brace_slice raw
  ∧ parse_response lim (brace_slice raw) = parse_response lim raw.
Proof.
  assert (brace_slice (brace_slice raw) = brace_slice raw) as Hstable.
  { destruct (brace_slice_shape raw) as [-> | [-> | [mid ->]]]; [done..|].
    exact (brace_slice_between "" mid "" eq_refl eq_refl). }
  split; [done|]. unfold parse_response. by rewrite Hstable.
Qed.

(** ** Seeding *)

Lemma seed_loop_stops header (good : list dict) bad rest acc :
  (∀ d, bad ≠ JObject d) →
  for_each (λ item, r ← lift (merged_row (JObject header) item); append_row r)
    (map JObject good ++ bad :: rest) acc
  = (Raise TypeError, acc ++ map (merged_row_dict header) good).
Proof.
  intros Hbad. revert acc. induction good as [|it good IH]; intros acc.
  - cbn [map]. rewrite app_nil_l, app_nil_r. cbn [for_each]. rewrite run_bind.
    destruct bad; try done. by destruct (Hbad d).
  - cbn [map]. rewrite <- app_comm_cons. cbn [for_each]. rewrite run_bind.
    simpl. unfold append_row at 1. rewrite IH. by rewrite <- app_assoc.
Qed.

Lemma seed_rows_unfold po_data (s : rows_t) :
  seed_rows po_data s =
  match subscript po_data "header" with
  | Raise e => (Raise e, s)
  | Ok header =>
      match subscript po_data "items" with
      | Raise e => (Raise e, s)
      | Ok po_items =>
          match py_iter po_items with
          | Raise e => (Raise e, [])
          | Ok items =>
              for_each
                (λ item, r ← lift (merged_row header item); append_row r) items []
          end
      end
  end.
Proof.
  unfold seed_rows. rewrite run_bind. unfold lift at 1.
  destruct (subscript po_data "header") as [header|e]; [|done].
  rewrite run_bind. unfold lift at 1.
  destruct (subscript po_data "items") as [po_items|e]; [|done].
  rewrite run_bind. unfold put_state at 1. cbv beta iota.
  rewrite run_bind. unfold lift at 1. by destruct (py_iter po_items).
Qed.

(** X9.  How seeding ends.  A missing [header] or [items] key gives the
    key error and leaves the rows as they were; items that cannot be
    iterated give a type error.  With no item, seeding succeeds with no
    row and never looks at the header, which may then be anything.  With
    items, it stops with a type error at the first one that is not a
    mapping, having built the rows of the items before it, and at the
    first item if the header is not a mapping. *)
Theorem seed_rows_outcomes po_data (s : rows_t) :
  (∀ e, subscript po_data "header" = Raise e → seed_rows po_data s = (Raise e, s))
  ∧ (∀ header e,
       subscript po_data "header" = Ok header →
       subscript po_data "items" = Raise e →
       seed_rows po_data s = (Raise e, s))
  ∧ (∀ header po_items e,
       subscript po_data "header" = Ok header →
       subscript po_data "items" = Ok po_items →
       py_iter po_items = Raise e →
       seed_rows po_data s = (Raise e, []))
  ∧ (∀ header,
       subscript po_data "header" = Ok header →
       iterated_items po_data = Ok [] →
       seed_rows po_data s = (Ok (), []))
  ∧ (∀ h good bad rest,
       subscript po_data "header" = Ok (JObject h) →
       iterated_items po_data = Ok (map JObject good ++ bad :: rest) →
       (∀ d, bad ≠ JObject d) →
       seed_rows po_data s = (Raise TypeError, map (merged_row_dict h) good))
  ∧ (∀ header item rest,
       subscript po_data "header" = Ok header →
       (∀ d, header ≠ JObject d) →
       iterated_items po_data = Ok (item :: rest) →
       seed_rows po_data s = (Raise TypeError, [])).
Proof.
  rewrite seed_rows_unfold. unfold iterated_items.
  split; [by intros e ->|]. split; [by intros header e -> ->|].
  split; [|split; [|split]].
  - by intros header po_items e -> -> ->.
  - intros header ->.
    destruct (subscript po_data "items") as [v|e]; simpl; [|done].
    by destruct (py_iter v) as [[|??]|].
  - intros h good bad rest -> Hit Hbad.
    destruct (subscript po_data "items") as [v|e]; simpl in *; [|done].
    rewrite Hit. by rewrite (seed_loop_stops h good bad rest []).
  - intros header item rest -> Hno Hit.
    destruct (subscript po_data "items") as [v|e]; simpl in *; [|done].
    rewrite Hit. cbn [for_each]. rewrite run_bind.
    destruct header; try done. by destruct (Hno d).
Qed.

Lemma seed_rows_outcomes_witness :
  seed_rows (JObject [("header", JNull); ("items", JList [])]) [[("old", JNull)]]
  = (Ok (), [])
  ∧ seed_rows
      (JObject [("header", JObject [("po no", JStr "1")]);
                ("items", JList [JObject [("Quantity", JStr "5")]; JStr "x"; JNull])])
      []
    = (Raise TypeError,
       [merged_row_dict [("po no", JStr "1")] [("Quantity", JStr "5")]]).
Proof.
  split.
  - apply (proj1 (proj2 (proj2 (proj2 (seed_rows_outcomes
             (JObject [("header", JNull); ("items", JList [])]) [[("old", JNull)]]))))
             JNull); reflexivity.
  - apply (proj1 (proj2 (proj2 (proj2 (proj2 (seed_rows_outcomes
             (JObject [("header", JObject [("po no", JStr "1")]);
                       ("items", JList [JObject [("Quantity", JStr "5")]; JStr "x"; JNull])])
             [])))))
             [("po no", JStr "1")] [[("Quantity", JStr "5")]] (JStr "x") [JNull]).
    + reflexivity.
    + reflexivity.
    + discriminate.
Defined.

(** ** Keys of the rows *)

Lemma dict_keys_set_add (d : dict) k v :
  dict_keys (dict_set d k v) = add_key (dict_keys d) k.
Proof. apply dict_keys_set. Qed.

Lemma dict_keys_update (d e : dict) :
  dict_keys (dict_update d e) = fold_left add_key (dict_keys e) (dict_keys d).
Proof.
  unfold dict_update. revert d. induction e as [|[k v] e IH]; intros d; [done|].
  simpl. by rewrite IH, dict_keys_set_add.
Qed.

Lemma add_key_elem cols k x : x ∈ add_key cols k ↔ x ∈ cols ∨ x = k.
Proof.
  unfold add_key. case_bool_decide as Hin.
  - split; [by left|]. intros [?| ->]; done.
  - rewrite elem_of_app, list_elem_of_singleton. done.
Qed.

Lemma fold_add_key_elem l cols x :
  x ∈ fold_left add_key l cols ↔ x ∈ cols ∨ x ∈ l.
Proof.
  revert cols. induction l as [|k l IH]; intros cols; simpl.
  - split; [by left|]. intros [?|H]; [done|by apply elem_of_nil in H].
  - rewrite IH, add_key_elem, elem_of_cons. tauto.
Qed.

Lemma add_key_NoDup cols k : NoDup cols → NoDup (add_key cols k).
Proof.
  intros Hnd. unfold add_key. case_bool_decide as Hin; [done|].
  apply NoDup_app. split; [done|]. split; [|apply NoDup_singleton].
  intros x Hx ->%list_elem_of_singleton. done.
Qed.

Lemma fold_add_key_NoDup l cols : NoDup cols → NoDup (fold_left add_key l cols).
Proof.
  revert cols. induction l as [|k l IH]; intros cols Hnd; [done|].
  simpl. by apply IH, add_key_NoDup.
Qed.

Lemma fold_add_key_fresh l cols :
  NoDup (cols ++ l) → fold_left add_key l cols = cols ++ l.
Proof.
  revert cols. induction l as [|k l IH]; intros cols Hnd; simpl.
  - by rewrite app_nil_r.
  - assert (k ∉ cols) as Hk.
    { apply NoDup_app in Hnd as (_ & Hdisj & _). intros Hin.
      apply (Hdisj k Hin). left. }
    unfold add_key at 2. rewrite bool_decide_eq_false_2 by done.
    rewrite IH; [by rewrite <- app_assoc|]. by rewrite <- app_assoc.
Qed.

Lemma merged_row_dict_keys h it :
  dict_keys (merged_row_dict h it)
  = fold_left add_key (dict_keys h ++ dict_keys it ++ placeholder_fields) [].
Proof.
  unfold merged_row_dict. rewrite !dict_keys_set_add, !dict_keys_update.
  by rewrite !fold_left_app.
Qed.

(** X10.  The keys of a merged row, in order, are the keys of the PO
    header, then those of the PO item, then the six GRN and MRN fields,
    each key kept where it is first met.  So no key is repeated, the six
    fields are always present, and when the header, the item and the six
    fields share no name the keys are exactly the three lists one after
    the other. *)
Theorem merged_row_key_order (h it : dict) :
  dict_keys (merged_row_dict h it)
  = fold_left add_key (dict_keys h ++ dict_keys it ++ placeholder_fields) []
  ∧ dict_wf (merged_row_dict h it)
  ∧ (∀ k, k ∈ dict_keys (merged_row_dict h it)
          ↔ k ∈ dict_keys h ∨ k ∈ dict_keys it ∨ k ∈ placeholder_fields)
  ∧ (NoDup (dict_keys h ++ dict_keys it ++ placeholder_fields) →
     dict_keys (merged_row_dict h it)
     = dict_keys h ++ dict_keys it ++ placeholder_fields).
Proof.
  split; [apply merged_row_dict_keys|]. split; [|split].
  - unfold dict_wf. rewrite merged_row_dict_keys.
    apply fold_add_key_NoDup. constructor.
  - intros k. rewrite merged_row_dict_keys, fold_add_key_elem, !elem_of_app.
    split; [intros [H|H]; [by apply elem_of_nil in H|done]|by right].
  - intros Hnd. rewrite merged_row_dict_keys. by apply (fold_add_key_fresh _ []).
Qed.

Lemma merged_row_key_order_witness :
  dict_keys (merged_row_dict [("po no", JStr "100")] [("Quantity", JStr "5")])
  = dict_keys [("po no", JStr "100")] ++ dict_keys [("Quantity", JStr "5")]
    ++ placeholder_fields.
Proof.
  apply (proj2 (proj2 (proj2 (merged_row_key_order
           [("po no", JStr "100")] [("Quantity", JStr "5")])))).
  apply (bool_decide_unpack _). vm_compute. exact I.
Defined.

(** ** Keys of the merged rows *)

Lemma keys_kept_refl ks rows : keys_kept ks rows rows.
Proof. by intros _. Qed.

Lemma keys_kept_trans ks r1 r2 r3 :
  keys_kept ks r1 r2 → keys_kept ks r2 r3 → keys_kept ks r1 r3.
Proof.
  intros H12 H23 Hks. specialize (H12 Hks). rewrite <- H12. apply H23.
  intros r Hr.
  assert (dict_keys r ∈ map dict_keys r1) as Hin.
  { rewrite <- H12. by apply (list_elem_of_fmap_2 dict_keys). }
  apply (list_elem_of_fmap_1 dict_keys) in Hin as (r' & -> & Hr'). by apply Hks.
Qed.

Lemma dict_keys_set_present (d : dict) k v :
  k ∈ dict_keys d → dict_keys (dict_set d k v) = dict_keys d.
Proof.
  intros Hin. rewrite dict_keys_set_add. unfold add_key.
  by rewrite bool_decide_eq_true_2.
Qed.

Lemma set_field_keys ks i k v :
  k ∈ ks → keeps (keys_kept ks) (set_field i k v).
Proof.
  intros Hk rows. unfold set_field.
  destruct (rows !! i) as [r|] eqn:Hi; simpl; [|apply keys_kept_refl].
  intros Hks.
  change (map dict_keys (<[i:=dict_set r k v]> rows))
    with (dict_keys <$> <[i:=dict_set r k v]> rows).
  rewrite list_fmap_insert, dict_keys_set_present.
  - apply list_insert_id. by rewrite list_lookup_fmap, Hi.
  - apply (Hks r); [|done]. by eapply list_elem_of_lookup_2.
Qed.

Ltac keys_tac :=
  repeat first
    [ apply keeps_ret; apply keys_kept_refl
    | apply keeps_lift; apply keys_kept_refl
    | apply keeps_get; apply keys_kept_refl
    | apply set_field_keys; repeat constructor
    | apply keeps_bind; [apply keys_kept_trans | | intros ?]
    | case_bool_decide ].

Lemma grn_body_keys data ix : keeps (keys_kept placeholder_fields) (grn_body data ix).
Proof. destruct ix as [i item]. unfold grn_body. keys_tac. Qed.

Lemma mrn_body_keys data ix : keeps (keys_kept placeholder_fields) (mrn_body data ix).
Proof. destruct ix as [i item]. unfold mrn_body. keys_tac. Qed.

Lemma overlay_grn_keys data : keeps (keys_kept placeholder_fields) (overlay_grn data).
Proof.
  intros rows. rewrite overlay_grn_unfold.
  destruct (iterated_items data) as [items|e]; [|apply keys_kept_refl].
  apply keeps_for_each; [apply keys_kept_refl|apply keys_kept_trans|].
  intros ix _. apply grn_body_keys.
Qed.

Lemma overlay_mrn_keys data : keeps (keys_kept placeholder_fields) (overlay_mrn data).
Proof.
  intros rows. rewrite overlay_mrn_unfold.
  destruct (iterated_items data) as [items|e]; [|apply keys_kept_refl].
  apply keeps_for_each; [apply keys_kept_refl|apply keys_kept_trans|].
  intros ix _. apply mrn_body_keys.
Qed.

Lemma seeds_hold_placeholders h (items : list dict) r :
  r ∈ map (merged_row_dict h) items → placeholder_fields ⊆ dict_keys r.
Proof.
  intros (it & -> & _)%(list_elem_of_fmap_1 (merged_row_dict h)) k Hk.
  rewrite merged_row_dict_keys, fold_add_key_elem, !elem_of_app. auto.
Qed.

Lemma columns_by_keys (rows : rows_t) :
  columns (pd_DataFrame rows)
  = fold_left (λ cols ks, fold_left add_key ks cols) (map dict_keys rows) [].
Proof.
  unfold pd_DataFrame. simpl. generalize (@nil string).
  induction rows as [|r rows IH]; intros cols; [done|]. simpl. apply IH.
Qed.

Lemma columns_elem (keys : list (list string)) cols k :
  k ∈ fold_left (λ cols ks, fold_left add_key ks cols) keys cols
  ↔ k ∈ cols ∨ ∃ ks, ks ∈ keys ∧ k ∈ ks.
Proof.
  revert cols. induction keys as [|ks keys IH]; intros cols; simpl.
  - split; [by left|]. intros [?|(ks & H & _)]; [done|by apply elem_of_nil in H].
  - rewrite IH, fold_add_key_elem. split.
    + intros [[?|?]|(ks' & Hin & Hk)]; [by left|right..].
      * exists ks. split; [left|done].
      * exists ks'. split; [by right|done].
    + intros [?|(ks' & [->|Hin]%elem_of_cons & Hk)]; [by left; left|by left; right|].
      right. by exists ks'.
Qed.

(** X11.  The overlays never add, drop or move a key of a merged row:
    whatever the GRN and MRN results are, and also when an overlay raises,
    every row keeps the list of keys it was seeded with.  The columns of
    the data frame built from the rows are therefore decided by the PO
    result alone, and with at least one PO item they include the six GRN
    and MRN fields. *)
Theorem merge_keeps_keys po_data grn_data mrn_data header items (s : rows_t) :
  extraction_result po_data header items →
  map dict_keys (merge po_data grn_data mrn_data s).2
  = map (λ item, dict_keys (merged_row_dict header item)) items
  ∧ columns (pd_DataFrame (merge po_data grn_data mrn_data s).2)
    = columns (pd_DataFrame (map (merged_row_dict header) items))
  ∧ (items ≠ [] →
     ∀ f, f ∈ placeholder_fields →
          f ∈ columns (pd_DataFrame (merge po_data grn_data mrn_data s).2)).
Proof.
  intros Hpo.
  assert (map dict_keys (merge po_data grn_data mrn_data s).2
          = map dict_keys (map (merged_row_dict header) items)) as Hkeys.
  { unfold merge. rewrite run_bind, (seed_rows_ok _ _ _ _ Hpo).
    apply (keeps_bind (keys_kept placeholder_fields)).
    - apply keys_kept_trans.
    - apply overlay_grn_keys.
    - intros _. apply overlay_mrn_keys.
    - apply seeds_hold_placeholders. }
  split; [by rewrite Hkeys, map_map|]. split.
  - by rewrite !columns_by_keys, Hkeys.
  - intros Hne f Hf. rewrite columns_by_keys, Hkeys, columns_elem. right.
    destruct items as [|it items]; [done|].
    exists (dict_keys (merged_row_dict header it)). split; [left|].
    apply (seeds_hold_placeholders header [it]); [left|done].
Qed.

Lemma merge_keeps_keys_witness :
  map dict_keys (merge ex_po (JObject [("items", JList [JNull])]) JNull []).2
  = map (λ item, dict_keys (merged_row_dict [("po no", JStr "100")] item))
      [[("Material Description", JStr "Widget"); ("Quantity", JStr "5")]].
Proof.
  apply (merge_keeps_keys ex_po (JObject [("items", JList [JNull])]) JNull
           [("po no", JStr "100")]
           [[("Material Description", JStr "Widget"); ("Quantity", JStr "5")]] []).
  split; reflexivity.
Defined.

(** ** An overlay that raises *)

Lemma for_each_app {S A} (body : A → M S ()) l1 l2 s :
  for_each body (l1 ++ l2) s =
  match for_each body l1 s with
  | (Ok _, s') => for_each body l2 s'
  | (Raise e, s') => (Raise e, s')
  end.
Proof.
  revert s. induction l1 as [|x l1 IH]; intros s; [done|].
  rewrite <- app_comm_cons. cbn [for_each]. rewrite !run_bind.
  destruct (body x s) as [[[]|e] s']; [apply IH|done].
Qed.

Lemma enumerate_from_app {A} i (l1 l2 : list A) :
  enumerate_from i (l1 ++ l2)
  = enumerate_from i l1 ++ enumerate_from (i + length l1) l2.
Proof.
  revert i. induction l1 as [|x l1 IH]; intros i; simpl.
  - by rewrite Nat.add_0_r.
  - rewrite IH. do 3 f_equal. lia.
Qed.

Lemma method_get_not_mapping bad k d :
  (∀ m, bad ≠ JObject m) → method_get bad k d = Raise AttributeError.
Proof. intros Hbad. destruct bad; try done. by destruct (Hbad d0). Qed.

Lemma grn_body_bad_item grn_data hg gno gdate i bad (rows : rows_t) r :
  subscript grn_data "header" = Ok (JObject hg) →
  dict_get hg "GRN no" = Some gno →
  dict_get hg "GRN Date" = Some gdate →
  (∀ m, bad ≠ JObject m) →
  rows !! i = Some r →
  grn_body grn_data (i, bad) rows
  = (Raise AttributeError,
     <[i := dict_set (dict_set r "GRN no" gno) "GRN Date" gdate]> rows).
Proof.
  intros Hh Hno%subscript_ok Hdate%subscript_ok Hbad Hi.
  assert (i < length rows) as Hlt by (eapply lookup_lt_Some; eauto).
  unfold grn_body. rewrite run_bind. unfold get_state. cbv beta iota.
  rewrite bool_decide_eq_true_2 by done.
  rewrite Hh, !run_lift_ok, Hno, run_lift_ok.
  rewrite run_bind, (set_field_ok _ _ _ _ _ Hi).
  rewrite run_lift_ok, Hdate, run_lift_ok.
  rewrite run_bind.
  erewrite set_field_ok by (by apply list_lookup_insert_eq).
  rewrite list_insert_insert_eq.
  by rewrite (method_get_not_mapping bad "Delivered Qty" (JStr "") Hbad), run_lift_raise.
Qed.

Lemma mrn_body_bad_item mrn_data hm mno i bad (rows : rows_t) r :
  subscript mrn_data "header" = Ok (JObject hm) →
  dict_get hm "MRN no" = Some mno →
  (∀ m, bad ≠ JObject m) →
  rows !! i = Some r →
  mrn_body mrn_data (i, bad) rows
  = (Raise AttributeError, <[i := dict_set r "MRN no" mno]> rows).
Proof.
  intros Hh Hno%subscript_ok Hbad Hi.
  assert (i < length rows) as Hlt by (eapply lookup_lt_Some; eauto).
  unfold mrn_body. rewrite run_bind. unfold get_state. cbv beta iota.
  rewrite bool_decide_eq_true_2 by done.
  rewrite Hh, !run_lift_ok, Hno, run_lift_ok.
  rewrite run_bind, (set_field_ok _ _ _ _ _ Hi).
  by rewrite (method_get_not_mapping _ _ _ Hbad), run_lift_raise.
Qed.

(** The loop over items of which the first [length pre] are mappings and
    the next one, met by a row, makes the body raise. *)
Lemma loop_stops_at (body : nat * json → M rows_t ()) (f : dict → dict → dict)
    (g : dict → dict) e (pre : list dict) bad rest (rows : rows_t) r :
  (∀ j item (rows : rows_t), length rows ≤ j → body (j, item) rows = (Ok (), rows)) →
  (∀ j item (rows : rows_t) r, rows !! j = Some r →
     body (j, JObject item) rows = (Ok (), <[j := f item r]> rows)) →
  (∀ j (rows : rows_t) r, rows !! j = Some r →
     body (j, bad) rows = (Raise e, <[j := g r]> rows)) →
  rows !! length pre = Some r →
  for_each body (enumerate (map JObject pre ++ bad :: rest)) rows
  = (Raise e, <[length pre := g r]> (fill_rows f pre rows)).
Proof.
  intros Hskip Hok Hbad Hr. unfold enumerate.
  rewrite enumerate_from_app, for_each_app.
  pose proof (fill_loop body f pre [] rows Hskip Hok) as Hloop.
  rewrite !app_nil_l in Hloop. cbn [length] in Hloop. rewrite Hloop.
  rewrite length_map. cbn [enumerate_from for_each Nat.add]. rewrite run_bind.
  erewrite Hbad; [done|].
  rewrite fill_rows_lookup.
  case_match eqn:Hpre; [|done]. apply lookup_lt_Some in Hpre.
  destruct (Nat.lt_irrefl _ Hpre).
Qed.

(** X12.  An overlay is not all-or-nothing.  When the items of a GRN
    result start with mappings and go on with a value that is not one (a
    string, a number, a list, null) at a position that has a row, the
    overlay raises an attribute error, and what it wrote before stays:
    the rows before that position are fully overlaid, the row at the
    position holds the new [GRN no] and [GRN Date] with its old
    [Delivered Qty] and [Remarks], and the rows after it are as they
    were.  The MRN overlay behaves alike, with [MRN no] written and
    [Rejected Amount] not. *)
Theorem overlay_not_atomic data header (pre : list dict) bad rest (rows : rows_t) row :
  subscript data "header" = Ok (JObject header) →
  subscript data "items" = Ok (JList (map JObject pre ++ bad :: rest)) →
  (∀ m, bad ≠ JObject m) →
  rows !! length pre = Some row →
  (∀ gno gdate,
     dict_get header "GRN no" = Some gno →
     dict_get header "GRN Date" = Some gdate →
     overlay_grn data rows
     = (Raise AttributeError,
        <[length pre := dict_set (dict_set row "GRN no" gno) "GRN Date" gdate]>
          (fill_rows (grn_fill gno gdate) pre rows)))
  ∧ (∀ mno,
       dict_get header "MRN no" = Some mno →
       overlay_mrn data rows
       = (Raise AttributeError,
          <[length pre := dict_set row "MRN no" mno]>
            (fill_rows (mrn_fill mno) pre rows))).
Proof.
  intros Hh Hitems Hbad Hrow.
  assert (iterated_items data = Ok (map JObject pre ++ bad :: rest)) as Hit.
  { unfold iterated_items. by rewrite Hitems. }
  split.
  - intros gno gdate Hno Hdate. rewrite overlay_grn_unfold, Hit.
    apply (loop_stops_at (grn_body data) (grn_fill gno gdate)
             (λ r, dict_set (dict_set r "GRN no" gno) "GRN Date" gdate)); [| | |done].
    + intros. by apply grn_body_skip.
    + intros. by eapply grn_body_ok.
    + intros. by eapply grn_body_bad_item.
  - intros mno Hno. rewrite overlay_mrn_unfold, Hit.
    apply (loop_stops_at (mrn_body data) (mrn_fill mno)
             (λ r, dict_set r "MRN no" mno)); [| | |done].
    + intros. by apply mrn_body_skip.
    + intros. by eapply mrn_body_ok.
    + intros. by eapply mrn_body_bad_item.
Qed.

Lemma overlay_not_atomic_witness :
  overlay_grn
    (JObject [("header", JObject [("GRN no", JStr "G1"); ("GRN Date", JStr "d")]);
              ("items", JList [JObject [("Delivered Qty", JStr "5")]; JStr "x";
                               JObject []])])
    [[("GRN no", JStr "")]; [("GRN no", JStr ""); ("Remarks", JStr "")];
     [("GRN no", JStr "")]]
  = (Raise AttributeError,
     [[("GRN no", JStr "G1"); ("GRN Date", JStr "d"); ("Delivered Qty", JStr "5");
       ("Remarks", JStr "")];
      [("GRN no", JStr "G1"); ("Remarks", JStr ""); ("GRN Date", JStr "d")];
      [("GRN no", JStr "")]]).
Proof.
  apply (proj1 (overlay_not_atomic
           (JObject [("header", JObject [("GRN no", JStr "G1"); ("GRN Date", JStr "d")]);
                     ("items", JList [JObject [("Delivered Qty", JStr "5")]; JStr "x";
                                      JObject []])])
           [("GRN no", JStr "G1"); ("GRN Date", JStr "d")]
           [[("Delivered Qty", JStr "5")]] (JStr "x") [JObject []]
           [[("GRN no", JStr "")]; [("GRN no", JStr ""); ("Remarks", JStr "")];
            [("GRN no", JStr "")]]
           [("GRN no", JStr ""); ("Remarks", JStr "")]
           eq_refl eq_refl ltac:(discriminate) eq_refl)
         (JStr "G1") (JStr "d") eq_refl eq_refl).
Defined.

(** ** Errors of the merge engine *)

Lemma raises_only_ret {S A} P (a : A) : raises_only (S:=S) P (mret a).
Proof. by intros s e. Qed.

Lemma raises_only_lift {S A} (P : pyerr → Prop) (r : result A) :
  (∀ e, r = Raise e → P e) → raises_only (S:=S) P (lift r).
Proof. intros H s e He. apply H. exact He. Qed.

Lemma raises_only_bind {S A B} P (m : M S A) (f : A → M S B) :
  raises_only P m → (∀ a, raises_only P (f a)) → raises_only P (m ≫= f).
Proof.
  intros Hm Hf s e. rewrite run_bind. specialize (Hm s).
  destruct (m s) as [[a|e'] s']; simpl in *.
  - apply Hf.
  - intros [= <-]. by apply Hm.
Qed.

Lemma raises_only_for_each {S A} P (body : A → M S ()) l :
  (∀ x, raises_only P (body x)) → raises_only P (for_each body l).
Proof.
  intros Hbody. induction l as [|x l IH]; [by intros s e|].
  cbn [for_each]. apply raises_only_bind; [apply Hbody|by intros _].
Qed.

Lemma subscript_raises v k e :
  subscript v k = Raise e → e = TypeError ∨ e = KeyError k.
Proof.
  destruct v; simpl; try (intros [= <-]; by left).
  destruct (dict_get d k); [done|]. intros [= <-]. by right.
Qed.

Lemma py_iter_raises v e : py_iter v = Raise e → e = TypeError.
Proof. by destruct v; simpl; intros [= <-]. Qed.

Lemma method_get_raises v k d e : method_get v k d = Raise e → e = AttributeError.
Proof. by destruct v; simpl; intros [= <-]. Qed.

Lemma merged_row_raises h it e : merged_row h it = Raise e → e = TypeError.
Proof. by destruct h, it; simpl; intros [= <-]. Qed.

Lemma merge_error_subscript v k :
  k ∈ ["header"; "items"; "GRN no"; "GRN Date"; "MRN no"] →
  ∀ e, subscript v k = Raise e → merge_error e.
Proof.
  intros Hk e [->| ->]%subscript_raises; [by left|].
  right. right. by exists k.
Qed.

Ltac merge_key := apply merge_error_subscript; repeat constructor.

Lemma seed_rows_raises po_data : raises_only merge_error (seed_rows po_data).
Proof.
  unfold seed_rows.
  apply raises_only_bind; [apply raises_only_lift; merge_key|intros header].
  apply raises_only_bind; [apply raises_only_lift; merge_key|intros po_items].
  apply raises_only_bind; [by intros s e|intros _].
  apply raises_only_bind.
  { apply raises_only_lift. intros e ->%py_iter_raises. by left. }
  intros items. apply raises_only_for_each. intros item.
  apply raises_only_bind; [|by intros r s e].
  apply raises_only_lift. intros e ->%merged_row_raises. by left.
Qed.

(** Writing a field of a row that exists raises nothing and leaves a row
    at that position. *)
Lemma set_field_then {B} i k v (f : () → M rows_t B) (rows : rows_t) r :
  rows !! i = Some r →
  (set_field i k v ≫= f) rows = f () (<[i := dict_set r k v]> rows)
  ∧ <[i := dict_set r k v]> rows !! i = Some (dict_set r k v).
Proof.
  intros Hi. rewrite run_bind, (set_field_ok _ _ _ _ _ Hi).
  split; [done|]. apply list_lookup_insert_eq. by eapply lookup_lt_Some.
Qed.

Ltac lift_step :=
  match goal with
  | |- context [(lift ?r ≫= _) _] =>
      let x := fresh "x" in let Hx := fresh "Hx" in
      destruct r as [x|x] eqn:Hx;
      [rewrite run_lift_ok|rewrite run_lift_raise; cbn [fst]; intros [= <-]]
  end.

Ltac set_step H :=
  match goal with
  | |- context [(set_field ?i ?k ?v ≫= ?f) ?rows] =>
      let H' := fresh "Hrow" in
      destruct (set_field_then i k v f rows _ H) as [-> H']; clear H; rename H' into H
  end.

Lemma grn_body_raises data ix : raises_only merge_error (grn_body data ix).
Proof.
  destruct ix as [i item]. intros rows e. unfold grn_body.
  rewrite run_bind. unfold get_state. cbv beta iota.
  case_bool_decide as Hlt; [|done].
  destruct (lookup_lt_is_Some_2 rows i Hlt) as [r Hr].
  lift_step; [|by eapply merge_error_subscript; [repeat constructor|done]].
  lift_step; [|by eapply merge_error_subscript; [repeat constructor|done]].
  set_step Hr.
  lift_step; [|by eapply merge_error_subscript; [repeat constructor|done]].
  lift_step; [|by eapply merge_error_subscript; [repeat constructor|done]].
  set_step Hr.
  lift_step; [|apply method_get_raises in Hx3 as ->; right; by left].
  set_step Hr.
  lift_step; [|apply method_get_raises in Hx4 as ->; right; by left].
  by rewrite (set_field_ok _ _ _ _ _ Hr).
Qed.

Lemma mrn_body_raises data ix : raises_only merge_error (mrn_body data ix).
Proof.
  destruct ix as [i item]. intros rows e. unfold mrn_body.
  rewrite run_bind. unfold get_state. cbv beta iota.
  case_bool_decide as Hlt; [|done].
  destruct (lookup_lt_is_Some_2 rows i Hlt) as [r Hr].
  lift_step; [|by eapply merge_error_subscript; [repeat constructor|done]].
  lift_step; [|by eapply merge_error_subscript; [repeat constructor|done]].
  set_step Hr.
  lift_step; [|apply method_get_raises in Hx1 as ->; right; by left].
  by rewrite (set_field_ok _ _ _ _ _ Hr).
Qed.

Lemma iterated_items_raises data e : iterated_items data = Raise e → merge_error e.
Proof.
  unfold iterated_items. destruct (subscript data "items") as [v|e'] eqn:Hv; simpl.
  - intros ->%py_iter_raises. by left.
  - intros [= <-]. revert Hv. merge_key.
Qed.

Lemma overlay_grn_raises data : raises_only merge_error (overlay_grn data).
Proof.
  intros rows e. rewrite overlay_grn_unfold.
  destruct (iterated_items data) as [items|e'] eqn:Hit.
  - apply raises_only_for_each. intros ix. apply grn_body_raises.
  - intros [= <-]. by eapply iterated_items_raises.
Qed.

Lemma overlay_mrn_raises data : raises_only merge_error (overlay_mrn data).
Proof.
  intros rows e. rewrite overlay_mrn_unfold.
  destruct (iterated_items data) as [items|e'] eqn:Hit.
  - apply raises_only_for_each. intros ix. apply mrn_body_raises.
  - intros [= <-]. by eapply iterated_items_raises.
Qed.

(** X13.  Whatever the three decoded results are, the merge engine
    either completes or raises one of three kinds of error: a type error
    (a result, its header or its items of the wrong type), an attribute
    error (an overlaid item that is not a mapping), or a key error for
    one of [header], [items], [GRN no], [GRN Date], [MRN no].  In
    particular the guard [i < len(rows)] is enough for the row index:
    no assignment to [rows[i]] is ever out of range. *)
Theorem merge_raises_only po_data grn_data mrn_data (s : rows_t) e :
  (merge po_data grn_data mrn_data s).1 = Raise e →
  (e = TypeError ∨ e = AttributeError
   ∨ ∃ k, e = KeyError k ∧ k ∈ ["header"; "items"; "GRN no"; "GRN Date"; "MRN no"])
  ∧ e ≠ IndexError.
Proof.
  intros He.
  assert (merge_error e) as Herr.
  { revert He. apply (raises_only_bind merge_error); [apply seed_rows_raises|intros _].
    apply raises_only_bind; [apply overlay_grn_raises|intros _].
    apply overlay_mrn_raises. }
  split; [exact Herr|].
  by destruct Herr as [->|[->|(k & -> & _)]].
Qed.

Lemma merge_raises_only_witness :
  (merge ex_po
     (JObject [("header", JObject [("GRN no", JStr "G1"); ("GRN Date", JStr "d")]);
               ("items", JList [JNull])])
     ex_mrn []).1
  = Raise AttributeError
  ∧ AttributeError ≠ IndexError.
Proof.
  split; [reflexivity|].
  apply (merge_raises_only ex_po
           (JObject [("header", JObject [("GRN no", JStr "G1"); ("GRN Date", JStr "d")]);
                     ("items", JList [JNull])])
           ex_mrn [] AttributeError).
  reflexivity.
Defined.

(** ** When an overlay completes *)

Lemma subscript_inv v k x :
  subscript v k = Ok x → ∃ d, v = JObject d ∧ dict_get d k = Some x.
Proof.
  destruct v; simpl; try done. destruct (dict_get d k) eqn:Hk; [|done].
  intros [= <-]. by exists d.
Qed.

Lemma method_get_inv v k d x : method_get v k d = Ok x → ∃ m, v = JObject m.
Proof. destruct v; simpl; try done. by eexists. Qed.

Ltac ok_step :=
  match goal with
  | |- context [(lift ?r ≫= _) _] =>
      let x := fresh "x" in let Hx := fresh "Hx" in
      destruct r as [x|x] eqn:Hx;
      [rewrite run_lift_ok|by rewrite run_lift_raise]
  end.

Ltac set_ok H :=
  match goal with
  | |- context [(set_field ?i ?k ?v ≫= ?f) ?rows] =>
      let H' := fresh "Hrow" in
      destruct (set_field_then i k v f rows _ H) as [-> H']; clear H; rename H' into H
  end.

(** What an overlay body needs to get through a row that exists. *)
Lemma grn_body_ok_inv data i item (rows : rows_t) :
  i < length rows →
  (grn_body data (i, item) rows).1 = Ok () →
  ∃ hg gno gdate d,
    subscript data "header" = Ok (JObject hg)
    ∧ dict_get hg "GRN no" = Some gno ∧ dict_get hg "GRN Date" = Some gdate
    ∧ item = JObject d.
Proof.
  intros Hlt. destruct (lookup_lt_is_Some_2 rows i Hlt) as [r Hr].
  unfold grn_body. rewrite run_bind. unfold get_state. cbv beta iota.
  rewrite bool_decide_eq_true_2 by done.
  ok_step. ok_step. set_ok Hr. rewrite run_lift_ok. ok_step. set_ok Hr. ok_step.
  intros _.
  apply subscript_inv in Hx0 as (hg & -> & Hno).
  apply subscript_inv in Hx1 as (hg' & [= <-] & Hdate).
  apply method_get_inv in Hx2 as [d ->].
  by exists hg, x0, x1, d.
Qed.

Lemma mrn_body_ok_inv data i item (rows : rows_t) :
  i < length rows →
  (mrn_body data (i, item) rows).1 = Ok () →
  ∃ hm mno d,
    subscript data "header" = Ok (JObject hm)
    ∧ dict_get hm "MRN no" = Some mno ∧ item = JObject d.
Proof.
  intros Hlt. destruct (lookup_lt_is_Some_2 rows i Hlt) as [r Hr].
  unfold mrn_body. rewrite run_bind. unfold get_state. cbv beta iota.
  rewrite bool_decide_eq_true_2 by done.
  ok_step. ok_step. set_ok Hr. ok_step.
  intros _.
  apply subscript_inv in Hx0 as (hm & -> & Hno).
  apply method_get_inv in Hx1 as [d ->].
  by exists hm, x0, d.
Qed.

(** A loop that completes has completed its body at every position, on
    rows as many as at the start. *)
Lemma loop_ok_inv (body : nat * json → M rows_t ()) items i (rows : rows_t) :
  (∀ ix (rows : rows_t), length (body ix rows).2 = length rows) →
  (for_each body (enumerate_from i items) rows).1 = Ok () →
  ∀ j item, items !! j = Some item →
    ∃ rows_j : rows_t,
      length rows_j = length rows ∧ (body (i + j, item) rows_j).1 = Ok ().
Proof.
  intros Hlen. revert i rows. induction items as [|x items IH]; intros i rows Hok j item Hj.
  { by rewrite lookup_nil in Hj. }
  cbn [enumerate_from for_each] in Hok. rewrite run_bind in Hok.
  pose proof (Hlen (i, x) rows) as Hl.
  destruct (body (i, x) rows) as [[[]|e] rows1] eqn:Hbody; [|done].
  destruct j as [|j].
  - injection Hj as <-. exists rows. rewrite Nat.add_0_r, Hbody. done.
  - destruct (IH (S i) rows1 Hok j item Hj) as (rows_j & Hlj & Hbj).
    exists rows_j. split; [by rewrite Hlj|].
    by replace (i + S j) with (S i + j) by lia.
Qed.

Lemma loop_ok (body : nat * json → M rows_t ()) items i (rows : rows_t) :
  (∀ ix (rows : rows_t), length (body ix rows).2 = length rows) →
  (∀ j item (rows : rows_t), length rows ≤ j → body (j, item) rows = (Ok (), rows)) →
  (∀ j d (rows : rows_t), j < length rows → (body (j, JObject d) rows).1 = Ok ()) →
  (∀ j item, items !! j = Some item → i + j < length rows → ∃ d, item = JObject d) →
  (for_each body (enumerate_from i items) rows).1 = Ok ().
Proof.
  intros Hlen Hskip Hbody. revert i rows.
  induction items as [|x items IH]; intros i rows Hitems; [done|].
  cbn [enumerate_from for_each]. rewrite run_bind.
  pose proof (Hlen (i, x) rows) as Hl.
  assert ((body (i, x) rows).1 = Ok ()) as Hx.
  { destruct (decide (i < length rows)) as [Hlt|Hge].
    - destruct (Hitems 0 x eq_refl) as [d ->]; [lia|]. by apply Hbody.
    - rewrite Hskip by lia. done. }
  destruct (body (i, x) rows) as [[[]|e] rows1]; [|done].
  apply IH. intros j item Hj Hlt. apply (Hitems (S j) item Hj).
  simpl in Hl. lia.
Qed.

Lemma grn_body_length data ix (rows : rows_t) :
  length (grn_body data ix rows).2 = length rows.
Proof. destruct ix as [i item]. apply (grn_body_frame data i item rows). Qed.

Lemma mrn_body_length data ix (rows : rows_t) :
  length (mrn_body data ix rows).2 = length rows.
Proof. destruct ix as [i item]. apply (mrn_body_frame data i item rows). Qed.

(** X14.  Exactly when an overlay completes.  The items must be there
    and iterable; and unless there is no row or no item, the header must
    be a mapping holding the header fields of the overlay ([GRN no] and
    [GRN Date], or [MRN no]) and every item at a position that has a row
    must be a mapping.  Nothing else is asked: the fields of the items
    may be missing, and the items past the last row may be anything. *)
Theorem overlay_completes_iff data (rows : rows_t) :
  ((overlay_grn data rows).1 = Ok () ↔
   ∃ items,
     iterated_items data = Ok items
     ∧ (rows = [] ∨ items = []
        ∨ ∃ hg gno gdate,
            subscript data "header" = Ok (JObject hg)
            ∧ dict_get hg "GRN no" = Some gno ∧ dict_get hg "GRN Date" = Some gdate
            ∧ ∀ i item, items !! i = Some item → i < length rows →
                ∃ d, item = JObject d))
  ∧ ((overlay_mrn data rows).1 = Ok () ↔
     ∃ items,
       iterated_items data = Ok items
       ∧ (rows = [] ∨ items = []
          ∨ ∃ hm mno,
              subscript data "header" = Ok (JObject hm)
              ∧ dict_get hm "MRN no" = Some mno
              ∧ ∀ i item, items !! i = Some item → i < length rows →
                  ∃ d, item = JObject d)).
Proof.
  split.
  - rewrite overlay_grn_unfold. split.
    + destruct (iterated_items data) as [items|e] eqn:Hit; [|done].
      intros Hok. exists items. split; [done|].
      destruct rows as [|r rows]; [by left|]. destruct items as [|x items]; [by right; left|].
      right. right.
      destruct (loop_ok_inv _ _ _ _ (grn_body_length data) Hok 0 x eq_refl)
        as (rows0 & Hl0 & Hb0).
      apply grn_body_ok_inv in Hb0 as (hg & gno & gdate & _ & Hh & Hno & Hdate & _);
        [|rewrite Hl0; simpl; lia].
      exists hg, gno, gdate. repeat split; try done.
      intros i item Hi Hlt.
      destruct (loop_ok_inv _ _ _ _ (grn_body_length data) Hok i item Hi)
        as (rows_i & Hli & Hbi).
      apply grn_body_ok_inv in Hbi as (_ & _ & _ & d & _ & _ & _ & ->);
        [by exists d|by rewrite Hli].
    + intros (items & -> & Hcases).
      destruct Hcases as [->|[->|(hg & gno & gdate & Hh & Hno & Hdate & Hitems)]];
        [|done|].
      { unfold enumerate. rewrite loop_skip; [done| |simpl; lia].
        intros. by apply grn_body_skip. }
      apply loop_ok; [apply grn_body_length| |..].
      * intros. by apply grn_body_skip.
      * intros j d rows' Hlt. destruct (lookup_lt_is_Some_2 rows' j Hlt) as [r Hr].
        by erewrite grn_body_ok.
      * intros j item Hj Hlt. by eapply Hitems.
  - rewrite overlay_mrn_unfold. split.
    + destruct (iterated_items data) as [items|e] eqn:Hit; [|done].
      intros Hok. exists items. split; [done|].
      destruct rows as [|r rows]; [by left|]. destruct items as [|x items]; [by right; left|].
      right. right.
      destruct (loop_ok_inv _ _ _ _ (mrn_body_length data) Hok 0 x eq_refl)
        as (rows0 & Hl0 & Hb0).
      apply mrn_body_ok_inv in Hb0 as (hm & mno & _ & Hh & Hno & _);
        [|rewrite Hl0; simpl; lia].
      exists hm, mno. repeat split; try done.
      intros i item Hi Hlt.
      destruct (loop_ok_inv _ _ _ _ (mrn_body_length data) Hok i item Hi)
        as (rows_i & Hli & Hbi).
      apply mrn_body_ok_inv in Hbi as (_ & _ & d & _ & _ & ->);
        [by exists d|by rewrite Hli].
    + intros (items & -> & Hcases).
      destruct Hcases as [->|[->|(hm & mno & Hh & Hno & Hitems)]];
        [|done|].
      { unfold enumerate. rewrite loop_skip; [done| |simpl; lia].
        intros. by apply mrn_body_skip. }
      apply loop_ok; [apply mrn_body_length| |..].
      * intros. by apply mrn_body_skip.
      * intros j d rows' Hlt. destruct (lookup_lt_is_Some_2 rows' j Hlt) as [r Hr].
        by erewrite mrn_body_ok.
      * intros j item Hj Hlt. by eapply Hitems.
Qed.

Lemma overlay_completes_iff_witness :
  (overlay_grn
     (JObject [("header", JObject [("GRN no", JStr "G1"); ("GRN Date", JStr "d")]);
               ("items", JList [JObject []; JStr "not an item"])])
     [[("po no", JStr "100")]]).1
  = Ok ().
Proof.
  apply (proj2 (proj1 (overlay_completes_iff
                         (JObject [("header", JObject [("GRN no", JStr "G1");
                                                       ("GRN Date", JStr "d")]);
                                   ("items", JList [JObject []; JStr "not an item"])])
                         [[("po no", JStr "100")]]))).
  exists [JObject []; JStr "not an item"]. split; [reflexivity|].
  right. right.
  exists [("GRN no", JStr "G1"); ("GRN Date", JStr "d")], (JStr "G1"), (JStr "d").
  split; [reflexivity|]. split; [reflexivity|]. split; [reflexivity|].
  intros i item Hi Hlt. simpl in Hlt.
  destruct i as [|i]; [|lia]. injection Hi as <-. by exists [].
Defined.

(** ** Correlation by position *)

(** X15.  Items and rows are matched by position and by nothing else.
    When a GRN result lacks the item that belongs at position [j], the
    overlay still completes without any error: the rows before [j] get
    their own items, but every row from [j] on gets the fields of the
    item that belongs to the row after it, and the last rows, for which
    no item is left, keep what they held. *)
Theorem omitted_item_shifts_rows data hg (items : list dict) j gno gdate (rows : rows_t) :
  extraction_result data hg (delete j items) →
  dict_get hg "GRN no" = Some gno →
  dict_get hg "GRN Date" = Some gdate →
  ∃ rows',
    overlay_grn data rows = (Ok (), rows')
    ∧ length rows' = length rows
    ∧ ∀ i row, rows !! i = Some row →
        rows' !! i
        = Some (match items !! (if decide (i < j) then i else S i) with
                | Some item => grn_fill gno gdate item row
                | None => row
                end).
Proof.
  intros Hres Hno Hdate.
  exists (fill_rows (grn_fill gno gdate) (delete j items) rows).
  split; [by eapply overlay_grn_ok|]. split; [apply fill_rows_length|].
  intros i row Hrow. rewrite fill_rows_lookup, Hrow.
  destruct (decide (i < j)) as [Hlt|Hge].
  - rewrite list_lookup_delete_lt by done. by destruct (items !! i).
  - rewrite list_lookup_delete_ge by lia. by destruct (items !! S i).
Qed.

Lemma omitted_item_shifts_rows_witness :
  ∃ rows',
    overlay_grn
      (JObject [("header", JObject [("GRN no", JStr "G1"); ("GRN Date", JStr "d")]);
                ("items", JList [JObject [("Delivered Qty", JStr "2")]])])
      [[("Quantity", JStr "1")]; [("Quantity", JStr "2")]]
    = (Ok (), rows')
    ∧ rows' !! 0
      = Some [("Quantity", JStr "1"); ("GRN no", JStr "G1"); ("GRN Date", JStr "d");
              ("Delivered Qty", JStr "2"); ("Remarks", JStr "")].
Proof.
  destruct (omitted_item_shifts_rows
              (JObject [("header", JObject [("GRN no", JStr "G1"); ("GRN Date", JStr "d")]);
                        ("items", JList [JObject [("Delivered Qty", JStr "2")]])])
              [("GRN no", JStr "G1"); ("GRN Date", JStr "d")]
              [[("Delivered Qty", JStr "1")]; [("Delivered Qty", JStr "2")]]
              0 (JStr "G1") (JStr "d")
              [[("Quantity", JStr "1")]; [("Quantity", JStr "2")]])
    as (rows' & Hrun & _ & Hrows).
  - split; reflexivity.
  - reflexivity.
  - reflexivity.
  - exists rows'. split; [exact Hrun|].
    exact (Hrows 0 [("Quantity", JStr "1")] eq_refl).
Defined.

(** ** Independence of the two overlays *)

Lemma dict_set_comm (d : dict) k1 k2 v1 v2 :
  k1 ≠ k2 → k1 ∈ dict_keys d →
  dict_set (dict_set d k1 v1) k2 v2 = dict_set (dict_set d k2 v2) k1 v1.
Proof.
  intros Hne. induction d as [|[k' v'] d IH]; intros Hin.
  { by apply elem_of_nil in Hin. }
  simpl. destruct (String.eqb k' k1) eqn:E1; destruct (String.eqb k' k2) eqn:E2; simpl;
    rewrite ?E1, ?E2; try done.
  - apply String.eqb_eq in E1, E2. congruence.
  - f_equal. apply IH. apply String.eqb_neq in E1.
    simpl in Hin. apply elem_of_cons in Hin as [->|Hin]; done.
Qed.

Lemma dict_keys_set_mono (d : dict) k k' v :
  k ∈ dict_keys d → k ∈ dict_keys (dict_set d k' v).
Proof.
  intros Hin. rewrite dict_keys_set_add. unfold add_key.
  case_bool_decide; [done|]. apply elem_of_app. by left.
Qed.

Ltac swap_fields a b Hkeys :=
  rewrite (dict_set_comm _ a b)
    by (first [done | repeat apply dict_keys_set_mono; apply Hkeys; repeat constructor]).

Lemma fills_commute gno gdate mno ig im (r : dict) :
  grn_fields ⊆ dict_keys r →
  mrn_fill mno im (grn_fill gno gdate ig r) = grn_fill gno gdate ig (mrn_fill mno im r).
Proof.
  intros Hkeys. unfold mrn_fill, grn_fill. cbv zeta.
  swap_fields "Remarks" "MRN no" Hkeys.
  swap_fields "Delivered Qty" "MRN no" Hkeys.
  swap_fields "GRN Date" "MRN no" Hkeys.
  swap_fields "GRN no" "MRN no" Hkeys.
  swap_fields "Remarks" "Rejected Amount" Hkeys.
  swap_fields "Delivered Qty" "Rejected Amount" Hkeys.
  swap_fields "GRN Date" "Rejected Amount" Hkeys.
  swap_fields "GRN no" "Rejected Amount" Hkeys.
  done.
Qed.

Lemma fill_rows_comm {A B} (f : A → dict → dict) (g : B → dict → dict) xs ys
    (rows : rows_t) :
  (∀ x y r, r ∈ rows → f x (g y r) = g y (f x r)) →
  fill_rows f xs (fill_rows g ys rows) = fill_rows g ys (fill_rows f xs rows).
Proof.
  revert xs ys. induction rows as [|r rows IH]; intros xs ys Hcomm.
  { by destruct xs, ys. }
  destruct xs as [|x xs], ys as [|y ys]; simpl; try done.
  rewrite Hcomm by left. f_equal. apply IH.
  intros x' y' r' Hr'. apply Hcomm. by right.
Qed.

(** X16.  The GRN overlay and the MRN overlay do not depend on each
    other: on rows that hold the GRN fields, as the seeded rows do, and
    with results both overlays accept, running them in either order
    gives the same rows, with the same keys in the same places. *)
Theorem overlays_commute grn_data mrn_data hg ig hm im gno gdate mno (rows : rows_t) :
  extraction_result grn_data hg ig →
  extraction_result mrn_data hm im →
  dict_get hg "GRN no" = Some gno →
  dict_get hg "GRN Date" = Some gdate →
  dict_get hm "MRN no" = Some mno →
  (∀ r, r ∈ rows → grn_fields ⊆ dict_keys r) →
  (overlay_grn grn_data;; overlay_mrn mrn_data) rows
  = (overlay_mrn mrn_data;; overlay_grn grn_data) rows.
Proof.
  intros Hg Hm Hno Hdate Hmno Hkeys.
  rewrite !run_bind.
  rewrite (overlay_grn_ok _ _ _ _ _ rows Hg Hno Hdate).
  rewrite (overlay_mrn_ok _ _ _ _ rows Hm Hmno).
  rewrite (overlay_mrn_ok _ _ _ _ _ Hm Hmno).
  rewrite (overlay_grn_ok _ _ _ _ _ _ Hg Hno Hdate).
  f_equal. apply fill_rows_comm. intros x y r Hr.
  apply fills_commute. by apply Hkeys.
Qed.

Lemma overlays_commute_witness :
  (overlay_grn ex_grn;; overlay_mrn ex_mrn)
    [merged_row_dict [("po no", JStr "100")] [("Quantity", JStr "5")]]
  = (overlay_mrn ex_mrn;; overlay_grn ex_grn)
      [merged_row_dict [("po no", JStr "100")] [("Quantity", JStr "5")]].
Proof.
  apply (overlays_commute ex_grn ex_mrn
           [("GRN no", JStr "G1"); ("GRN Date", JStr "2024-01-01")]
           [[("Delivered Qty", JStr "5"); ("Remarks", JStr "OK")]]
           [("MRN no", JStr "M1")] [[("Rejected Amount", JStr "0")]]
           (JStr "G1") (JStr "2024-01-01") (JStr "M1")).
  - split; reflexivity.
  - split; reflexivity.
  - reflexivity.
  - reflexivity.
  - reflexivity.
  - intros r ->%list_elem_of_singleton k Hk. vm_compute.
    unfold grn_fields in Hk.
    repeat (apply elem_of_cons in Hk as [->|Hk]; [repeat constructor|]).
    by apply elem_of_nil in Hk.
Defined.

(** ** The limit on the digits of an integer *)

Lemma span_digits_zeros n rest :
  span_digits rest = ("", rest) → span_digits (zeros n +:+ rest) = (zeros n, rest).
Proof.
  intros Hrest. induction n as [|n IH]; simpl; [done|]. by rewrite IH.
Qed.

Lemma ends_number_span rest : ends_number rest = true → span_digits rest = ("", rest).
Proof.
  destruct rest as [|c rest]; [done|]. simpl.
  by destruct (is_digit c).
Qed.

Lemma zeros_length n : String.length (zeros n) = n.
Proof. induction n as [|n IH]; simpl; [done|by rewrite IH]. Qed.

Lemma digits_value_zeros n acc :
  digits_value (zeros n) acc = (acc * 10 ^ N.of_nat n)%N.
Proof.
  revert acc. induction n as [|n IH]; intros acc.
  - simpl. lia.
  - cbn [zeros digits_value]. rewrite IH.
    change (N_of_ascii "0" - 48)%N with 0%N.
    rewrite Nat2N.inj_succ, N.pow_succ_r'. lia.
Qed.

Lemma scan_number_one_zeros lim n rest :
  ends_number rest = true →
  scan_number lim (String "1" (zeros n +:+ rest))
  = Some (if over_digit_limit lim (String "1" (zeros n)) then PRaise ValueError
          else POk (JInt (10 ^ Z.of_nat n)) rest).
Proof.
  intros Hrest. unfold scan_number.
  cbn [scan_sign]. change (Ascii.eqb "1" "-") with false. cbv iota.
  cbn [scan_int]. change (is_digit "1") with true. change (Ascii.eqb "1" "0") with false.
  cbv iota. rewrite span_digits_zeros by (by apply ends_number_span). cbv iota beta.
  assert (scan_frac rest = ("", rest)) as ->.
  { destruct rest as [|c rest]; [done|]. simpl in Hrest. simpl.
    destruct (Ascii.eqb c "."); [by rewrite !andb_false_r in Hrest|done]. }
  assert (scan_exp rest = ("", rest)) as ->.
  { destruct rest as [|c rest]; [done|]. simpl in Hrest. simpl.
    destruct (Ascii.eqb c "e"); [by rewrite !andb_false_r in Hrest|].
    destruct (Ascii.eqb c "E"); [by rewrite !andb_false_r in Hrest|done]. }
  cbv iota beta.
  destruct (over_digit_limit lim (String "1" (zeros n))); [done|].
  do 3 f_equal. cbn [digits_value]. rewrite digits_value_zeros.
  change (0 * 10 + (N_of_ascii "1" - 48))%N with 1%N.
  rewrite N.mul_1_l, N2Z.inj_pow. by rewrite nat_N_Z.
Qed.

Lemma long_integer_text_chars n rest :
  long_integer_text n rest
  = String "{" (String "034" (String "n" (String "034" (String ":"
      (String "1" (zeros n +:+ rest)))))).
Proof. reflexivity. Qed.

Lemma scan_member_n lim k x :
  scan_once lim (S (S (S k)))
    (String "{" (String "034" (String "n" (String "034" (String ":" (String "1" x))))))
  = pmap JObject
      match scan_atom lim (String "1" x) with
      | POk value r3 =>
          match skip_ws r3 with
          | EmptyString => PErr
          | String c4 r4 =>
              if Ascii.eqb c4 "}" then POk [("n", value)] r4
              else if Ascii.eqb c4 "," then
                match skip_ws r4 with
                | EmptyString => PErr
                | String c5 r5 =>
                    if Ascii.eqb c5 "034"
                    then scan_members lim (S k) r5 [("n", value)]
                    else PErr
                end
              else PErr
          end
      | PErr => PErr
      | PFuel => PFuel
      | PRaise e => PRaise e
      end.
Proof. reflexivity. Qed.

Lemma scan_atom_one lim x :
  scan_atom lim (String "1" x)
  = match scan_number lim (String "1" x) with
    | Some r => r
    | None => PErr
    end.
Proof. reflexivity. Qed.

Lemma long_integer_fuel n rest :
  ∃ k, loads_fuel (long_integer_text n rest) = S (S (S k)).
Proof.
  rewrite long_integer_text_chars. unfold loads_fuel. cbn [String.length].
  exists (2 * String.length (zeros n +:+ rest) + 11). lia.
Qed.

Lemma zeros_snoc n : zeros n +:+ "0" = zeros (S n).
Proof.
  induction n as [|n IH]; [done|].
  change (String "0" (zeros n +:+ "0") = String "0" (zeros (S n))). by rewrite IH.
Qed.

Lemma scan_number_one_zeros_frac lim n :
  scan_number lim (String "1" (zeros n +:+ ".0}"))
  = Some (POk (JFloat (float_of_decimal false (10 ^ Z.of_nat (S n)) (-1))) "}").
Proof.
  unfold scan_number.
  cbn [scan_sign]. change (Ascii.eqb "1" "-") with false. cbv iota.
  cbn [scan_int]. change (is_digit "1") with true. change (Ascii.eqb "1" "0") with false.
  cbv iota. rewrite span_digits_zeros by done. cbv iota beta.
  change (scan_frac ".0}") with (".0", "}").
  change (scan_exp "}") with ("", "}"). cbv iota beta.
  change (frac_digits ".0") with "0". change (exp_value "") with 0%Z.
  change (String "1" (zeros n) +:+ "0") with (String "1" (zeros n +:+ "0")).
  rewrite zeros_snoc. cbn [digits_value]. rewrite digits_value_zeros.
  change (0 * 10 + (N_of_ascii "1" - 48))%N with 1%N.
  rewrite N.mul_1_l, N2Z.inj_pow, nat_N_Z. reflexivity.
Qed.

(** X17.  The limit of the interpreter on the digits of an integer, on
    the texts [{"n":1] followed by [n] zeros and a rest.  When the
    interpreter limits the digits and the [n + 1] digits are more than it
    allows, decoding raises [ValueError] where the number ends, whatever
    follows it: a closing brace or text that is not JSON.  With [n + 1]
    digits within the limit, or without a limit, the closed object decodes
    to the mapping of [n] to the integer, 10 to the power [n].  The limit
    is one on integers alone: with a fraction the same digits are a float,
    whatever the limit. *)
Theorem json_loads_digit_limit (lim : py_limits) (n : nat) :
  (∀ rest,
     recursion_exhausted lim (long_integer_text n rest) = false →
     ends_number rest = true →
     0 < int_max_str_digits lim ≤ n →
     json_loads lim (long_integer_text n rest) = Raise ValueError)
  ∧ (recursion_exhausted lim (long_integer_text n "}") = false →
     int_max_str_digits lim = 0 ∨ n < int_max_str_digits lim →
     json_loads lim (long_integer_text n "}")
     = Ok (JObject [("n", JInt (10 ^ Z.of_nat n))]))
  ∧ (recursion_exhausted lim (long_integer_text n ".0}") = false →
     json_loads lim (long_integer_text n ".0}")
     = Ok (JObject
             [("n", JFloat (float_of_decimal false (10 ^ Z.of_nat (S n)) (-1)))])).
Proof.
  split; [|split].
  - intros rest Hroom Hrest Hlimit. unfold json_loads, decode. rewrite Hroom.
    destruct (long_integer_fuel n rest) as [k ->].
    rewrite long_integer_text_chars. cbn [skip_ws is_ws].
    change (is_ws "{") with false. cbv iota.
    rewrite scan_member_n, scan_atom_one, scan_number_one_zeros by done.
    unfold over_digit_limit. cbn [String.length]. rewrite zeros_length.
    destruct (int_max_str_digits lim) as [|m] eqn:Hm; [lia|].
    rewrite bool_decide_eq_true_2 by lia. reflexivity.
  - intros Hroom Hlimit. unfold json_loads, decode. rewrite Hroom.
    destruct (long_integer_fuel n "}") as [k ->].
    rewrite long_integer_text_chars. cbn [skip_ws is_ws].
    change (is_ws "{") with false. cbv iota.
    rewrite scan_member_n, scan_atom_one, scan_number_one_zeros by done.
    unfold over_digit_limit. cbn [String.length]. rewrite zeros_length.
    destruct (int_max_str_digits lim) as [|m] eqn:Hm; [reflexivity|].
    rewrite bool_decide_eq_false_2 by lia. reflexivity.
  - intros Hroom. unfold json_loads, decode. rewrite Hroom.
    destruct (long_integer_fuel n ".0}") as [k ->].
    rewrite long_integer_text_chars. cbn [skip_ws is_ws].
    change (is_ws "{") with false. cbv iota.
    rewrite scan_member_n, scan_atom_one, scan_number_one_zeros_frac.
    reflexivity.
Qed.

Lemma json_loads_digit_limit_witness :
  json_loads default_limits (long_integer_text 4300 " and more") = Raise ValueError
  ∧ json_loads default_limits (long_integer_text 3 "}")
    = Ok (JObject [("n", JInt 1000)])
  ∧ json_loads default_limits (long_integer_text 400 ".0}")
    = Ok (JObject [("n", JFloat (FInf false))]).
Proof.
  split; [|split].
  - apply (proj1 (json_loads_digit_limit default_limits 4300)).
    + reflexivity.
    + reflexivity.
    + simpl. lia.
  - apply (proj1 (proj2 (json_loads_digit_limit default_limits 3))).
    + reflexivity.
    + right. simpl. lia.
  - rewrite (proj2 (proj2 (json_loads_digit_limit default_limits 400)) eq_refl).
    vm_compute. reflexivity.
Defined.

(** ** Order of a run *)

(** One document stage: the file cannot be opened, or it is opened and
    the request is sent, after which the stage either raises or hands the
    decoded data on. *)
Lemma run_stage_cases {B} w path bytes pdf_type (k : json → M script_state B) st :
  (∃ e, (text ← load_pdf_text w path bytes;
         d ← extract_structured_data w text pdf_type; k d) st
        = (Raise e, add_events st [OpenPdf path]))
  ∨ ∃ pages,
      pdf_open w bytes = Ok pages
      ∧ ((∃ e, (text ← load_pdf_text w path bytes;
                d ← extract_structured_data w text pdf_type; k d) st
               = (Raise e, add_events st
                    [OpenPdf path;
                     ChatRequest (build_prompt (extract_pdf_text pages) pdf_type) 4000 0]))
         ∨ ∃ data, (text ← load_pdf_text w path bytes;
                    d ← extract_structured_data w text pdf_type; k d) st
                   = k data (add_events st
                       [OpenPdf path;
                        ChatRequest (build_prompt (extract_pdf_text pages) pdf_type)
                          4000 0])).
Proof.
  unfold load_pdf_text, extract_structured_data.
  rewrite run_bind, run_emit.
  destruct (pdf_open w bytes) as [pages|e] eqn:Hopen.
  - right. exists pages. split; [done|].
    rewrite run_lift_ok. cbv beta iota delta [mret M_ret].
    rewrite run_bind, run_emit, add_events_app. cbn [app].
    destruct (chat w (build_prompt (extract_pdf_text pages) pdf_type)) as [raw|e]
      eqn:Hchat.
    + rewrite run_lift_ok.
      destruct (parse_response (limits w) raw) as [data|e] eqn:Hparse.
      * right. by exists data.
      * left. by exists e.
    + left. by exists e.
  - left. by exists e.
Qed.

Lemma prefix_of_take {A} n (l : list A) : take n l `prefix_of` l.
Proof. exists (drop n l). by rewrite take_drop. Qed.

Ltac stopped n :=
  let H := fresh in
  eexists _, (take n (process_steps _ _ _));
  split; [reflexivity|];
  split; [apply prefix_of_take|];
  split;
    [unfold process_steps; cbn [take];
     repeat (constructor; cbn [is_step]; eauto)|];
  split;
    [split; [done|]; intros H; apply (f_equal length) in H; cbn in H; lia|done].

Ltac norm :=
  unfold add_events; cbn [fst snd trace rows];
  rewrite <- ?app_assoc; cbn [List.app].

Ltac stage Hopen :=
  let e := fresh "e" in
  let pages := fresh "pages" in
  let data := fresh "data" in
  let Hrun := fresh "Hrun" in
  match goal with
  | |- context [(load_pdf_text ?w ?path ?bytes
                  ≫= (λ text, extract_structured_data _ text ?ty ≫= ?k)) ?st] =>
      destruct (run_stage_cases w path bytes ty k st) as
        [(e & Hrun)|(pages & Hopen & [(e & Hrun)|(data & Hrun)])];
      rewrite Hrun; clear Hrun; norm
  end.

Ltac overlay_stage :=
  let e := fresh "e" in
  let rows' := fresh "rows'" in
  rewrite run_on_rows; cbn [rows trace];
  match goal with
  | |- context [match ?m ?s with _ => _ end] =>
      destruct (m s) as [[[]|e] rows']
  end; norm.

(** X18.  A run with three uploaded files goes through one fixed order of
    steps and stops at the first that fails.  The three files are written
    first; then, for PO, GRN and MRN in this order, the progress message
    is shown, the written file is opened and one request is sent, whose
    prompt is built for that document type from the text of that file;
    only then come the success message, the heading, the table and the
    download button.  The events of any run are an initial part of this
    order, the whole of it exactly when the run succeeds; so no request
    for a later document is sent once an earlier stage has failed, and
    the table and the download appear only after all three overlays.  In
    a successful run the table shown is the data frame of the final rows
    and the download holds the spreadsheet made from that frame without
    an index column. *)
Theorem process_pdfs_in_order w po grn mrn st :
  ∃ evs taken,
    trace (process_pdfs w (Some po) (Some grn) (Some mrn) st).2 = trace st ++ evs
    ∧ taken `prefix_of` process_steps po grn mrn
    ∧ Forall2 (is_step w) taken evs
    ∧ ((process_pdfs w (Some po) (Some grn) (Some mrn) st).1 = Ok ()
       ↔ taken = process_steps po grn mrn)
    ∧ ((process_pdfs w (Some po) (Some grn) (Some mrn) st).1 = Ok () →
       ∃ data,
         to_excel (excel w)
           (pd_DataFrame (rows (process_pdfs w (Some po) (Some grn) (Some mrn) st).2))
           false = Ok data
         ∧ drop 14 evs
           = [StDataframe
                (pd_DataFrame
                   (rows (process_pdfs w (Some po) (Some grn) (Some mrn) st).2));
              StDownloadButton "⬇️ Download Excel" data
                "Reliance_PO_GRN_MRN_Extracted.xlsx" xlsx_mime]).
Proof.
  unfold process_pdfs.
  rewrite run_bind. cbn [uploaded andb negb]. cbv beta iota delta [mret M_ret].
  cbn [read_upload]. rewrite run_lift_ok, run_emit.
  rewrite run_lift_ok, run_emit, run_lift_ok, run_emit, run_emit. norm.
  stage Hpo; [stopped 5|stopped 6|].
  overlay_stage; [|stopped 6].
  rewrite run_emit. norm.
  stage Hgrn; [stopped 8|stopped 9|].
  overlay_stage; [|stopped 9].
  rewrite run_emit. norm.
  stage Hmrn; [stopped 11|stopped 12|].
  overlay_stage; [|stopped 12].
  rewrite run_on_rows. unfold get_state. cbn [rows trace].
  rewrite !run_emit. norm. rewrite run_bind. unfold lift at 1.
  destruct (to_excel (excel w) (pd_DataFrame rows'1) false) as [data2|e] eqn:Hexcel;
    [|norm; stopped 15].
  unfold emit. norm.
  eexists _, (process_steps po grn mrn).
  split; [reflexivity|]. split; [done|]. split.
  { unfold process_steps. repeat (constructor; cbn [is_step]; eauto). }
  split; [done|]. intros _. exists data2. by split.
Qed.

Lemma process_pdfs_in_order_witness :
  ∃ evs,
    trace (process_pdfs scenario_world (Some "po") (Some "grn") (Some "mrn")
             {| trace := []; rows := [] |}).2
    = [] ++ evs
    ∧ Forall2 (is_step scenario_world) (process_steps "po" "grn" "mrn") evs.
Proof.
  destruct (process_pdfs_in_order scenario_world "po" "grn" "mrn"
              {| trace := []; rows := [] |})
    as (evs & taken & Htrace & _ & Hsteps & Hiff & _).
  exists evs. split; [exact Htrace|].
  rewrite <- (proj1 Hiff); [exact Hsteps|]. vm_compute. reflexivity.
Defined.
